(** * SceneManager / ViewManager: a shallow embedding

    The two translation units [Source/SceneManager.cpp] and
    [Source/ViewManager.cpp] are embedded as state-passing functions.

    - [float] and [double] values are idealised as real numbers ([R]):
      rounding, NaN and infinities are outside the model.
    - [int] and [GLuint] values are integers ([Z]); the one conversion
      between them that the code performs is written out ([int_of_GLuint]).
    - The collaborators (OpenGL, stb_image, glm, ShaderManager, ShapeMeshes,
      Camera) are not part of the two files.  OpenGL, ShaderManager and
      ShapeMeshes are modelled by the log of the calls they receive,
      stb_image by a table from file names to decoded images, glm by its
      matrix constructors over [R].
    - Calling a method through a null pointer, or indexing the fixed texture
      array out of its bounds, is undefined behaviour in C++; the model
      stops there with a [Fault] that keeps the state reached so far.
    - Console output ([std::cout]) is not modelled. *)

From Stdlib Require Import ZArith String List Reals Lra Lia.
From stdpp Require Import base list strings gmap.

(** ** glm: vectors, matrices and the transform constructors *)

Module Glm.

Local Open Scope R_scope.

Record vec2 := Vec2 { v2x : R; v2y : R }.
Record vec3 := Vec3 { v3x : R; v3y : R; v3z : R }.
Record vec4 := Vec4 { v4x : R; v4y : R; v4z : R; v4w : R }.

(** [mat4] is column-major, as in glm: [m[c]] is column [c]. *)
Record mat4 := Mat4 { col0 : vec4; col1 : vec4; col2 : vec4; col3 : vec4 }.

Definition vscale (a : vec4) (k : R) : vec4 :=
  Vec4 (v4x a * k) (v4y a * k) (v4z a * k) (v4w a * k).

Definition vadd (a b : vec4) : vec4 :=
  Vec4 (v4x a + v4x b) (v4y a + v4y b) (v4z a + v4z b) (v4w a + v4w b).

(** [mat4(1.0f)] *)
Definition identity : mat4 :=
  Mat4 (Vec4 1 0 0 0) (Vec4 0 1 0 0) (Vec4 0 0 1 0) (Vec4 0 0 0 1).

(** [operator*(mat4, vec4)]: [m[0]*v.x + m[1]*v.y + m[2]*v.z + m[3]*v.w]. *)
Definition mul_vec (m : mat4) (v : vec4) : vec4 :=
  vadd (vadd (vadd (vscale (col0 m) (v4x v)) (vscale (col1 m) (v4y v)))
             (vscale (col2 m) (v4z v)))
       (vscale (col3 m) (v4w v)).

(** [operator*(mat4, mat4)]: column [j] of the product is [m1 * m2[j]]. *)
Definition mul (m1 m2 : mat4) : mat4 :=
  Mat4 (mul_vec m1 (col0 m2)) (mul_vec m1 (col1 m2))
       (mul_vec m1 (col2 m2)) (mul_vec m1 (col3 m2)).

(** [glm::radians] *)
Definition radians (degrees : R) : R := degrees * (PI / 180).

(** [glm::scale(v)] = [scale(mat4(1), v)] *)
Definition scale (v : vec3) : mat4 :=
  let m := identity in
  Mat4 (vscale (col0 m) (v3x v)) (vscale (col1 m) (v3y v))
       (vscale (col2 m) (v3z v)) (col3 m).

(** [glm::translate(v)] = [translate(mat4(1), v)] *)
Definition translate (v : vec3) : mat4 :=
  let m := identity in
  Mat4 (col0 m) (col1 m) (col2 m)
       (vadd (vadd (vadd (vscale (col0 m) (v3x v)) (vscale (col1 m) (v3y v)))
                   (vscale (col2 m) (v3z v)))
             (col3 m)).

(** [glm::normalize(v)] = [v * inversesqrt(dot(v, v))] *)
Definition normalize (v : vec3) : vec3 :=
  let k := / sqrt (v3x v * v3x v + v3y v * v3y v + v3z v * v3z v) in
  Vec3 (v3x v * k) (v3y v * k) (v3z v * k).

(** [glm::rotate(angle, v)] = [rotate(mat4(1), angle, v)]: the axis-angle
    matrix of glm's [matrix_transform.inl]. *)
Definition rotate (angle : R) (v : vec3) : mat4 :=
  let m := identity in
  let c := cos angle in
  let s := sin angle in
  let axis := normalize v in
  let temp := Vec3 ((1 - c) * v3x axis) ((1 - c) * v3y axis) ((1 - c) * v3z axis) in
  let r00 := c + v3x temp * v3x axis in
  let r01 := v3x temp * v3y axis + s * v3z axis in
  let r02 := v3x temp * v3z axis - s * v3y axis in
  let r10 := v3y temp * v3x axis - s * v3z axis in
  let r11 := c + v3y temp * v3y axis in
  let r12 := v3y temp * v3z axis + s * v3x axis in
  let r20 := v3z temp * v3x axis + s * v3y axis in
  let r21 := v3z temp * v3y axis - s * v3x axis in
  let r22 := c + v3z temp * v3z axis in
  Mat4 (vadd (vadd (vscale (col0 m) r00) (vscale (col1 m) r01)) (vscale (col2 m) r02))
       (vadd (vadd (vscale (col0 m) r10) (vscale (col1 m) r11)) (vscale (col2 m) r12))
       (vadd (vadd (vscale (col0 m) r20) (vscale (col1 m) r21)) (vscale (col2 m) r22))
       (col3 m).

(** *** The transforms as the specification names them

    Textbook matrices, written entry by entry; angles are in degrees.
    [mat_of_rows] takes the sixteen entries in reading order (row by row). *)

Definition mat_of_rows
    (a00 a01 a02 a03 a10 a11 a12 a13 a20 a21 a22 a23 a30 a31 a32 a33 : R) : mat4 :=
  Mat4 (Vec4 a00 a10 a20 a30) (Vec4 a01 a11 a21 a31)
       (Vec4 a02 a12 a22 a32) (Vec4 a03 a13 a23 a33).

Definition Scale (s : vec3) : mat4 :=
  mat_of_rows (v3x s) 0 0 0
              0 (v3y s) 0 0
              0 0 (v3z s) 0
              0 0 0 1.

Definition Translate (t : vec3) : mat4 :=
  mat_of_rows 1 0 0 (v3x t)
              0 1 0 (v3y t)
              0 0 1 (v3z t)
              0 0 0 1.

Definition RotateX (deg : R) : mat4 :=
  let a := deg * PI / 180 in
  mat_of_rows 1 0 0 0
              0 (cos a) (- sin a) 0
              0 (sin a) (cos a) 0
              0 0 0 1.

Definition RotateY (deg : R) : mat4 :=
  let a := deg * PI / 180 in
  mat_of_rows (cos a) 0 (sin a) 0
              0 1 0 0
              (- sin a) 0 (cos a) 0
              0 0 0 1.

Definition RotateZ (deg : R) : mat4 :=
  let a := deg * PI / 180 in
  mat_of_rows (cos a) (- sin a) 0 0
              (sin a) (cos a) 0 0
              0 0 1 0
              0 0 0 1.

(** A point of object space as a homogeneous vector, and back. *)
Definition point (p : vec3) : vec4 := Vec4 (v3x p) (v3y p) (v3z p) 1.
Definition xyz (v : vec4) : vec3 := Vec3 (v4x v) (v4y v) (v4z v).

(** What each transform does to a point, written out coordinate by
    coordinate. *)
Definition scale_point (s p : vec3) : vec3 :=
  Vec3 (v3x s * v3x p) (v3y s * v3y p) (v3z s * v3z p).

Definition translate_point (t p : vec3) : vec3 :=
  Vec3 (v3x p + v3x t) (v3y p + v3y t) (v3z p + v3z t).

Definition rotateX_point (deg : R) (p : vec3) : vec3 :=
  let a := deg * PI / 180 in
  Vec3 (v3x p) (cos a * v3y p - sin a * v3z p) (sin a * v3y p + cos a * v3z p).

Definition rotateY_point (deg : R) (p : vec3) : vec3 :=
  let a := deg * PI / 180 in
  Vec3 (cos a * v3x p + sin a * v3z p) (v3y p) (cos a * v3z p - sin a * v3x p).

Definition rotateZ_point (deg : R) (p : vec3) : vec3 :=
  let a := deg * PI / 180 in
  Vec3 (cos a * v3x p - sin a * v3y p) (sin a * v3x p + cos a * v3y p) (v3z p).

(** *** Projections *)

(** [glm::ortho(left, right, bottom, top, zNear, zFar)], right-handed with
    clip depth in [-1, 1] (glm's default): the identity with six entries
    replaced. *)
Definition ortho (left right bottom top zNear zFar : R) : mat4 :=
  Mat4 (Vec4 (2 / (right - left)) 0 0 0)
       (Vec4 0 (2 / (top - bottom)) 0 0)
       (Vec4 0 0 (- 2 / (zFar - zNear)) 0)
       (Vec4 (- (right + left) / (right - left))
             (- (top + bottom) / (top - bottom))
             (- (zFar + zNear) / (zFar - zNear))
             1).

(** [glm::perspective(fovy, aspect, zNear, zFar)], right-handed with clip
    depth in [-1, 1]: the zero matrix with five entries set. *)
Definition perspective (fovy aspect zNear zFar : R) : mat4 :=
  let tanHalfFovy := tan (fovy / 2) in
  Mat4 (Vec4 (1 / (aspect * tanHalfFovy)) 0 0 0)
       (Vec4 0 (1 / tanHalfFovy) 0 0)
       (Vec4 0 0 (- (zFar + zNear) / (zFar - zNear)) (- 1))
       (Vec4 0 0 (- (2 * zFar * zNear) / (zFar - zNear)) 0).

End Glm.

(** ** OpenGL: the calls the scene manager issues, and what they mean *)

Module GL.

Local Open Scope Z_scope.

(** Enumerants, with the values of the OpenGL headers. *)
Definition GL_TEXTURE_2D : Z := 3553.          (* 0x0DE1 *)
Definition GL_TEXTURE0 : Z := 33984.           (* 0x84C0 *)
Definition GL_TEXTURE_WRAP_S : Z := 10242.     (* 0x2802 *)
Definition GL_TEXTURE_WRAP_T : Z := 10243.     (* 0x2803 *)
Definition GL_TEXTURE_MIN_FILTER : Z := 10241. (* 0x2801 *)
Definition GL_TEXTURE_MAG_FILTER : Z := 10240. (* 0x2800 *)
Definition GL_REPEAT : Z := 10497.             (* 0x2901 *)
Definition GL_LINEAR : Z := 9729.              (* 0x2601 *)
Definition GL_RGB : Z := 6407.                 (* 0x1907 *)
Definition GL_RGBA : Z := 6408.                (* 0x1908 *)
Definition GL_RGB8 : Z := 32849.               (* 0x8051 *)
Definition GL_RGBA8 : Z := 32856.              (* 0x8058 *)

(** One constructor per entry point used by SceneManager.cpp.
    [glGenTextures] carries the name the driver handed back. *)
Inductive Call :=
| glGenTextures (name : Z)
| glBindTexture (target texture : Z)
| glActiveTexture (texture : Z)
| glTexParameteri (target pname param : Z)
| glTexImage2D (target level internalformat width height border format : Z)
| glGenerateMipmap (target : Z).

(** The texture names generated so far. *)
Definition generated (log : list Call) : list Z :=
  omap (λ c, match c with glGenTextures n => Some n | _ => None end) log.

(** [glGenTextures] returns a name that is not in use; the model picks the
    one after the largest name generated so far (names start at 1). *)
Definition fresh_name (log : list Call) : Z :=
  1 + foldr Z.max 0 (generated log).

(** The part of the context the calls above act on: the active texture
    unit and, per unit, the texture bound to [GL_TEXTURE_2D]. *)
Record Context := { active_unit : Z; bound_2D : gmap Z Z }.

Definition initial : Context := {| active_unit := 0; bound_2D := ∅ |}.

Definition step (c : Context) (call : Call) : Context :=
  match call with
  | glActiveTexture t =>
      {| active_unit := t - GL_TEXTURE0; bound_2D := bound_2D c |}
  | glBindTexture target t =>
      if target =? GL_TEXTURE_2D
      then {| active_unit := active_unit c;
              bound_2D := <[active_unit c := t]> (bound_2D c) |}
      else c
  | _ => c
  end.

Definition run (c : Context) (log : list Call) : Context := foldl step c log.

End GL.

(** ** SceneManager *)

Module Scene.

Import Glm.
Local Open Scope Z_scope.

(** *** Data *)

(** Modelled from the spec: the struct [TEXTURE_INFO] is declared in
    SceneManager.h, which is not among the sources; a Texture Entry is
    "{tag: string, gpuHandle: opaque resource id}".  The members are named
    as SceneManager.cpp uses them ([.ID], [.tag]). *)
Record TEXTURE_INFO := { ID : Z; tag : string }.

(** Modelled from the spec: the struct [OBJECT_MATERIAL] is declared in
    SceneManager.h, which is not among the sources; a Material Entry is
    "{tag, diffuseColor: RGB triple, specularColor: RGB triple, shininess:
    scalar}".  The members are named as SceneManager.cpp uses them. *)
Record OBJECT_MATERIAL := {
  diffuseColor : vec3;
  specularColor : vec3;
  shininess : R;
  mtag : string  (* the member is named [tag] in the source *)
}.

(** What [stbi_load] reports about a decoded file; the pixels themselves
    play no role in the control flow. *)
Record Image := { width : Z; height : Z; colorChannels : Z }.

(** Modelled from the spec: ShaderManager is not among the sources; the
    shader uniform interface is "named-value setters for booleans, integers
    (including sampler-unit indices), 2/3/4-component vectors, and 4x4
    matrices".  One constructor per setter SceneManager.cpp calls. *)
Inductive Uniform :=
| setIntValue (name : string) (value : Z)
| setBoolValue (name : string) (value : bool)
| setFloatValue (name : string) (value : R)
| setSampler2DValue (name : string) (value : Z)
| setVec2Value (name : string) (value : vec2)
| setVec3Value (name : string) (value : vec3)
| setVec4Value (name : string) (value : vec4)
| setMat4Value (name : string) (value : mat4).

(** A ShaderManager is observed through the pushes it has received, oldest
    first. *)
Definition ShaderManager := list Uniform.

(** Modelled from the spec: ShapeMeshes is not among the sources; the mesh
    library "produces vertex/index buffers for primitive shapes and exposes
    draw calls".  One constructor per entry point SceneManager.cpp calls. *)
Inductive MeshCall :=
| LoadPlaneMesh | LoadCylinderMesh | LoadSphereMesh | LoadConeMesh
| LoadBoxMesh | LoadTaperedCylinderMesh | LoadTorusMesh
| DrawPlaneMesh | DrawCylinderMesh | DrawSphereMesh | DrawConeMesh
| DrawBoxMesh | DrawTaperedCylinderMesh | DrawTorusMesh.

#[export] Instance MeshCall_eq_dec : EqDecision MeshCall.
Proof. solve_decision. Defined.

(** The members of the SceneManager object together with the part of its
    environment it acts on. *)
Record World := {
  m_pShaderManager : option ShaderManager;     (* [None] is the null pointer *)
  m_basicMeshes : list MeshCall;               (* calls received, oldest first *)
  m_textureIDs : list TEXTURE_INFO;            (* the fixed array *)
  m_loadedTextures : Z;
  m_objectMaterials : list OBJECT_MATERIAL;    (* std::vector *)
  gl : list GL.Call;                           (* OpenGL calls, oldest first *)
  files : string → option Image;               (* what stbi_load decodes *)
  indeterminate : OBJECT_MATERIAL              (* contents of an uninitialised local *)
}.

Definition set_shader (s : option ShaderManager) (w : World) : World :=
  {| m_pShaderManager := s; m_basicMeshes := m_basicMeshes w;
     m_textureIDs := m_textureIDs w; m_loadedTextures := m_loadedTextures w;
     m_objectMaterials := m_objectMaterials w; gl := gl w; files := files w;
     indeterminate := indeterminate w |}.

Definition set_meshes (m : list MeshCall) (w : World) : World :=
  {| m_pShaderManager := m_pShaderManager w; m_basicMeshes := m;
     m_textureIDs := m_textureIDs w; m_loadedTextures := m_loadedTextures w;
     m_objectMaterials := m_objectMaterials w; gl := gl w; files := files w;
     indeterminate := indeterminate w |}.

Definition set_textureIDs (a : list TEXTURE_INFO) (w : World) : World :=
  {| m_pShaderManager := m_pShaderManager w; m_basicMeshes := m_basicMeshes w;
     m_textureIDs := a; m_loadedTextures := m_loadedTextures w;
     m_objectMaterials := m_objectMaterials w; gl := gl w; files := files w;
     indeterminate := indeterminate w |}.

Definition set_loadedTextures (n : Z) (w : World) : World :=
  {| m_pShaderManager := m_pShaderManager w; m_basicMeshes := m_basicMeshes w;
     m_textureIDs := m_textureIDs w; m_loadedTextures := n;
     m_objectMaterials := m_objectMaterials w; gl := gl w; files := files w;
     indeterminate := indeterminate w |}.

Definition set_materials (m : list OBJECT_MATERIAL) (w : World) : World :=
  {| m_pShaderManager := m_pShaderManager w; m_basicMeshes := m_basicMeshes w;
     m_textureIDs := m_textureIDs w; m_loadedTextures := m_loadedTextures w;
     m_objectMaterials := m; gl := gl w; files := files w;
     indeterminate := indeterminate w |}.

Definition set_gl (g : list GL.Call) (w : World) : World :=
  {| m_pShaderManager := m_pShaderManager w; m_basicMeshes := m_basicMeshes w;
     m_textureIDs := m_textureIDs w; m_loadedTextures := m_loadedTextures w;
     m_objectMaterials := m_objectMaterials w; gl := g; files := files w;
     indeterminate := indeterminate w |}.

(** *** The monad: state, plus the two ways a run can leave defined behaviour *)

Inductive fault := NullPointer | OutOfBounds.

Inductive Res (A : Type) :=
| Ok (a : A) (w : World)
| Fault (f : fault) (w : World).
Arguments Ok {A} a w.
Arguments Fault {A} f w.

(** The state a run ended in, whether it completed or stopped at a fault. *)
Definition final {A} (r : Res A) : World :=
  match r with Ok _ w => w | Fault _ w => w end.

Definition value {A} (r : Res A) : option A :=
  match r with Ok a _ => Some a | Fault _ _ => None end.

Definition M (A : Type) : Type := World → Res A.

#[export] Instance M_ret : MRet M := λ A a w, Ok a w.
#[export] Instance M_bind : MBind M := λ A B f m w,
  match m w with
  | Ok a w' => f a w'
  | Fault e w' => Fault e w'
  end.

Definition gets {A} (f : World → A) : M A := λ w, Ok (f w) w.
Definition modify (f : World → World) : M unit := λ w, Ok tt (f w).
Definition raise {A} (e : fault) : M A := λ w, Fault e w.

(** [m_pShaderManager->setX(...)]: a call through the pointer. *)
Definition shader_call (u : Uniform) : M unit :=
  p ← gets m_pShaderManager;
  match p with
  | None => raise NullPointer
  | Some sm => modify (set_shader (Some (sm ++ [u])))
  end.

(** [m_basicMeshes->X()]; the constructor always allocates the object. *)
Definition mesh_call (c : MeshCall) : M unit :=
  modify (λ w, set_meshes (m_basicMeshes w ++ [c]) w).

Definition gl_call (c : GL.Call) : M unit :=
  modify (λ w, set_gl (gl w ++ [c]) w).

(** [glGenTextures(1, &id)] *)
Definition gl_gen_texture : M Z :=
  log ← gets gl;
  let name := GL.fresh_name log in
  gl_call (GL.glGenTextures name);;
  mret name.

(** [m_textureIDs[i]] as an rvalue. *)
Definition read_texture (i : Z) : M TEXTURE_INFO :=
  a ← gets m_textureIDs;
  if bool_decide (0 ≤ i) then
    match a !! Z.to_nat i with
    | Some e => mret e
    | None => raise OutOfBounds
    end
  else raise OutOfBounds.

(** [m_textureIDs[i].field = ...]: [f] is the member update. *)
Definition write_texture (i : Z) (f : TEXTURE_INFO → TEXTURE_INFO) : M unit :=
  e ← read_texture i;
  modify (λ w, set_textureIDs (<[Z.to_nat i := f e]> (m_textureIDs w)) w).

(** The conversion of a [GLuint] to [int] (two's complement, 32 bits). *)
Definition int_of_GLuint (u : Z) : Z :=
  let m := u mod 2 ^ 32 in
  if m <? 2 ^ 31 then m else m - 2 ^ 32.

(** C++ [bool] to [int]. *)
Definition int_of_bool (b : bool) : Z := if b then 1 else 0.

(** Names of the uniforms (the anonymous namespace of the file). *)
Definition g_ModelName : string := "model".
Definition g_ColorValueName : string := "objectColor".
Definition g_TextureValueName : string := "objectTexture".
Definition g_UseTextureName : string := "bUseTexture".
Definition g_UseLightingName : string := "bUseLighting".

(** [if (NULL != m_pShaderManager) { body }] *)
Definition when_shader (body : M unit) : M unit :=
  p ← gets m_pShaderManager;
  match p with
  | Some _ => body
  | None => mret tt
  end.

(** *** The constructor *)

(** Modelled from the spec: the declaration of [m_textureIDs] is in
    SceneManager.h, which is not among the sources; the registry's capacity
    is "a fixed small integer", sixteen by the comment of BindGLTextures
    ("There are up to 16 slots"). *)
Definition MAX_TEXTURES : nat := 16.

Definition blank_material : OBJECT_MATERIAL :=
  {| diffuseColor := Vec3 0 0 0; specularColor := Vec3 0 0 0;
     shininess := 0%R; mtag := "" |}.

(** [SceneManager(pShaderManager)] in an environment with the given files.
    The constructor assigns [m_pShaderManager] and [m_basicMeshes] and
    nothing else.

    Modelled from the spec: the other members are declared in
    SceneManager.h, which is not among the sources, and no code of
    SceneManager.cpp gives [m_loadedTextures] its first value.  Texture
    entries are "created during scene preparation" and the material list is
    "populated once at scene-preparation time", so the state here has
    neither: the counter at 0, the array blank, the list empty.  The
    properties that depend on the counter take it from their hypotheses
    and hold from every state; this state is their example. *)
Definition SceneManager (pShaderManager : option ShaderManager)
    (fs : string → option Image) : World :=
  {| m_pShaderManager := pShaderManager;
     m_basicMeshes := [];
     m_textureIDs := replicate MAX_TEXTURES {| ID := 0; tag := "" |};
     m_loadedTextures := 0;
     m_objectMaterials := [];
     gl := [];
     files := fs;
     indeterminate := blank_material |}.

(** *** Texture registry *)

Definition stbi_load (filename : string) : M (option Image) :=
  gets (λ w, files w filename).

(** [CreateGLTexture]: the [return false] inside the channel test leaves
    the function before the registration; [supported] carries that exit.
    The calls [stbi_set_flip_vertically_on_load] and [stbi_image_free] act
    on nothing the model holds.  The counter is an [int]; it is incremented
    only after a write inside the array, far from the range's end. *)
Definition CreateGLTexture (filename : string) (tag_ : string) : M bool :=
  image ← stbi_load filename;
  match image with
  | Some img =>
      textureID ← gl_gen_texture;
      gl_call (GL.glBindTexture GL.GL_TEXTURE_2D textureID);;
      gl_call (GL.glTexParameteri GL.GL_TEXTURE_2D GL.GL_TEXTURE_WRAP_S GL.GL_REPEAT);;
      gl_call (GL.glTexParameteri GL.GL_TEXTURE_2D GL.GL_TEXTURE_WRAP_T GL.GL_REPEAT);;
      gl_call (GL.glTexParameteri GL.GL_TEXTURE_2D GL.GL_TEXTURE_MIN_FILTER GL.GL_LINEAR);;
      gl_call (GL.glTexParameteri GL.GL_TEXTURE_2D GL.GL_TEXTURE_MAG_FILTER GL.GL_LINEAR);;
      supported ←
        (if colorChannels img =? 3 then
           gl_call (GL.glTexImage2D GL.GL_TEXTURE_2D 0 GL.GL_RGB8
                      (width img) (height img) 0 GL.GL_RGB);;
           mret true
         else if colorChannels img =? 4 then
           gl_call (GL.glTexImage2D GL.GL_TEXTURE_2D 0 GL.GL_RGBA8
                      (width img) (height img) 0 GL.GL_RGBA);;
           mret true
         else mret false);
      if (supported : bool) then
        gl_call (GL.glGenerateMipmap GL.GL_TEXTURE_2D);;
        gl_call (GL.glBindTexture GL.GL_TEXTURE_2D 0);;
        n ← gets m_loadedTextures;
        write_texture n (λ e, {| ID := textureID; tag := tag e |});;
        n ← gets m_loadedTextures;
        write_texture n (λ e, {| ID := ID e; tag := tag_ |});;
        modify (λ w, set_loadedTextures (m_loadedTextures w + 1) w);;
        mret true
      else mret false
  | None => mret false
  end.

(** The loop of [BindGLTextures]; [n] counts the iterations left, [i] is
    the loop variable. *)
Fixpoint BindGLTextures_loop (n : nat) (i : Z) : M unit :=
  match n with
  | O => mret tt
  | S n' =>
      gl_call (GL.glActiveTexture (GL.GL_TEXTURE0 + i));;
      e ← read_texture i;
      gl_call (GL.glBindTexture GL.GL_TEXTURE_2D (ID e));;
      BindGLTextures_loop n' (i + 1)
  end.

Definition BindGLTextures : M unit :=
  n ← gets m_loadedTextures;
  BindGLTextures_loop (Z.to_nat n) 0.

(** The loop of [FindTextureID]: [n] bounds the iterations left
    ([m_loadedTextures - index]); finding the tag ends the loop. *)
Fixpoint FindTextureID_loop (n : nat) (index : Z) (tag_ : string) : M Z :=
  match n with
  | O => mret (-1)
  | S n' =>
      e ← read_texture index;
      if String.eqb (tag e) tag_ then mret (int_of_GLuint (ID e))
      else FindTextureID_loop n' (index + 1) tag_
  end.

Definition FindTextureID (tag_ : string) : M Z :=
  n ← gets m_loadedTextures;
  FindTextureID_loop (Z.to_nat n) 0 tag_.

Fixpoint FindTextureSlot_loop (n : nat) (index : Z) (tag_ : string) : M Z :=
  match n with
  | O => mret (-1)
  | S n' =>
      e ← read_texture index;
      if String.eqb (tag e) tag_ then mret index
      else FindTextureSlot_loop n' (index + 1) tag_
  end.

Definition FindTextureSlot (tag_ : string) : M Z :=
  n ← gets m_loadedTextures;
  FindTextureSlot_loop (Z.to_nat n) 0 tag_.

(** *** Material registry *)

(** The loop of [FindMaterial] over the elements from [index] on.  It
    yields [bFound] and the output material: on a match the three
    reflectance members are copied (the tag of the output is not). *)
Fixpoint FindMaterial_loop (rest : list OBJECT_MATERIAL) (tag_ : string)
    (material : OBJECT_MATERIAL) : bool * OBJECT_MATERIAL :=
  match rest with
  | [] => (false, material)
  | e :: rest' =>
      if String.eqb (mtag e) tag_
      then (true, {| diffuseColor := diffuseColor e;
                     specularColor := specularColor e;
                     shininess := shininess e;
                     mtag := mtag material |})
      else FindMaterial_loop rest' tag_ material
  end.

(** [FindMaterial(tag, material)]: the result pairs the returned [bool]
    with the contents of the reference parameter afterwards. *)
Definition FindMaterial (tag_ : string) (material : OBJECT_MATERIAL)
    : M (bool * OBJECT_MATERIAL) :=
  mats ← gets m_objectMaterials;
  if (length mats =? 0)%nat then mret (false, material)
  else
    let '(bFound, material') := FindMaterial_loop mats tag_ material in
    mret (true, material').

(** *** Shader state *)

Definition SetTransformations (scaleXYZ : vec3)
    (XrotationDegrees YrotationDegrees ZrotationDegrees : R)
    (positionXYZ : vec3) : M unit :=
  let scale := Glm.scale scaleXYZ in
  let rotationX := rotate (radians XrotationDegrees) (Vec3 1 0 0) in
  let rotationY := rotate (radians YrotationDegrees) (Vec3 0 1 0) in
  let rotationZ := rotate (radians ZrotationDegrees) (Vec3 0 0 1) in
  let translation := translate positionXYZ in
  let modelView :=
    mul (mul (mul (mul translation rotationZ) rotationY) rotationX) scale in
  when_shader (shader_call (setMat4Value g_ModelName modelView)).

Definition SetShaderColor (redColorValue greenColorValue blueColorValue alphaValue : R)
    : M unit :=
  let currentColor := Vec4 redColorValue greenColorValue blueColorValue alphaValue in
  when_shader (
    shader_call (setIntValue g_UseTextureName (int_of_bool false));;
    shader_call (setVec4Value g_ColorValueName currentColor)).

Definition SetShaderTexture (textureTag : string) : M unit :=
  when_shader (
    shader_call (setIntValue g_UseTextureName (int_of_bool true));;
    textureID ← FindTextureSlot textureTag;
    shader_call (setSampler2DValue g_TextureValueName textureID)).

Definition SetTextureUVScale (u v : R) : M unit :=
  when_shader (shader_call (setVec2Value "UVscale" (Vec2 u v))).

(** [SetShaderMaterial]: the local [material] starts uninitialised, and
    the three pushes are not guarded by a null test. *)
Definition SetShaderMaterial (materialTag : string) : M unit :=
  mats ← gets m_objectMaterials;
  if (0 <? length mats)%nat then
    material ← gets indeterminate;
    '(bReturn, material) ← FindMaterial materialTag material;
    if (bReturn : bool) then
      shader_call (setVec3Value "material.diffuseColor" (diffuseColor material));;
      shader_call (setVec3Value "material.specularColor" (specularColor material));;
      shader_call (setFloatValue "material.shininess" (shininess material))
    else mret tt
  else mret tt.

(** *** The scene *)

(** [LoadSceneTextures]: the results of the ten loads only select console
    messages. *)
Definition LoadSceneTextures : M unit :=
  CreateGLTexture "textures/bookcover.jpg" "bookcover_texture";;
  CreateGLTexture "textures/bookside.jpg" "bookside_texture";;
  CreateGLTexture "textures/counter.jpg" "counter_texture";;
  CreateGLTexture "textures/pages.jpg" "pages_texture";;
  CreateGLTexture "textures/wall.jpg" "wall_texture";;
  CreateGLTexture "textures/can.jpg" "can_texture";;
  CreateGLTexture "textures/canlid.jpg" "canlid_texture";;
  CreateGLTexture "textures/apple.jpg" "apple_texture";;
  CreateGLTexture "textures/carbonated.jpg" "carbonated_texture";;
  CreateGLTexture "textures/foam.jpg" "foam_texture";;
  BindGLTextures.

Definition push_back (m : OBJECT_MATERIAL) : M unit :=
  modify (λ w, set_materials (m_objectMaterials w ++ [m]) w).

Definition canMaterial : OBJECT_MATERIAL :=
  {| diffuseColor := Vec3 40.4 0.4 0.0; specularColor := Vec3 50.7 50.7 40.6;
     shininess := 90.0%R; mtag := "metal" |}.
Definition paperMaterial : OBJECT_MATERIAL :=
  {| diffuseColor := Vec3 0.2 0.2 0.3; specularColor := Vec3 0.0 0.0 0.0;
     shininess := 0.1%R; mtag := "paper" |}.
Definition glassMaterial : OBJECT_MATERIAL :=
  {| diffuseColor := Vec3 0.2 0.2 0.2; specularColor := Vec3 21.0 16.0 11.0;
     shininess := 95.0%R; mtag := "glass" |}.
Definition CounterMaterial : OBJECT_MATERIAL :=
  {| diffuseColor := Vec3 0.4 0.4 0.4; specularColor := Vec3 0.2 0.2 0.2;
     shininess := 30.0%R; mtag := "plate" |}.
Definition backdropMaterial : OBJECT_MATERIAL :=
  {| diffuseColor := Vec3 0.8 0.8 0.9; specularColor := Vec3 0.0 0.0 0.0;
     shininess := 2.0%R; mtag := "backdrop" |}.
Definition FruitMaterial : OBJECT_MATERIAL :=
  {| diffuseColor := Vec3 0.4 0.2 0.4; specularColor := Vec3 0.1 0.05 0.1;
     shininess := 0.55%R; mtag := "apple" |}.

Definition DefineObjectMaterials : M unit :=
  push_back canMaterial;;
  push_back paperMaterial;;
  push_back glassMaterial;;
  push_back CounterMaterial;;
  push_back backdropMaterial;;
  push_back FruitMaterial.

(** [SetupSceneLights]: every call goes through [m_pShaderManager]
    without a null test. *)
Definition SetupSceneLights : M unit :=
  let lightIntensity := 0.8%R in
  shader_call (setBoolValue g_UseLightingName true);;
  shader_call (setVec3Value "directionalLight.direction" (Vec3 (-1.0) (-1.0) (-0.3)));;
  shader_call (setVec3Value "directionalLight.ambient"
    (Vec3 (0.4 * lightIntensity) (0.4 * lightIntensity) (0.35 * lightIntensity)));;
  shader_call (setVec3Value "directionalLight.diffuse"
    (Vec3 (1.0 * lightIntensity) (0.85 * lightIntensity) (0.65 * lightIntensity)));;
  shader_call (setVec3Value "directionalLight.specular"
    (Vec3 (0.9 * lightIntensity) (0.8 * lightIntensity) (0.6 * lightIntensity)));;
  shader_call (setBoolValue "directionalLight.bActive" true);;
  shader_call (setVec3Value "pointLights[0].position" (Vec3 (-4.0) 5.0 2.0));;
  shader_call (setVec3Value "pointLights[0].ambient" (Vec3 0.15 0.15 0.15));;
  shader_call (setVec3Value "pointLights[0].diffuse" (Vec3 0.25 0.25 0.3));;
  shader_call (setVec3Value "pointLights[0].specular" (Vec3 0.1 0.1 0.1));;
  shader_call (setBoolValue "pointLights[0].bActive" true);;
  shader_call (setVec3Value "pointLights[1].position" (Vec3 2.0 6.0 (-3.0)));;
  shader_call (setVec3Value "pointLights[1].ambient" (Vec3 0.2 0.18 0.15));;
  shader_call (setVec3Value "pointLights[1].diffuse" (Vec3 0.45 0.4 0.35));;
  shader_call (setVec3Value "pointLights[1].specular" (Vec3 0.5 0.4 0.3));;
  shader_call (setBoolValue "pointLights[1].bActive" true).

(** The eight mesh-load requests of [PrepareScene], in source order. *)
Definition load_meshes : M unit :=
  mesh_call LoadPlaneMesh;;
  mesh_call LoadCylinderMesh;;
  mesh_call LoadSphereMesh;;
  mesh_call LoadConeMesh;;
  mesh_call LoadBoxMesh;;
  mesh_call LoadTaperedCylinderMesh;;
  mesh_call LoadPlaneMesh;;
  mesh_call LoadTorusMesh.

Definition PrepareScene : M unit :=
  DefineObjectMaterials;;
  SetupSceneLights;;
  load_meshes;;
  LoadSceneTextures.

(** [RenderScene]: the three rotation locals are set to zero once and never
    reassigned; the draw directives follow in source order. *)
Definition RenderScene : M unit :=
  let XrotationDegrees := 0.0%R in
  let YrotationDegrees := 0.0%R in
  let ZrotationDegrees := 0.0%R in
  (* the plane *)
  SetTransformations (Vec3 50.0 1.0 20.0)
    XrotationDegrees YrotationDegrees ZrotationDegrees (Vec3 0.0 (-0.6) 0.0);;
  SetShaderTexture "counter_texture";;
  SetTextureUVScale 2.0 2.0;;
  SetShaderTexture "plate";;
  mesh_call DrawPlaneMesh;;
  (* can, main shape *)
  SetTransformations (Vec3 1.5 8.0 1.5)
    XrotationDegrees YrotationDegrees ZrotationDegrees (Vec3 (-3.0) 2.0 0.0);;
  SetShaderTexture "can_texture";;
  SetTextureUVScale 1.0 1.0;;
  SetShaderTexture "glass";;
  mesh_call DrawCylinderMesh;;
  (* can, top lid *)
  SetTransformations (Vec3 1.45 0.001 1.45) 0.0 75.0 0.0 (Vec3 (-3.0) 10.0 0.0);;
  SetShaderTexture "canlid_texture";;
  SetTextureUVScale 1.0 1.0;;
  SetShaderTexture "glass";;
  mesh_call DrawCylinderMesh;;
  (* cup stem *)
  SetTransformations (Vec3 0.25 1.0 0.25)
    XrotationDegrees YrotationDegrees ZrotationDegrees (Vec3 (-6.0) 3.4 3.0);;
  SetShaderColor 1.0 1.0 1.0 0.3;;
  SetShaderMaterial "glass";;
  mesh_call DrawCylinderMesh;;
  (* cup bottom *)
  SetTransformations (Vec3 1.3 1.0 1.3)
    XrotationDegrees YrotationDegrees ZrotationDegrees (Vec3 (-6.0) 2.0 3.0);;
  SetShaderColor 1.0 1.0 1.0 0.4;;
  SetShaderMaterial "glass";;
  mesh_call DrawCylinderMesh;;
  (* top of cup *)
  SetTransformations (Vec3 1.4 1.5 1.4)
    XrotationDegrees YrotationDegrees ZrotationDegrees (Vec3 (-6.0) 6.3 3.0);;
  SetShaderColor 1.0 1.0 1.0 0.7;;
  SetShaderMaterial "glass";;
  mesh_call DrawTaperedCylinderMesh;;
  (* top middle of cup *)
  SetTransformations (Vec3 1.4 0.5 1.4)
    XrotationDegrees YrotationDegrees ZrotationDegrees (Vec3 (-6.0) 5.80 3.0);;
  SetShaderColor 1.0 1.0 1.0 0.7;;
  SetShaderMaterial "glass";;
  mesh_call DrawCylinderMesh;;
  (* cup round *)
  SetTransformations (Vec3 1.4 1.5 1.4)
    XrotationDegrees YrotationDegrees ZrotationDegrees (Vec3 (-6.0) 5.90 3.0);;
  SetShaderColor 1.0 1.0 1.0 0.7;;
  SetShaderMaterial "glass";;
  mesh_call DrawSphereMesh;;
  (* cone 1 *)
  SetTransformations (Vec3 1.3 0.5 1.3)
    XrotationDegrees YrotationDegrees ZrotationDegrees (Vec3 (-6.0) 3.0 3.0);;
  SetShaderColor 1.0 1.0 1.0 0.3;;
  SetShaderMaterial "glass";;
  mesh_call DrawConeMesh;;
  (* cone 2 *)
  SetTransformations (Vec3 1.0 (-1.0) 1.0)
    XrotationDegrees YrotationDegrees ZrotationDegrees (Vec3 (-6.0) 5.0 3.0);;
  SetShaderColor 1.0 1.0 1.0 0.3;;
  SetShaderMaterial "glass";;
  mesh_call DrawConeMesh;;
  (* book pages *)
  SetTransformations (Vec3 15.0 2.0 10.0)
    XrotationDegrees YrotationDegrees ZrotationDegrees (Vec3 (-2.0) 1.0 2.5);;
  SetShaderTexture "pages_texture";;
  SetTextureUVScale 1.0 1.0;;
  mesh_call DrawBoxMesh;;
  SetShaderMaterial "paper";;
  (* book cover *)
  SetTransformations (Vec3 10.5 0.25 15.5) 0.0 90.0 ZrotationDegrees (Vec3 (-2.0) 2.0 2.5);;
  SetShaderTexture "bookcover_texture";;
  SetTextureUVScale 1.0 1.0;;
  SetShaderMaterial "paper";;
  mesh_call DrawBoxMesh;;
  (* book cover bottom *)
  SetTransformations (Vec3 10.5 0.25 15.5) 0.0 90.0 ZrotationDegrees (Vec3 (-2.0) (-0.25) 2.5);;
  SetShaderTexture "bookcover_texture";;
  SetTextureUVScale 1.0 1.0;;
  SetShaderMaterial "paper";;
  mesh_call DrawBoxMesh;;
  (* book spine *)
  SetTransformations (Vec3 15.5 0.25 2.5) 90.0 0.0 0.0 (Vec3 (-2.0) 0.90 7.75);;
  SetShaderTexture "bookside_texture";;
  SetTextureUVScale 1.0 1.0;;
  SetShaderMaterial "paper";;
  mesh_call DrawBoxMesh;;
  (* back drywall *)
  SetTransformations (Vec3 50.0 0.25 30.0) 90.0 0.0 0.0 (Vec3 0.0 20.0 (-4.0));;
  SetShaderTexture "wall_texture";;
  SetTextureUVScale 1.0 1.0;;
  SetShaderMaterial "backdrop";;
  mesh_call DrawPlaneMesh;;
  (* apple *)
  SetTransformations (Vec3 3.0 1.6 3.0) (-1.0) 90.0 (-10.0) (Vec3 1.7 3.4 3.0);;
  SetShaderColor 1.0 1.0 1.0 1.0;;
  SetShaderTexture "apple_texture";;
  SetShaderMaterial "apple";;
  mesh_call DrawSphereMesh.

(** *** The registry as the properties below speak of it *)

(** Entry [e] sits at index [i] among the textures loaded so far. *)
Definition registered (w : World) (i : nat) (e : TEXTURE_INFO) : Prop :=
  (i < Z.to_nat (m_loadedTextures w))%nat ∧ m_textureIDs w !! i = Some e.

(** No texture loaded so far carries the tag. *)
Definition unregistered (tag_ : string) (w : World) : Prop :=
  ∀ i e, registered w i e → tag e ≠ tag_.

(** The counter stays within the array. *)
Definition in_range (w : World) : Prop :=
  0 ≤ m_loadedTextures w ≤ Z.of_nat (length (m_textureIDs w)).

(** What the loads maintain: the counter is within the array, every
    registered handle is a name OpenGL generated, and names are positive. *)
Record registry_ok (w : World) : Prop := {
  loaded_in_range : in_range w;
  ids_generated : ∀ i e, registered w i e → ID e ∈ GL.generated (gl w);
  names_positive : ∀ x, x ∈ GL.generated (gl w) → 1 ≤ x
}.

(** "Load, then look the tag up: the answers are the slot and the handle
    this load assigned" -- at one file name, tag and state. *)
Definition load_then_find (filename tag_ : string) (w : World) : Prop :=
  ∃ w', CreateGLTexture filename tag_ w = Ok true w'
    ∧ value (FindTextureSlot tag_ w') = Some (m_loadedTextures w)
    ∧ value (FindTextureID tag_ w') = Some (GL.fresh_name (gl w)).

(** "The i-th registered texture on unit i": the calls that bind the
    entries of [l] to consecutive units from [unit] on. *)
Fixpoint bind_in_order (unit : Z) (l : list TEXTURE_INFO) : list GL.Call :=
  match l with
  | [] => []
  | e :: l' =>
      GL.glActiveTexture (GL.GL_TEXTURE0 + unit)
        :: GL.glBindTexture GL.GL_TEXTURE_2D (ID e)
        :: bind_in_order (unit + 1) l'
  end.

(** The pushes a run added to the shader manager it started with (none
    when there is no shader manager). *)
Definition pushes_since (before after : World) : list Uniform :=
  match m_pShaderManager before, m_pShaderManager after with
  | Some old, Some new => drop (length old) new
  | _, _ => []
  end.

(** A computation that never touches the mesh object, whether it returns
    or stops at a fault. *)
Definition keeps_meshes {A} (m : M A) : Prop :=
  ∀ w, m_basicMeshes (final (m w)) = m_basicMeshes w.

(** *** Teardown *)

(** The loop of [DestroyGLTextures]: [glGenTextures(1, &m_textureIDs[i].ID)]
    generates a name and stores it in the entry's [ID]. *)
Fixpoint DestroyGLTextures_loop (n : nat) (i : Z) : M unit :=
  match n with
  | O => mret tt
  | S n' =>
      name ← gl_gen_texture;
      write_texture i (λ e, {| ID := name; tag := tag e |});;
      DestroyGLTextures_loop n' (i + 1)
  end.

Definition DestroyGLTextures : M unit :=
  n ← gets m_loadedTextures;
  DestroyGLTextures_loop (Z.to_nat n) 0.

(** *** More vocabulary for the properties *)

(** Entry [e] at index [k] is the first registered entry that carries the
    tag. *)
Definition first_match (tag_ : string) (w : World) (k : nat) (e : TEXTURE_INFO)
    : Prop :=
  registered w k e ∧ tag e = tag_
  ∧ ∀ j e', (j < k)%nat → registered w j e' → tag e' ≠ tag_.

(** Entry [e] is the first material of the list that carries the tag. *)
Definition first_material (tag_ : string) (mats : list OBJECT_MATERIAL)
    (e : OBJECT_MATERIAL) : Prop :=
  ∃ pre post, mats = pre ++ e :: post ∧ mtag e = tag_
              ∧ ∀ e', e' ∈ pre → mtag e' ≠ tag_.

(** The value of the "bUseTexture" uniform after the pushes [sm]: the last
    integer pushed under that name, if any. *)
Definition use_texture (sm : ShaderManager) : option Z :=
  last (omap (λ u, match u with
                   | setIntValue name v =>
                       if String.eqb name g_UseTextureName then Some v else None
                   | _ => None
                   end) sm).

(** Everything but the shader manager and the mesh log is the same. *)
Definition same_scene (w w' : World) : Prop :=
  m_textureIDs w' = m_textureIDs w
  ∧ m_loadedTextures w' = m_loadedTextures w
  ∧ m_objectMaterials w' = m_objectMaterials w
  ∧ gl w' = gl w
  ∧ files w' = files w
  ∧ indeterminate w' = indeterminate w.

(** With a shader manager present and the counter within the array, [m]
    returns after appending pushes to the shader manager -- [n] of them,
    and three more for each of its [k] material lookups once a material is
    defined --, leaves the rest of the scene alone and sends exactly
    [draws] to the mesh object. *)
Definition pushes_and_draws (m : M unit) (n k : nat) (draws : list MeshCall) : Prop :=
  ∀ w sm, m_pShaderManager w = Some sm → in_range w →
    ∃ w' pushes, m w = Ok tt w'
      ∧ m_pShaderManager w' = Some (sm ++ pushes)
      ∧ length pushes =
          (n + match m_objectMaterials w with [] => 0 | _ :: _ => 3 * k end)%nat
      ∧ same_scene w w'
      ∧ m_basicMeshes w' = m_basicMeshes w ++ draws.

(** Every file decodes to an image of three or four channels. *)
Definition all_files_supported (fs : string → option Image) : Prop :=
  ∀ filename, ∃ img, fs filename = Some img
                     ∧ (colorChannels img = 3 ∨ colorChannels img = 4).

End Scene.

(** ** ViewManager: the input callbacks *)

Module View.

Import Glm.
Local Open Scope R_scope.

(** Modelled from the spec: camera.h is not among the sources; the Camera
    State is "{position, orientation basis (front/up/right vectors or
    equivalent), fieldOfView, movementSpeed}".  The members are those
    ViewManager.cpp touches, under the names it uses. *)
Record Camera := {
  Position : vec3;
  Front : vec3;
  Up : vec3;
  Zoom : R;
  MovementSpeed : R
}.

(** The variables of the file's anonymous namespace that the two mouse
    callbacks read or write. *)
Record Globals := {
  g_pCamera : Camera;
  gLastX : R;
  gLastY : R;
  gFirstMouse : bool
}.

Definition WINDOW_WIDTH : R := 1000.
Definition WINDOW_HEIGHT : R := 800.

(** The initialisers of the namespace followed by [ViewManager(...)]. *)
Definition ViewManager : Globals :=
  {| g_pCamera := {| Position := Vec3 0.0 5.0 12.0;
                     Front := Vec3 0.0 (-0.5) (-2.0);
                     Up := Vec3 0.0 1.0 0.0;
                     Zoom := 80;
                     MovementSpeed := 5 |};
     gLastX := WINDOW_WIDTH / 2.0;
     gLastY := WINDOW_HEIGHT / 2.0;
     gFirstMouse := true |}.

Definition set_MovementSpeed (s : R) (c : Camera) : Camera :=
  {| Position := Position c; Front := Front c; Up := Up c; Zoom := Zoom c;
     MovementSpeed := s |}.

Definition set_camera (c : Camera) (g : Globals) : Globals :=
  {| g_pCamera := c; gLastX := gLastX g; gLastY := gLastY g;
     gFirstMouse := gFirstMouse g |}.

Section Callbacks.

(** [Camera::ProcessMouseMovement(xOffset, yOffset)], the look-direction
    update of camera.h. *)
Variable ProcessMouseMovement : R → R → Camera → Camera.

Definition Mouse_Position_Callback (xMousePos yMousePos : R) (g : Globals)
    : Globals :=
  let g1 :=
    if gFirstMouse g
    then {| g_pCamera := g_pCamera g; gLastX := xMousePos; gLastY := yMousePos;
            gFirstMouse := false |}
    else g in
  let xOffset := xMousePos - gLastX g1 in
  let yOffset := gLastY g1 - yMousePos in
  {| g_pCamera := ProcessMouseMovement xOffset yOffset (g_pCamera g1);
     gLastX := xMousePos;
     gLastY := yMousePos;
     gFirstMouse := gFirstMouse g1 |}.


End Callbacks.

Definition Mouse_Scroll_Callback (xOffset yOffset : R) (g : Globals) : Globals :=
  let c := g_pCamera g in
  if Rlt_dec 0 yOffset then
    set_camera (set_MovementSpeed (MovementSpeed c + 2.0) c) g
  else if Rlt_dec yOffset 0 then
    let c1 := set_MovementSpeed (MovementSpeed c - 2.0) c in
    if Rlt_dec (MovementSpeed c1) 1.0
    then set_camera (set_MovementSpeed 1.0 c1) g
    else set_camera c1 g
  else g.

(** [g_pCamera->MovementSpeed] *)
Definition speed (g : Globals) : R := MovementSpeed (g_pCamera g).

(** A stream of scroll events [(xOffset, yOffset)], delivered in order. *)
Definition scrolls (events : list (R * R)) (g : Globals) : Globals :=
  foldl (λ g e, Mouse_Scroll_Callback e.1 e.2 g) g events.






End View.

(** ** ViewManager: the frame and the input stream *)

Module ViewLoop.

Import Glm View.
Local Open Scope R_scope.

(** [Camera_Movement] (camera.h), as ViewManager.cpp names its values. *)
Inductive Camera_Movement := FORWARD | BACKWARD | LEFT | RIGHT | UP | DOWN.

(** The keys [ProcessKeyboardEvents] queries. *)
Inductive Key :=
| GLFW_KEY_ESCAPE | GLFW_KEY_W | GLFW_KEY_S | GLFW_KEY_A | GLFW_KEY_D
| GLFW_KEY_Q | GLFW_KEY_E | GLFW_KEY_P | GLFW_KEY_O.

(** The file's variables and the object's members that a frame reads or
    writes, around the [Globals] of the mouse callbacks.  [shouldClose] is
    the close flag of the window [m_pWindow] points to. *)
Record State := {
  globals : Globals;
  gDeltaTime : R;
  gLastFrame : R;
  bOrthographicProjection : bool;
  m_pShaderManager : option Scene.ShaderManager;   (* [None] is the null pointer *)
  shouldClose : bool
}.

(** The initialisers of the namespace and the constructor. *)
Definition ViewManager (pShaderManager : option Scene.ShaderManager) : State :=
  {| globals := View.ViewManager;
     gDeltaTime := 0.0;
     gLastFrame := 0.0;
     bOrthographicProjection := false;
     m_pShaderManager := pShaderManager;
     shouldClose := false |}.

Definition camera (s : State) : Camera := g_pCamera (globals s).

Definition set_globals (g : Globals) (s : State) : State :=
  {| globals := g; gDeltaTime := gDeltaTime s; gLastFrame := gLastFrame s;
     bOrthographicProjection := bOrthographicProjection s;
     m_pShaderManager := m_pShaderManager s; shouldClose := shouldClose s |}.

Definition set_projection (b : bool) (s : State) : State :=
  {| globals := globals s; gDeltaTime := gDeltaTime s; gLastFrame := gLastFrame s;
     bOrthographicProjection := b;
     m_pShaderManager := m_pShaderManager s; shouldClose := shouldClose s |}.

Definition set_shouldClose (b : bool) (s : State) : State :=
  {| globals := globals s; gDeltaTime := gDeltaTime s; gLastFrame := gLastFrame s;
     bOrthographicProjection := bOrthographicProjection s;
     m_pShaderManager := m_pShaderManager s; shouldClose := b |}.

Definition set_time (delta last : R) (s : State) : State :=
  {| globals := globals s; gDeltaTime := delta; gLastFrame := last;
     bOrthographicProjection := bOrthographicProjection s;
     m_pShaderManager := m_pShaderManager s; shouldClose := shouldClose s |}.

Definition set_shader (p : option Scene.ShaderManager) (s : State) : State :=
  {| globals := globals s; gDeltaTime := gDeltaTime s; gLastFrame := gLastFrame s;
     bOrthographicProjection := bOrthographicProjection s;
     m_pShaderManager := p; shouldClose := shouldClose s |}.

Definition g_ViewName : string := "view".
Definition g_ProjectionName : string := "projection".

Section Frame.

(** [Camera::ProcessKeyboard(direction, velocity)] and
    [Camera::GetViewMatrix()] of camera.h. *)
Variable ProcessKeyboard : Camera_Movement → R → Camera → Camera.
Variable GetViewMatrix : Camera → mat4.

(** [g_pCamera->ProcessKeyboard(direction, gDeltaTime * g_pCamera->MovementSpeed)] *)
Definition move (direction : Camera_Movement) (s : State) : State :=
  set_globals
    (set_camera
       (ProcessKeyboard direction (gDeltaTime s * MovementSpeed (camera s)) (camera s))
       (globals s))
    s.

(** [ProcessKeyboardEvents]; [pressed k] is [glfwGetKey(m_pWindow, k) ==
    GLFW_PRESS] on the window the display was created with. *)
Definition ProcessKeyboardEvents (pressed : Key → bool) (s : State) : State :=
  let s := if pressed GLFW_KEY_ESCAPE then set_shouldClose true s else s in
  let s := if pressed GLFW_KEY_W then move FORWARD s else s in
  let s := if pressed GLFW_KEY_S then move BACKWARD s else s in
  let s := if pressed GLFW_KEY_A then move LEFT s else s in
  let s := if pressed GLFW_KEY_D then move RIGHT s else s in
  let s := if pressed GLFW_KEY_Q then move UP s else s in
  let s := if pressed GLFW_KEY_E then move DOWN s else s in
  let s := if pressed GLFW_KEY_P then set_projection false s else s in
  let s := if pressed GLFW_KEY_O then set_projection true s else s in
  s.

(** The projection matrix [PrepareSceneView] builds from the state. *)
Definition projection_of (s : State) : mat4 :=
  if bOrthographicProjection s then
    let orthoSize := 10.0 in
    ortho (- orthoSize) orthoSize (- orthoSize) orthoSize 0.1 100.0
  else
    perspective (radians (Zoom (camera s))) (WINDOW_WIDTH / WINDOW_HEIGHT) 0.1 100.0.

(** [PrepareSceneView]; [currentFrame] is what [glfwGetTime()] returns. *)
Definition PrepareSceneView (currentFrame : R) (pressed : Key → bool) (s : State)
    : State :=
  let s := set_time (currentFrame - gLastFrame s) currentFrame s in
  let s := ProcessKeyboardEvents pressed s in
  let view := GetViewMatrix (camera s) in
  let projection := projection_of s in
  match m_pShaderManager s with
  | Some sm =>
      set_shader (Some (sm ++ [Scene.setMat4Value g_ViewName view;
                               Scene.setMat4Value g_ProjectionName projection;
                               Scene.setVec3Value "viewPosition" (Position (camera s))]))
                 s
  | None => s
  end.

(** A run of frames: each with its clock reading and its key state. *)
Definition frames (fs : list (R * (Key → bool))) (s : State) : State :=
  foldl (λ s f, PrepareSceneView f.1 f.2 s) s fs.

End Frame.

(** The two callbacks GLFW delivers input through. *)
Inductive Input :=
| CursorPos (xMousePos yMousePos : R)
| Scroll (xOffset yOffset : R).

Definition deliver (ProcessMouseMovement : R → R → Camera → Camera)
    (e : Input) (g : Globals) : Globals :=
  match e with
  | CursorPos x y => Mouse_Position_Callback ProcessMouseMovement x y g
  | Scroll x y => Mouse_Scroll_Callback x y g
  end.

Definition deliver_all (ProcessMouseMovement : R → R → Camera → Camera)
    (es : list Input) (g : Globals) : Globals :=
  foldl (λ g e, deliver ProcessMouseMovement e g) g es.

#[export] Instance Key_eq_dec : EqDecision Key.
Proof. solve_decision. Defined.

(** Exactly the key [k] is down. *)
Definition only (k : Key) : Key → bool := λ k', bool_decide (k' = k).

(** A camera whose keyboard update leaves it alone and whose view matrix
    is the identity; it stands in for camera.h where a concrete camera is
    wanted. *)
Definition still_camera : Camera_Movement → R → Camera → Camera := λ _ _ c, c.
Definition identity_view : Camera → mat4 := λ _, identity.

End ViewLoop.

(** ** Concrete states *)

Module Examples.

Import Glm Scene.
Local Open Scope Z_scope.

Definition rgb_image : Image := {| width := 4; height := 4; colorChannels := 3 |}.
Definition grey_image : Image := {| width := 4; height := 4; colorChannels := 1 |}.

(** Every file decodes to a small RGB image. *)
Definition rgb_files : string → option Image := λ _, Some rgb_image.

(** Every file decodes to a one-channel image. *)
Definition grey_files : string → option Image := λ _, Some grey_image.

(** A scene manager with a shader manager that has received nothing. *)
Definition fresh_scene : World := SceneManager (Some []) rgb_files.

(** The same, where files decode to one channel. *)
Definition grey_scene : World := SceneManager (Some []) grey_files.

(** A scene manager built on a null shader manager (headless). *)
Definition headless_scene : World := SceneManager None rgb_files.

(** One texture loaded under the tag "a". *)
Definition one_texture : World :=
  final (CreateGLTexture "textures/a.jpg" "a" fresh_scene).

(** Three textures loaded. *)
Definition three_textures : World :=
  final ((CreateGLTexture "textures/a.jpg" "a";;
          CreateGLTexture "textures/b.jpg" "b";;
          CreateGLTexture "textures/c.jpg" "c") fresh_scene).

(** The six scene materials defined on a headless scene manager. *)
Definition headless_materials : World :=
  final (DefineObjectMaterials headless_scene).

(** The six scene materials defined on a scene manager with a shader. *)
Definition scene_materials : World :=
  final (DefineObjectMaterials fresh_scene).

(** No file can be decoded. *)
Definition no_files_scene : World := SceneManager (Some []) (λ _, None).

(** Sixteen textures loaded: the array is full. *)
Definition sixteen_textures : World :=
  final ((CreateGLTexture "textures/0.jpg" "t0";;
          CreateGLTexture "textures/1.jpg" "t1";;
          CreateGLTexture "textures/2.jpg" "t2";;
          CreateGLTexture "textures/3.jpg" "t3";;
          CreateGLTexture "textures/4.jpg" "t4";;
          CreateGLTexture "textures/5.jpg" "t5";;
          CreateGLTexture "textures/6.jpg" "t6";;
          CreateGLTexture "textures/7.jpg" "t7";;
          CreateGLTexture "textures/8.jpg" "t8";;
          CreateGLTexture "textures/9.jpg" "t9";;
          CreateGLTexture "textures/10.jpg" "t10";;
          CreateGLTexture "textures/11.jpg" "t11";;
          CreateGLTexture "textures/12.jpg" "t12";;
          CreateGLTexture "textures/13.jpg" "t13";;
          CreateGLTexture "textures/14.jpg" "t14";;
          CreateGLTexture "textures/15.jpg" "t15") fresh_scene).

End Examples.

(** * Properties *)

(** ** Transform composition *)

Section Transforms.

Import Glm.
Local Open Scope R_scope.

Lemma mat4_ext (a b : mat4) :
  col0 a = col0 b → col1 a = col1 b → col2 a = col2 b → col3 a = col3 b →
  a = b.
Proof. destruct a, b; simpl; congruence. Qed.

Lemma vec4_ext (a b : vec4) :
  v4x a = v4x b → v4y a = v4y b → v4z a = v4z b → v4w a = v4w b → a = b.
Proof. destruct a, b; simpl; congruence. Qed.

(** Reduce an equation between matrices or vectors to its entries. *)
Ltac entries :=
  repeat match goal with
  | |- @eq mat4 _ _ => apply mat4_ext
  | |- @eq vec4 _ _ => apply vec4_ext
  end;
  cbn [col0 col1 col2 col3 v4x v4y v4z v4w v3x v3y v3z
       mul mul_vec vadd vscale identity mat_of_rows point].

Lemma mul_vec_assoc (a b : mat4) (v : vec4) :
  mul_vec (mul a b) v = mul_vec a (mul_vec b v).
Proof. destruct a as [[] [] [] []], b as [[] [] [] []], v; entries; ring. Qed.

(** The matrix product is associative, so the five-fold product of the
    source needs no bracketing. *)
Lemma mul_assoc (a b c : mat4) : mul (mul a b) c = mul a (mul b c).
Proof. unfold mul at 1 3. apply mat4_ext; cbn [col0 col1 col2 col3]; apply mul_vec_assoc. Qed.

Lemma normalize_x : normalize (Vec3 1 0 0) = Vec3 1 0 0.
Proof.
  unfold normalize; cbn [v3x v3y v3z].
  replace (1 * 1 + 0 * 0 + 0 * 0) with 1 by ring.
  rewrite sqrt_1. f_equal; field.
Qed.

Lemma normalize_y : normalize (Vec3 0 1 0) = Vec3 0 1 0.
Proof.
  unfold normalize; cbn [v3x v3y v3z].
  replace (0 * 0 + 1 * 1 + 0 * 0) with 1 by ring.
  rewrite sqrt_1. f_equal; field.
Qed.

Lemma normalize_z : normalize (Vec3 0 0 1) = Vec3 0 0 1.
Proof.
  unfold normalize; cbn [v3x v3y v3z].
  replace (0 * 0 + 0 * 0 + 1 * 1) with 1 by ring.
  rewrite sqrt_1. f_equal; field.
Qed.

Lemma radians_degrees (d : R) : radians d = d * PI / 180.
Proof. unfold radians. field. Qed.

(** glm's constructors, at the arguments [SetTransformations] passes, are
    the textbook matrices. *)
Lemma scale_Scale (s : vec3) : scale s = Scale s.
Proof. unfold scale, Scale. entries; ring. Qed.

Lemma translate_Translate (t : vec3) : translate t = Translate t.
Proof. unfold translate, Translate. entries; ring. Qed.

Lemma rotate_RotateX (d : R) : rotate (radians d) (Vec3 1 0 0) = RotateX d.
Proof.
  unfold rotate, RotateX. rewrite normalize_x, radians_degrees.
  cbv zeta. entries; ring.
Qed.

Lemma rotate_RotateY (d : R) : rotate (radians d) (Vec3 0 1 0) = RotateY d.
Proof.
  unfold rotate, RotateY. rewrite normalize_y, radians_degrees.
  cbv zeta. entries; ring.
Qed.

Lemma rotate_RotateZ (d : R) : rotate (radians d) (Vec3 0 0 1) = RotateZ d.
Proof.
  unfold rotate, RotateZ. rewrite normalize_z, radians_degrees.
  cbv zeta. entries; ring.
Qed.

(** Each textbook matrix acts on a point as its name says. *)
Lemma Scale_point (s p : vec3) :
  mul_vec (Scale s) (point p) = point (scale_point s p).
Proof. unfold Scale, scale_point. entries; ring. Qed.

Lemma Translate_point (t p : vec3) :
  mul_vec (Translate t) (point p) = point (translate_point t p).
Proof. unfold Translate, translate_point. entries; ring. Qed.

Lemma RotateX_point (d : R) (p : vec3) :
  mul_vec (RotateX d) (point p) = point (rotateX_point d p).
Proof. unfold RotateX, rotateX_point. cbv zeta. entries; ring. Qed.

Lemma RotateY_point (d : R) (p : vec3) :
  mul_vec (RotateY d) (point p) = point (rotateY_point d p).
Proof. unfold RotateY, rotateY_point. cbv zeta. entries; ring. Qed.

Lemma RotateZ_point (d : R) (p : vec3) :
  mul_vec (RotateZ d) (point p) = point (rotateZ_point d p).
Proof. unfold RotateZ, rotateZ_point. cbv zeta. entries; ring. Qed.

Lemma rotate_zero_degrees : 0 * PI / 180 = 0.
Proof. field. Qed.

End Transforms.

(** ** Running the monad *)

Section Running.

Import Scene.

Lemma bind_run {A B} (m : M A) (f : A → M B) (w : World) :
  (m ≫= f) w =
  match m w with
  | Ok a w' => f a w'
  | Fault e w' => Fault e w'
  end.
Proof. reflexivity. Qed.

Lemma bind_Ok {A B} (m : M A) (f : A → M B) (w w' : World) (a : A) :
  m w = Ok a w' → (m ≫= f) w = f a w'.
Proof. intros H. rewrite bind_run, H. reflexivity. Qed.

Lemma bind_Fault {A B} (m : M A) (f : A → M B) (w w' : World) (e : fault) :
  m w = Fault e w' → (m ≫= f) w = Fault e w'.
Proof. intros H. rewrite bind_run, H. reflexivity. Qed.

Lemma shader_call_null (u : Uniform) (w : World) :
  m_pShaderManager w = None → shader_call u w = Fault NullPointer w.
Proof. intros H. unfold shader_call. rewrite bind_run. simpl. rewrite H. reflexivity. Qed.

Lemma shader_call_Some (u : Uniform) (w : World) (sm : ShaderManager) :
  m_pShaderManager w = Some sm →
  shader_call u w = Ok tt (set_shader (Some (sm ++ [u])) w).
Proof. intros H. unfold shader_call. rewrite bind_run. simpl. rewrite H. reflexivity. Qed.

Lemma when_shader_null (body : M unit) (w : World) :
  m_pShaderManager w = None → when_shader body w = Ok tt w.
Proof. intros H. unfold when_shader. rewrite bind_run. simpl. rewrite H. reflexivity. Qed.

Lemma when_shader_Some (body : M unit) (w : World) (sm : ShaderManager) :
  m_pShaderManager w = Some sm → when_shader body w = body w.
Proof. intros H. unfold when_shader. rewrite bind_run. simpl. rewrite H. reflexivity. Qed.

End Running.

(** ** C4: the model matrix *)

Section ModelMatrix.

Import Glm Scene.
Local Open Scope R_scope.

(** The product the source computes is the product of the five textbook
    matrices, bracketed from the left as C++ evaluates it. *)
Lemma SetTransformations_pushes (S : vec3) (rx ry rz : R) (T : vec3)
    (w : World) (sm : ShaderManager) :
  m_pShaderManager w = Some sm →
  SetTransformations S rx ry rz T w =
  Ok tt (set_shader (Some (sm ++ [setMat4Value "model"
    (mul (mul (mul (mul (Translate T) (RotateZ rz)) (RotateY ry)) (RotateX rx))
         (Scale S))])) w).
Proof.
  intros H. unfold SetTransformations. cbv zeta.
  rewrite (when_shader_Some _ _ _ H), (shader_call_Some _ _ _ H).
  rewrite scale_Scale, translate_Translate, rotate_RotateX, rotate_RotateY,
    rotate_RotateZ.
  reflexivity.
Qed.

(** C4. For every scale [S], rotation angles [rx ry rz] (degrees) and
    translation [T], the matrix [SetTransformations] pushes as "model" is
    [Translate T * RotateZ rz * RotateY ry * RotateX rx * Scale S]; applied
    to a point it scales first, then rotates about X, then Y, then Z, then
    translates; with S = (2,1,1), no rotation and T = (5,0,0) the point
    (1,1,1) goes to (7,1,1).  (Floats are read as real numbers.) *)
Theorem SetTransformations_model_matrix
    (S : vec3) (rx ry rz : R) (T : vec3) (w : World) (sm : ShaderManager) :
  m_pShaderManager w = Some sm →
  let model :=
    mul (Translate T) (mul (RotateZ rz) (mul (RotateY ry) (mul (RotateX rx) (Scale S)))) in
  SetTransformations S rx ry rz T w =
    Ok tt (set_shader (Some (sm ++ [setMat4Value "model" model])) w)
  ∧ (∀ p : vec3,
       mul_vec model (point p) =
       point (translate_point T (rotateZ_point rz (rotateY_point ry
               (rotateX_point rx (scale_point S p))))))
  ∧ (∃ model0 : mat4,
       SetTransformations (Vec3 2 1 1) 0 0 0 (Vec3 5 0 0) w =
         Ok tt (set_shader (Some (sm ++ [setMat4Value "model" model0])) w)
       ∧ mul_vec model0 (point (Vec3 1 1 1)) = point (Vec3 7 1 1)).
Proof.
  intros H model. split; [|split].
  - rewrite (SetTransformations_pushes _ _ _ _ _ _ _ H). subst model.
    rewrite !mul_assoc. reflexivity.
  - intros p. subst model.
    rewrite !mul_vec_assoc, Scale_point, RotateX_point, RotateY_point,
      RotateZ_point, Translate_point.
    reflexivity.
  - eexists. split.
    + apply (SetTransformations_pushes _ _ _ _ _ _ _ H).
    + rewrite !mul_vec_assoc, Scale_point, RotateX_point, RotateY_point,
        RotateZ_point, Translate_point.
      unfold translate_point, rotateZ_point, rotateY_point, rotateX_point,
        scale_point, point.
      cbn [v3x v3y v3z]. rewrite rotate_zero_degrees, cos_0, sin_0.
      f_equal; f_equal; ring.
Qed.

Lemma SetTransformations_model_matrix_witness :
  m_pShaderManager Examples.fresh_scene = Some []
  ∧ (let model :=
       mul (Translate (Vec3 5 0 0))
         (mul (RotateZ 0) (mul (RotateY 0) (mul (RotateX 0) (Scale (Vec3 2 1 1))))) in
     SetTransformations (Vec3 2 1 1) 0 0 0 (Vec3 5 0 0) Examples.fresh_scene =
       Ok tt (set_shader (Some ([] ++ [setMat4Value "model" model])) Examples.fresh_scene)
     ∧ (∀ p : vec3,
          mul_vec model (point p) =
          point (translate_point (Vec3 5 0 0) (rotateZ_point 0 (rotateY_point 0
                  (rotateX_point 0 (scale_point (Vec3 2 1 1) p))))))
     ∧ (∃ model0 : mat4,
          SetTransformations (Vec3 2 1 1) 0 0 0 (Vec3 5 0 0) Examples.fresh_scene =
            Ok tt (set_shader (Some ([] ++ [setMat4Value "model" model0]))
                     Examples.fresh_scene)
          ∧ mul_vec model0 (point (Vec3 1 1 1)) = point (Vec3 7 1 1))).
Proof.
  split; [reflexivity|].
  exact (SetTransformations_model_matrix (Vec3 2 1 1) 0 0 0 (Vec3 5 0 0)
           Examples.fresh_scene [] eq_refl).
Defined.

End ModelMatrix.

(** ** The texture registry *)

Section TextureRegistry.
Import Scene.
Local Open Scope Z_scope.

Lemma read_texture_run (i : Z) (w : World) :
  read_texture i w =
  if bool_decide (0 ≤ i) then
    match m_textureIDs w !! Z.to_nat i with
    | Some e => Ok e w
    | None => Fault OutOfBounds w
    end
  else Fault OutOfBounds w.
Proof.
  unfold read_texture. rewrite bind_run. cbn [gets].
  destruct (bool_decide (0 ≤ i)); [|reflexivity].
  destruct (m_textureIDs w !! Z.to_nat i); reflexivity.
Qed.

Lemma read_texture_Ok (i : Z) (e : TEXTURE_INFO) (w : World) :
  0 ≤ i → m_textureIDs w !! Z.to_nat i = Some e → read_texture i w = Ok e w.
Proof.
  intros Hi He. rewrite read_texture_run, He.
  rewrite bool_decide_eq_true_2 by assumption. reflexivity.
Qed.

(** The lookups read the registry and nothing else. *)
Lemma FindTextureSlot_loop_frame (n : nat) (i : Z) (t : string) (w w' : World) :
  m_textureIDs w = m_textureIDs w' →
  value (FindTextureSlot_loop n i t w) = value (FindTextureSlot_loop n i t w').
Proof.
  intros Ha. revert i. induction n as [|n IH]; intros i; [reflexivity|].
  cbn [FindTextureSlot_loop]. rewrite !bind_run, !read_texture_run, <- Ha.
  destruct (bool_decide (0 ≤ i)); [|reflexivity].
  destruct (m_textureIDs w !! Z.to_nat i) as [e|]; [|reflexivity].
  destruct (String.eqb (tag e) t); [reflexivity|apply IH].
Qed.

Lemma FindTextureID_loop_frame (n : nat) (i : Z) (t : string) (w w' : World) :
  m_textureIDs w = m_textureIDs w' →
  value (FindTextureID_loop n i t w) = value (FindTextureID_loop n i t w').
Proof.
  intros Ha. revert i. induction n as [|n IH]; intros i; [reflexivity|].
  cbn [FindTextureID_loop]. rewrite !bind_run, !read_texture_run, <- Ha.
  destruct (bool_decide (0 ≤ i)); [|reflexivity].
  destruct (m_textureIDs w !! Z.to_nat i) as [e|]; [|reflexivity].
  destruct (String.eqb (tag e) t); [reflexivity|apply IH].
Qed.

Lemma FindTextureSlot_frame (t : string) (w w' : World) :
  m_textureIDs w = m_textureIDs w' → m_loadedTextures w = m_loadedTextures w' →
  value (FindTextureSlot t w) = value (FindTextureSlot t w').
Proof.
  intros Ha Hn. unfold FindTextureSlot. rewrite !bind_run. cbn [gets].
  rewrite <- Hn. apply FindTextureSlot_loop_frame, Ha.
Qed.

Lemma FindTextureID_frame (t : string) (w w' : World) :
  m_textureIDs w = m_textureIDs w' → m_loadedTextures w = m_loadedTextures w' →
  value (FindTextureID t w) = value (FindTextureID t w').
Proof.
  intros Ha Hn. unfold FindTextureID. rewrite !bind_run. cbn [gets].
  rewrite <- Hn. apply FindTextureID_loop_frame, Ha.
Qed.

(** The lookups leave the state as it is, also when they stop at a fault. *)
Lemma FindTextureSlot_loop_final (n : nat) (i : Z) (t : string) (w : World) :
  final (FindTextureSlot_loop n i t w) = w.
Proof.
  revert i. induction n as [|n IH]; intros i; [reflexivity|].
  cbn [FindTextureSlot_loop]. rewrite bind_run, read_texture_run.
  destruct (bool_decide (0 ≤ i)); [|reflexivity].
  destruct (m_textureIDs w !! Z.to_nat i) as [e|]; [|reflexivity].
  destruct (String.eqb (tag e) t); [reflexivity|apply IH].
Qed.

(** A scan over entries none of which carries the tag ends with -1. *)
Lemma FindTextureSlot_loop_miss (n : nat) (i : Z) (t : string) (w : World) :
  0 ≤ i →
  (∀ k : nat, (k < n)%nat →
     ∃ e, m_textureIDs w !! (Z.to_nat i + k)%nat = Some e ∧ tag e ≠ t) →
  FindTextureSlot_loop n i t w = Ok (-1) w.
Proof.
  revert i. induction n as [|n IH]; intros i Hi Hmiss; [reflexivity|].
  cbn [FindTextureSlot_loop]. rewrite bind_run.
  destruct (Hmiss 0%nat) as (e & He & Hne); [lia|].
  rewrite Nat.add_0_r in He. rewrite (read_texture_Ok _ _ _ Hi He).
  apply String.eqb_neq in Hne. rewrite Hne.
  apply IH; [lia|]. intros k Hk.
  destruct (Hmiss (S k)) as (e' & He' & Hne'); [lia|].
  exists e'. split; [|assumption].
  rewrite <- He'. f_equal. lia.
Qed.

Lemma FindTextureID_loop_miss (n : nat) (i : Z) (t : string) (w : World) :
  0 ≤ i →
  (∀ k : nat, (k < n)%nat →
     ∃ e, m_textureIDs w !! (Z.to_nat i + k)%nat = Some e ∧ tag e ≠ t) →
  FindTextureID_loop n i t w = Ok (-1) w.
Proof.
  revert i. induction n as [|n IH]; intros i Hi Hmiss; [reflexivity|].
  cbn [FindTextureID_loop]. rewrite bind_run.
  destruct (Hmiss 0%nat) as (e & He & Hne); [lia|].
  rewrite Nat.add_0_r in He. rewrite (read_texture_Ok _ _ _ Hi He).
  apply String.eqb_neq in Hne. rewrite Hne.
  apply IH; [lia|]. intros k Hk.
  destruct (Hmiss (S k)) as (e' & He' & Hne'); [lia|].
  exists e'. split; [|assumption].
  rewrite <- He'. f_equal. lia.
Qed.

(** A scan that meets the tag first at offset [k] answers with that entry. *)
Lemma FindTextureSlot_loop_hit (n k : nat) (i : Z) (t : string) (e : TEXTURE_INFO)
    (w : World) :
  0 ≤ i → (k < n)%nat →
  m_textureIDs w !! (Z.to_nat i + k)%nat = Some e → tag e = t →
  (∀ j : nat, (j < k)%nat →
     ∃ e', m_textureIDs w !! (Z.to_nat i + j)%nat = Some e' ∧ tag e' ≠ t) →
  FindTextureSlot_loop n i t w = Ok (i + Z.of_nat k) w.
Proof.
  revert n i. induction k as [|k IH]; intros n i Hi Hk He Ht Hmiss.
  - destruct n as [|n]; [lia|]. cbn [FindTextureSlot_loop]. rewrite bind_run.
    rewrite Nat.add_0_r in He. rewrite (read_texture_Ok _ _ _ Hi He).
    apply String.eqb_eq in Ht. rewrite Ht. cbn. f_equal. lia.
  - destruct n as [|n]; [lia|]. cbn [FindTextureSlot_loop]. rewrite bind_run.
    destruct (Hmiss 0%nat) as (e0 & He0 & Hne0); [lia|].
    rewrite Nat.add_0_r in He0. rewrite (read_texture_Ok _ _ _ Hi He0).
    apply String.eqb_neq in Hne0. rewrite Hne0.
    rewrite (IH n (i + 1)); [f_equal; lia|lia|lia| |assumption|].
    + rewrite <- He. f_equal. lia.
    + intros j Hj. destruct (Hmiss (S j)) as (e' & He' & Hne'); [lia|].
      exists e'. split; [|assumption]. rewrite <- He'. f_equal. lia.
Qed.

Lemma FindTextureID_loop_hit (n k : nat) (i : Z) (t : string) (e : TEXTURE_INFO)
    (w : World) :
  0 ≤ i → (k < n)%nat →
  m_textureIDs w !! (Z.to_nat i + k)%nat = Some e → tag e = t →
  (∀ j : nat, (j < k)%nat →
     ∃ e', m_textureIDs w !! (Z.to_nat i + j)%nat = Some e' ∧ tag e' ≠ t) →
  FindTextureID_loop n i t w = Ok (int_of_GLuint (ID e)) w.
Proof.
  revert n i. induction k as [|k IH]; intros n i Hi Hk He Ht Hmiss.
  - destruct n as [|n]; [lia|]. cbn [FindTextureID_loop]. rewrite bind_run.
    rewrite Nat.add_0_r in He. rewrite (read_texture_Ok _ _ _ Hi He).
    apply String.eqb_eq in Ht. rewrite Ht. reflexivity.
  - destruct n as [|n]; [lia|]. cbn [FindTextureID_loop]. rewrite bind_run.
    destruct (Hmiss 0%nat) as (e0 & He0 & Hne0); [lia|].
    rewrite Nat.add_0_r in He0. rewrite (read_texture_Ok _ _ _ Hi He0).
    apply String.eqb_neq in Hne0. rewrite Hne0.
    apply (IH n (i + 1)); [lia|lia| |assumption|].
    + rewrite <- He. f_equal. lia.
    + intros j Hj. destruct (Hmiss (S j)) as (e' & He' & Hne'); [lia|].
      exists e'. split; [|assumption]. rewrite <- He'. f_equal. lia.
Qed.


Lemma FindTextureSlot_unregistered (t : string) (w : World) :
  in_range w → unregistered t w → FindTextureSlot t w = Ok (-1) w.
Proof.
  intros [Hlo Hhi] Hun. unfold FindTextureSlot. rewrite bind_run. cbn [gets].
  apply FindTextureSlot_loop_miss; [lia|]. intros k Hk. cbn [Z.to_nat Nat.add].
  destruct (lookup_lt_is_Some_2 (m_textureIDs w) k) as [e He]; [lia|].
  exists e. split; [assumption|]. apply (Hun k). split; assumption.
Qed.

Lemma FindTextureID_unregistered (t : string) (w : World) :
  in_range w → unregistered t w → FindTextureID t w = Ok (-1) w.
Proof.
  intros [Hlo Hhi] Hun. unfold FindTextureID. rewrite bind_run. cbn [gets].
  apply FindTextureID_loop_miss; [lia|]. intros k Hk. cbn [Z.to_nat Nat.add].
  destruct (lookup_lt_is_Some_2 (m_textureIDs w) k) as [e He]; [lia|].
  exists e. split; [assumption|]. apply (Hun k). split; assumption.
Qed.

(** C5. When the decoded image has neither 3 nor 4 channels,
    [CreateGLTexture] returns [false] and registers nothing: the array and
    the counter are as before, and every lookup by tag (the requested tag
    included) answers as it did before the call. *)
Theorem CreateGLTexture_unsupported_channels
    (filename tag_ : string) (img : Image) (w : World) :
  files w filename = Some img →
  colorChannels img ≠ 3 → colorChannels img ≠ 4 →
  ∃ w', CreateGLTexture filename tag_ w = Ok false w'
    ∧ m_textureIDs w' = m_textureIDs w
    ∧ m_loadedTextures w' = m_loadedTextures w
    ∧ (∀ t, value (FindTextureSlot t w') = value (FindTextureSlot t w))
    ∧ (∀ t, value (FindTextureID t w') = value (FindTextureID t w)).
Proof.
  intros Hf H3 H4.
  unfold CreateGLTexture, stbi_load. rewrite bind_run. cbn [gets]. rewrite Hf.
  apply Z.eqb_neq in H3, H4. rewrite H3, H4.
  eexists. split; [reflexivity|].
  split; [reflexivity|]. split; [reflexivity|].
  split; intros t.
  - apply FindTextureSlot_frame; reflexivity.
  - apply FindTextureID_frame; reflexivity.
Qed.

(** C10. With a shader manager present and a tag that no registered texture
    carries, [SetShaderTexture] pushes "bUseTexture" = 1 (true) and then the
    sampler value -1 under "objectTexture": the result of the lookup goes to
    the shader unchecked. *)
Theorem SetShaderTexture_unknown_tag
    (textureTag : string) (w : World) (sm : ShaderManager) :
  m_pShaderManager w = Some sm →
  in_range w →
  unregistered textureTag w →
  SetShaderTexture textureTag w =
  Ok tt (set_shader (Some (sm ++ [setIntValue "bUseTexture" 1;
                                  setSampler2DValue "objectTexture" (-1)])) w).
Proof.
  intros Hs Hr Hun. unfold SetShaderTexture.
  rewrite (when_shader_Some _ _ _ Hs).
  rewrite (bind_Ok _ _ _ _ _ (shader_call_Some _ _ _ Hs)).
  rewrite bind_run, FindTextureSlot_unregistered by assumption.
  rewrite (shader_call_Some _ _ (sm ++ [setIntValue g_UseTextureName (int_of_bool true)]))
    by reflexivity.
  cbn [set_shader m_pShaderManager m_basicMeshes m_textureIDs m_loadedTextures
       m_objectMaterials gl files indeterminate].
  rewrite <- app_assoc. reflexivity.
Qed.


(** *** Binding *)

Lemma BindGLTextures_loop_run (l pre post : list TEXTURE_INFO) (i : Z) (w : World) :
  m_textureIDs w = pre ++ l ++ post → 0 ≤ i → Z.to_nat i = length pre →
  BindGLTextures_loop (length l) i w = Ok tt (set_gl (gl w ++ bind_in_order i l) w).
Proof.
  revert pre i w. induction l as [|e l IH]; intros pre i w Ha Hi Hpre.
  - cbn. rewrite app_nil_r. destruct w; reflexivity.
  - cbn [length BindGLTextures_loop bind_in_order].
    rewrite bind_run. cbn [gl_call modify]. rewrite bind_run.
    rewrite (read_texture_Ok i e).
    + rewrite bind_run. cbn [gl_call modify].
      rewrite (IH (pre ++ [e]) (i + 1)).
      * cbn [set_gl gl m_pShaderManager m_basicMeshes m_textureIDs
             m_loadedTextures m_objectMaterials files indeterminate].
        rewrite <- !app_assoc. reflexivity.
      * cbn [set_gl m_textureIDs]. rewrite Ha, <- app_assoc. reflexivity.
      * lia.
      * rewrite length_app. cbn [length]. lia.
    + assumption.
    + cbn [set_gl m_textureIDs]. rewrite Ha, Hpre.
      rewrite lookup_app_r by lia. rewrite Nat.sub_diag. reflexivity.
Qed.

Lemma run_app (c : GL.Context) (l1 l2 : list GL.Call) :
  GL.run c (l1 ++ l2) = GL.run (GL.run c l1) l2.
Proof. apply foldl_app. Qed.

Lemma run_bind_active (c : GL.Context) (u t : Z) :
  GL.step (GL.step c (GL.glActiveTexture (GL.GL_TEXTURE0 + u)))
          (GL.glBindTexture GL.GL_TEXTURE_2D t) =
  {| GL.active_unit := u; GL.bound_2D := <[u := t]> (GL.bound_2D c) |}.
Proof.
  cbn [GL.step GL.active_unit GL.bound_2D]. rewrite Z.eqb_refl.
  replace (GL.GL_TEXTURE0 + u - GL.GL_TEXTURE0) with u by lia. reflexivity.
Qed.

(** Binding to the units from [u] on leaves the lower units alone. *)
Lemma run_bind_in_order_below (l : list TEXTURE_INFO) (u j : Z) (c : GL.Context) :
  j < u →
  GL.bound_2D (GL.run c (bind_in_order u l)) !! j = GL.bound_2D c !! j.
Proof.
  revert u c. induction l as [|e l IH]; intros u c Hj; [reflexivity|].
  cbn [bind_in_order GL.run foldl]. rewrite run_bind_active.
  change (foldl GL.step ?c0 ?l0) with (GL.run c0 l0).
  rewrite IH by lia. cbn [GL.bound_2D]. apply lookup_insert_ne. lia.
Qed.

Lemma run_bind_in_order_lookup (l : list TEXTURE_INFO) (u : Z) (c : GL.Context)
    (k : nat) (e : TEXTURE_INFO) :
  l !! k = Some e →
  GL.bound_2D (GL.run c (bind_in_order u l)) !! (u + Z.of_nat k) = Some (ID e).
Proof.
  revert u c k. induction l as [|e0 l IH]; intros u c k Hk; [discriminate|].
  cbn [bind_in_order GL.run foldl]. rewrite run_bind_active.
  change (foldl GL.step ?c0 ?l0) with (GL.run c0 l0).
  destruct k as [|k].
  - injection Hk as ->. rewrite run_bind_in_order_below by lia.
    cbn [GL.bound_2D]. rewrite Z.add_0_r. apply lookup_insert_eq.
  - replace (u + Z.of_nat (S k)) with ((u + 1) + Z.of_nat k) by lia.
    apply IH. exact Hk.
Qed.

(** C7. With [n] textures registered, [BindGLTextures] issues, for
    i = 0 .. n-1 in that order, [glActiveTexture(GL_TEXTURE0 + i)] followed
    by [glBindTexture(GL_TEXTURE_2D, ID of the i-th registered texture)],
    and afterwards texture unit [i] holds the i-th registered texture, for
    every i < n. *)
Theorem BindGLTextures_registration_order (w : World) :
  in_range w →
  let n := Z.to_nat (m_loadedTextures w) in
  let calls := bind_in_order 0 (take n (m_textureIDs w)) in
  BindGLTextures w = Ok tt (set_gl (gl w ++ calls) w)
  ∧ ∀ (i : nat) (e : TEXTURE_INFO), registered w i e →
      GL.bound_2D (GL.run GL.initial (gl w ++ calls)) !! Z.of_nat i = Some (ID e).
Proof.
  intros [Hlo Hhi] n calls. split.
  - unfold BindGLTextures. rewrite bind_run. cbn [gets]. fold n.
    assert (Hlen : length (take n (m_textureIDs w)) = n)
      by (rewrite length_take; lia).
    rewrite <- Hlen at 1.
    apply (BindGLTextures_loop_run _ [] (drop n (m_textureIDs w))).
    + cbn [app]. symmetry. apply take_drop.
    + lia.
    + reflexivity.
  - intros i e [Hi He]. rewrite run_app. subst calls.
    apply (run_bind_in_order_lookup _ 0).
    rewrite lookup_take_lt by (fold n in Hi; lia). exact He.
Qed.


(** *** Loading *)

Lemma write_texture_Ok (i : Z) (f : TEXTURE_INFO → TEXTURE_INFO)
    (e : TEXTURE_INFO) (w : World) :
  0 ≤ i → m_textureIDs w !! Z.to_nat i = Some e →
  write_texture i f w =
  Ok tt (set_textureIDs (<[Z.to_nat i := f e]> (m_textureIDs w)) w).
Proof.
  intros Hi He. unfold write_texture.
  rewrite (bind_Ok _ _ _ _ _ (read_texture_Ok _ _ _ Hi He)). reflexivity.
Qed.

Lemma write_texture_out_of_bounds (i : Z) (f : TEXTURE_INFO → TEXTURE_INFO)
    (w : World) :
  Z.of_nat (length (m_textureIDs w)) ≤ i →
  write_texture i f w = Fault OutOfBounds w.
Proof.
  intros Hi. unfold write_texture. rewrite bind_run, read_texture_run.
  rewrite bool_decide_eq_true_2 by lia.
  rewrite lookup_ge_None_2 by lia. reflexivity.
Qed.

(** The state a successful load leaves: the calls it sent to OpenGL, the
    new entry at index [m_loadedTextures], the counter one up. *)
Lemma CreateGLTexture_success (filename tag_ : string) (img : Image) (w : World) :
  files w filename = Some img →
  colorChannels img = 3 ∨ colorChannels img = 4 →
  0 ≤ m_loadedTextures w < Z.of_nat (length (m_textureIDs w)) →
  ∃ calls,
    GL.generated calls = [] ∧
    CreateGLTexture filename tag_ w =
    Ok true
      (set_loadedTextures (m_loadedTextures w + 1)
        (set_textureIDs
           (<[Z.to_nat (m_loadedTextures w) :=
                {| ID := GL.fresh_name (gl w); tag := tag_ |}]> (m_textureIDs w))
           (set_gl (gl w ++ GL.glGenTextures (GL.fresh_name (gl w)) :: calls) w))).
Proof.
  intros Hf Hc [Hlo Hhi].
  destruct (lookup_lt_is_Some_2 (m_textureIDs w) (Z.to_nat (m_loadedTextures w)))
    as [e0 He0]; [lia|].
  unfold CreateGLTexture, stbi_load. rewrite bind_run. cbn [gets]. rewrite Hf.
  assert (Hsupp : ∃ fmt ifmt,
    (if colorChannels img =? 3
     then gl_call (GL.glTexImage2D GL.GL_TEXTURE_2D 0 GL.GL_RGB8
                     (width img) (height img) 0 GL.GL_RGB);; mret true
     else if colorChannels img =? 4
     then gl_call (GL.glTexImage2D GL.GL_TEXTURE_2D 0 GL.GL_RGBA8
                     (width img) (height img) 0 GL.GL_RGBA);; mret true
     else mret false) =
    (gl_call (GL.glTexImage2D GL.GL_TEXTURE_2D 0 ifmt
                (width img) (height img) 0 fmt);; mret true : M bool)).
  { destruct Hc as [-> | ->]; cbn [Z.eqb Pos.eqb]; eauto. }
  destruct Hsupp as (fmt & ifmt & ->).
  eexists. split; cycle 1.
  - cbv [mbind M_bind mret M_ret gets modify gl_call gl_gen_texture].
    cbn [set_gl m_loadedTextures m_textureIDs gl].
    rewrite (write_texture_Ok _ _ e0) by (cbn; assumption).
    cbn [set_textureIDs set_gl m_loadedTextures m_textureIDs gl].
    rewrite (write_texture_Ok _ _ {| ID := GL.fresh_name (gl w); tag := tag e0 |}).
    + cbn [set_textureIDs set_gl m_loadedTextures m_textureIDs gl
           m_pShaderManager m_basicMeshes m_objectMaterials files indeterminate
           ID tag set_loadedTextures].
      rewrite list_insert_insert_eq. rewrite <- !app_assoc. cbn [app]. reflexivity.
    + cbn. assumption.
    + cbn [set_textureIDs m_textureIDs]. apply list_lookup_insert_eq. lia.
  - reflexivity.
Qed.


Lemma generated_app (l1 l2 : list GL.Call) :
  GL.generated (l1 ++ l2) = GL.generated l1 ++ GL.generated l2.
Proof. apply omap_app. Qed.

Lemma generated_glGenTextures (n : Z) (l : list GL.Call) :
  GL.generated (GL.glGenTextures n :: l) = n :: GL.generated l.
Proof. reflexivity. Qed.

Lemma le_foldr_max (l : list Z) (x : Z) : x ∈ l → x ≤ foldr Z.max 0 l.
Proof.
  induction l as [|y l IH]; intros Hx.
  - inversion Hx.
  - cbn [foldr]. apply elem_of_cons in Hx as [-> | Hx]; [lia|].
    specialize (IH Hx). lia.
Qed.

Lemma foldr_max_nonneg (l : list Z) : 0 ≤ foldr Z.max 0 l.
Proof. induction l as [|y l IH]; cbn [foldr]; lia. Qed.

(** The name [glGenTextures] hands out is positive and above every name
    generated before. *)
Lemma fresh_name_above (log : list GL.Call) (x : Z) :
  x ∈ GL.generated log → x < GL.fresh_name log.
Proof. intros Hx. unfold GL.fresh_name. apply le_foldr_max in Hx. lia. Qed.

Lemma fresh_name_positive (log : list GL.Call) : 1 ≤ GL.fresh_name log.
Proof. unfold GL.fresh_name. pose proof (foldr_max_nonneg (GL.generated log)). lia. Qed.

Lemma int_of_GLuint_small (x : Z) : 0 ≤ x < 2 ^ 31 → int_of_GLuint x = x.
Proof.
  intros Hx. unfold int_of_GLuint. rewrite Z.mod_small by lia.
  destruct (x <? 2 ^ 31) eqn:E; [reflexivity|]. apply Z.ltb_ge in E. lia.
Qed.

(** What a slot lookup can answer: -1, or an index the scan visited. *)
Lemma FindTextureSlot_loop_range (n : nat) (i : Z) (t : string) (w w' : World) (v : Z) :
  FindTextureSlot_loop n i t w = Ok v w' → v = -1 ∨ i ≤ v < i + Z.of_nat n.
Proof.
  revert i. induction n as [|n IH]; intros i H.
  - left. change (Ok (-1) w = Ok v w') in H. congruence.
  - cbn [FindTextureSlot_loop] in H. rewrite bind_run, read_texture_run in H.
    destruct (bool_decide (0 ≤ i)); [|discriminate].
    destruct (m_textureIDs w !! Z.to_nat i) as [e|]; [|discriminate].
    destruct (String.eqb (tag e) t).
    + right. change (Ok i w = Ok v w') in H. injection H as <- _. lia.
    + apply IH in H. lia.
Qed.

(** What a handle lookup can answer: -1, or the handle of a visited entry. *)
Lemma FindTextureID_loop_result (n : nat) (i : Z) (t : string) (w w' : World) (v : Z) :
  0 ≤ i →
  FindTextureID_loop n i t w = Ok v w' →
  v = -1 ∨ ∃ (k : nat) (e : TEXTURE_INFO),
             (k < n)%nat ∧ m_textureIDs w !! (Z.to_nat i + k)%nat = Some e
             ∧ v = int_of_GLuint (ID e).
Proof.
  revert i. induction n as [|n IH]; intros i Hi H.
  - left. change (Ok (-1) w = Ok v w') in H. congruence.
  - cbn [FindTextureID_loop] in H. rewrite bind_run, read_texture_run in H.
    destruct (bool_decide (0 ≤ i)); [|discriminate].
    destruct (m_textureIDs w !! Z.to_nat i) as [e|] eqn:He; [|discriminate].
    destruct (String.eqb (tag e) t).
    + right. exists 0%nat, e. change (Ok (int_of_GLuint (ID e)) w = Ok v w') in H.
      injection H as <- _.
      rewrite Nat.add_0_r. split; [lia|]. split; [assumption|reflexivity].
    + apply IH in H; [|lia]. destruct H as [H | (k & e' & Hk & He' & Hv)]; [left; assumption|].
      right. exists (S k), e'. split; [lia|]. split; [|assumption].
      rewrite <- He'. f_equal. lia.
Qed.

(** The constructor establishes the registry invariant ... *)
Lemma SceneManager_registry_ok (p : option ShaderManager) (fs : string → option Image) :
  registry_ok (SceneManager p fs).
Proof.
  split.
  - unfold in_range. cbn. lia.
  - intros i e [Hi _]. cbn in Hi. lia.
  - intros x Hx. cbn in Hx. inversion Hx.
Qed.

Lemma CreateGLTexture_missing_file (filename tag_ : string) (w : World) :
  files w filename = None → CreateGLTexture filename tag_ w = Ok false w.
Proof.
  intros Hf. unfold CreateGLTexture, stbi_load. rewrite bind_run. cbn [gets].
  rewrite Hf. reflexivity.
Qed.

Lemma CreateGLTexture_unsupported_run (filename tag_ : string) (img : Image) (w : World) :
  files w filename = Some img →
  colorChannels img ≠ 3 → colorChannels img ≠ 4 →
  ∃ calls,
    GL.generated calls = [] ∧
    CreateGLTexture filename tag_ w =
    Ok false (set_gl (gl w ++ GL.glGenTextures (GL.fresh_name (gl w)) :: calls) w).
Proof.
  intros Hf H3 H4.
  unfold CreateGLTexture, stbi_load. rewrite bind_run. cbn [gets]. rewrite Hf.
  apply Z.eqb_neq in H3, H4. rewrite H3, H4.
  eexists. split; cycle 1.
  - cbv [mbind M_bind mret M_ret gets modify gl_call gl_gen_texture].
    cbn [set_gl m_pShaderManager m_basicMeshes m_loadedTextures m_textureIDs
         m_objectMaterials gl files indeterminate].
    rewrite <- !app_assoc. cbn [app]. reflexivity.
  - reflexivity.
Qed.

(** A load into a full array runs past its end. *)
Lemma CreateGLTexture_full (filename tag_ : string) (img : Image) (w : World) :
  files w filename = Some img →
  colorChannels img = 3 ∨ colorChannels img = 4 →
  Z.of_nat (length (m_textureIDs w)) ≤ m_loadedTextures w →
  ∃ w', CreateGLTexture filename tag_ w = Fault OutOfBounds w'.
Proof.
  intros Hf Hc Hfull.
  unfold CreateGLTexture, stbi_load. rewrite bind_run. cbn [gets]. rewrite Hf.
  destruct Hc as [E | E]; rewrite E; cbn [Z.eqb Pos.eqb];
    cbv [mbind M_bind mret M_ret gets modify gl_call gl_gen_texture];
    cbn [set_gl m_loadedTextures m_textureIDs gl];
    rewrite write_texture_out_of_bounds by (cbn; lia); eexists; reflexivity.
Qed.

(** ... and every load that returns keeps it. *)
Lemma CreateGLTexture_registry_ok (filename tag_ : string) (b : bool) (w w' : World) :
  registry_ok w → CreateGLTexture filename tag_ w = Ok b w' → registry_ok w'.
Proof.
  intros [[Hlo Hhi] Hids Hpos] H.
  destruct (files w filename) as [img|] eqn:Hf; cycle 1.
  { rewrite (CreateGLTexture_missing_file _ _ _ Hf) in H. injection H as _ <-.
    split; [split|..]; assumption. }
  destruct (decide (colorChannels img = 3 ∨ colorChannels img = 4)) as [Hc|Hc].
  - destruct (decide (m_loadedTextures w < Z.of_nat (length (m_textureIDs w)))) as [Hroom|Hfull].
    + destruct (CreateGLTexture_success filename tag_ img w Hf Hc) as (calls & Hgen & Hrun);
        [lia|].
      rewrite Hrun in H. injection H as _ <-. split.
      * unfold in_range. cbn [set_loadedTextures set_textureIDs set_gl m_loadedTextures m_textureIDs].
        rewrite length_insert. lia.
      * intros i e [Hi He].
        cbn [set_loadedTextures set_textureIDs set_gl m_loadedTextures m_textureIDs gl] in *.
        rewrite generated_app, generated_glGenTextures, Hgen. apply elem_of_app.
        destruct (decide (i = Z.to_nat (m_loadedTextures w))) as [->|Hne].
        -- rewrite list_lookup_insert_eq in He by lia. injection He as <-.
           right. cbn [ID]. apply list_elem_of_singleton. reflexivity.
        -- rewrite list_lookup_insert_ne in He by congruence.
           left. apply (Hids i). split; [lia|assumption].
      * intros x Hx. cbn [set_loadedTextures set_textureIDs set_gl gl] in Hx.
        rewrite generated_app, generated_glGenTextures, Hgen in Hx.
        apply elem_of_app in Hx as [Hx | Hx]; [apply Hpos, Hx|].
        apply list_elem_of_singleton in Hx as ->. apply fresh_name_positive.
    + destruct (CreateGLTexture_full filename tag_ img w Hf Hc) as (w2 & Hrun); [lia|].
      rewrite Hrun in H. discriminate.
  - assert (H3 : colorChannels img ≠ 3) by tauto.
    assert (H4 : colorChannels img ≠ 4) by tauto.
    destruct (CreateGLTexture_unsupported_run filename tag_ img w Hf H3 H4)
      as (calls & Hgen & Hrun).
    rewrite Hrun in H. injection H as _ <-. split.
    + exact (conj Hlo Hhi).
    + intros i e Hr. cbn [set_gl gl].
      rewrite generated_app. apply elem_of_app. left. apply (Hids i e Hr).
    + intros x Hx. cbn [set_gl gl] in Hx.
      rewrite generated_app, generated_glGenTextures, Hgen in Hx.
      apply elem_of_app in Hx as [Hx | Hx]; [apply Hpos, Hx|].
      apply list_elem_of_singleton in Hx as ->. apply fresh_name_positive.
Qed.


(** C6, as amended.  For a 3- or 4-channel image, a registry in its
    invariant with room left, a tag that no registered texture carries yet
    and a generated name that fits an [int]: [CreateGLTexture] returns
    [true], and [FindTextureSlot] / [FindTextureID] with that tag then
    return the slot and the handle this load assigned.  The slot is inside
    the array, and neither the slot nor the handle was an answer of any
    lookup, or the handle of any registration, before the load. *)
Theorem CreateGLTexture_then_find
    (filename tag_ : string) (img : Image) (w : World) :
  files w filename = Some img →
  colorChannels img = 3 ∨ colorChannels img = 4 →
  registry_ok w →
  m_loadedTextures w < Z.of_nat (length (m_textureIDs w)) →
  unregistered tag_ w →
  GL.fresh_name (gl w) < 2 ^ 31 →
  load_then_find filename tag_ w
  ∧ 0 ≤ m_loadedTextures w < Z.of_nat (length (m_textureIDs w))
  ∧ (∀ t, value (FindTextureSlot t w) ≠ Some (m_loadedTextures w))
  ∧ (∀ t, value (FindTextureID t w) ≠ Some (GL.fresh_name (gl w)))
  ∧ (∀ i e, registered w i e → ID e ≠ GL.fresh_name (gl w)).
Proof.
  intros Hf Hc [[Hlo Hhi] Hids Hpos] Hroom Hun Hint.
  set (n := m_loadedTextures w) in *.
  set (h := GL.fresh_name (gl w)) in *.
  assert (Hold : ∀ i e, registered w i e → 1 ≤ ID e < h).
  { intros i e Hr. pose proof (Hids i e Hr) as Hg. split.
    - apply Hpos, Hg.
    - apply fresh_name_above, Hg. }
  split; [|split; [lia|split; [|split]]].
  - destruct (CreateGLTexture_success filename tag_ img w Hf Hc) as (calls & _ & Hrun);
      [fold n; lia|].
    fold n h in Hrun. eexists. split; [exact Hrun|].
    assert (Hnew : (<[Z.to_nat n := {| ID := h; tag := tag_ |}]> (m_textureIDs w))
                     !! (Z.to_nat 0 + Z.to_nat n)%nat = Some {| ID := h; tag := tag_ |}).
    { cbn [Z.to_nat Nat.add]. apply list_lookup_insert_eq. lia. }
    assert (Hbefore : ∀ j : nat, (j < Z.to_nat n)%nat →
      ∃ e', (<[Z.to_nat n := {| ID := h; tag := tag_ |}]> (m_textureIDs w))
              !! (Z.to_nat 0 + j)%nat = Some e' ∧ tag e' ≠ tag_).
    { intros j Hj. cbn [Z.to_nat Nat.add].
      rewrite list_lookup_insert_ne by lia.
      destruct (lookup_lt_is_Some_2 (m_textureIDs w) j) as [e' He']; [lia|].
      exists e'. split; [assumption|]. apply (Hun j). split; [fold n; lia|assumption]. }
    split.
    + unfold FindTextureSlot. rewrite bind_run. cbn [gets set_loadedTextures m_loadedTextures].
      rewrite (FindTextureSlot_loop_hit _ (Z.to_nat n) 0 tag_ {| ID := h; tag := tag_ |});
        [cbn [value]; f_equal; lia|lia|lia|exact Hnew|reflexivity|exact Hbefore].
    + unfold FindTextureID. rewrite bind_run. cbn [gets set_loadedTextures m_loadedTextures].
      rewrite (FindTextureID_loop_hit _ (Z.to_nat n) 0 tag_ {| ID := h; tag := tag_ |});
        [|lia|lia|exact Hnew|reflexivity|exact Hbefore].
      cbn [value ID]. f_equal. apply int_of_GLuint_small.
      pose proof (fresh_name_positive (gl w)). fold h in H. lia.
  - intros t Hv. unfold FindTextureSlot in Hv. rewrite bind_run in Hv. cbn [gets] in Hv.
    fold n in Hv.
    destruct (FindTextureSlot_loop (Z.to_nat n) 0 t w) as [v w2|] eqn:E; [|discriminate].
    apply FindTextureSlot_loop_range in E. cbn [value] in Hv. injection Hv as ->. lia.
  - intros t Hv. unfold FindTextureID in Hv. rewrite bind_run in Hv. cbn [gets] in Hv.
    fold n in Hv.
    destruct (FindTextureID_loop (Z.to_nat n) 0 t w) as [v w2|] eqn:E; [|discriminate].
    apply FindTextureID_loop_result in E; [|lia]. cbn [value] in Hv. injection Hv as ->.
    pose proof (fresh_name_positive (gl w)) as Hp. fold h in Hp.
    destruct E as [E | (k & e & Hk & He & E)]; [lia|].
    cbn [Z.to_nat Nat.add] in He.
    assert (Hr : registered w k e) by (split; [fold n; lia|assumption]).
    apply Hold in Hr. rewrite int_of_GLuint_small in E by lia. lia.
  - intros i e Hr. apply Hold in Hr. lia.
Qed.


(** *** Concrete runs *)

Lemma one_texture_registered :
  m_loadedTextures Examples.one_texture = 1
  ∧ m_textureIDs Examples.one_texture !! 0%nat = Some {| ID := 1; tag := "a" |}.
Proof. split; reflexivity. Qed.

Lemma three_textures_unregistered_plate :
  unregistered "plate" Examples.three_textures.
Proof.
  intros i e [Hi He]. vm_compute in Hi.
  destruct i as [|[|[|i]]]; [| | |lia];
    vm_compute in He; injection He as <-; discriminate.
Qed.

Lemma CreateGLTexture_unsupported_channels_witness :
  files Examples.grey_scene "textures/a.jpg" = Some Examples.grey_image
  ∧ colorChannels Examples.grey_image ≠ 3
  ∧ colorChannels Examples.grey_image ≠ 4
  ∧ ∃ w', CreateGLTexture "textures/a.jpg" "a" Examples.grey_scene = Ok false w'
      ∧ m_textureIDs w' = m_textureIDs Examples.grey_scene
      ∧ m_loadedTextures w' = m_loadedTextures Examples.grey_scene
      ∧ (∀ t, value (FindTextureSlot t w') = value (FindTextureSlot t Examples.grey_scene))
      ∧ (∀ t, value (FindTextureID t w') = value (FindTextureID t Examples.grey_scene)).
Proof.
  split; [reflexivity|]. split; [discriminate|]. split; [discriminate|].
  apply (CreateGLTexture_unsupported_channels "textures/a.jpg" "a"
           Examples.grey_image Examples.grey_scene);
    [reflexivity|discriminate|discriminate].
Defined.

Lemma SetShaderTexture_unknown_tag_witness :
  m_pShaderManager Examples.three_textures = Some []
  ∧ in_range Examples.three_textures
  ∧ unregistered "plate" Examples.three_textures
  ∧ SetShaderTexture "plate" Examples.three_textures =
    Ok tt (set_shader (Some ([] ++ [setIntValue "bUseTexture" 1;
                                    setSampler2DValue "objectTexture" (-1)]))
             Examples.three_textures).
Proof.
  assert (Hr : in_range Examples.three_textures) by (split; discriminate).
  split; [reflexivity|]. split; [exact Hr|].
  split; [exact three_textures_unregistered_plate|].
  apply (SetShaderTexture_unknown_tag "plate" Examples.three_textures []);
    [reflexivity|exact Hr|exact three_textures_unregistered_plate].
Defined.

Lemma BindGLTextures_registration_order_witness :
  in_range Examples.three_textures
  ∧ (BindGLTextures Examples.three_textures =
       Ok tt (set_gl (gl Examples.three_textures ++
                        bind_in_order 0 (take 3 (m_textureIDs Examples.three_textures)))
                Examples.three_textures)
     ∧ ∀ (i : nat) (e : TEXTURE_INFO), registered Examples.three_textures i e →
         GL.bound_2D (GL.run GL.initial
            (gl Examples.three_textures ++
               bind_in_order 0 (take 3 (m_textureIDs Examples.three_textures))))
           !! Z.of_nat i = Some (ID e)).
Proof.
  assert (Hr : in_range Examples.three_textures) by (split; discriminate).
  split; [exact Hr|].
  exact (BindGLTextures_registration_order Examples.three_textures Hr).
Defined.

Lemma fresh_scene_unregistered (t : string) : unregistered t Examples.fresh_scene.
Proof. intros i e [Hi _]. cbn in Hi. lia. Qed.

Lemma CreateGLTexture_then_find_witness :
  files Examples.fresh_scene "textures/a.jpg" = Some Examples.rgb_image
  ∧ (colorChannels Examples.rgb_image = 3 ∨ colorChannels Examples.rgb_image = 4)
  ∧ registry_ok Examples.fresh_scene
  ∧ m_loadedTextures Examples.fresh_scene
      < Z.of_nat (length (m_textureIDs Examples.fresh_scene))
  ∧ unregistered "a" Examples.fresh_scene
  ∧ GL.fresh_name (gl Examples.fresh_scene) < 2 ^ 31
  ∧ load_then_find "textures/a.jpg" "a" Examples.fresh_scene.
Proof.
  split; [reflexivity|]. split; [left; reflexivity|].
  split; [apply SceneManager_registry_ok|].
  split; [reflexivity|]. split; [apply fresh_scene_unregistered|].
  split; [reflexivity|].
  apply (CreateGLTexture_then_find "textures/a.jpg" "a" Examples.rgb_image
           Examples.fresh_scene);
    [reflexivity|left; reflexivity|apply SceneManager_registry_ok|reflexivity
    |apply fresh_scene_unregistered|reflexivity].
Defined.

(** C6, as stated, fails when the tag is already registered: after "a" has
    been loaded once (slot 0, handle 1), a second valid image loaded under
    "a" is registered at slot 1 with handle 2, yet both lookups of "a" still
    answer with the first registration. *)
Lemma load_then_find_duplicate_tag :
  files Examples.one_texture "textures/b.jpg" = Some Examples.rgb_image
  ∧ colorChannels Examples.rgb_image = 3
  ∧ (∃ w', CreateGLTexture "textures/b.jpg" "a" Examples.one_texture = Ok true w'
       ∧ m_textureIDs w' !! 1%nat = Some {| ID := 2; tag := "a" |}
       ∧ value (FindTextureSlot "a" w') = Some 0
       ∧ value (FindTextureID "a" w') = Some 1)
  ∧ ¬ load_then_find "textures/b.jpg" "a" Examples.one_texture.
Proof.
  split; [reflexivity|]. split; [reflexivity|]. split.
  - eexists. split; [vm_compute; reflexivity|]. repeat split; reflexivity.
  - intros (w' & Hrun & Hslot & _).
    vm_compute in Hrun. injection Hrun as <-.
    vm_compute in Hslot. discriminate.
Qed.

End TextureRegistry.


(** ** The material registry *)

Section MaterialRegistry.

Import Glm Scene.
Local Open Scope Z_scope.

(** The scan finds nothing, and leaves the output alone, when no entry
    carries the tag. *)
Lemma FindMaterial_loop_miss (mats : list OBJECT_MATERIAL) (t : string)
    (material : OBJECT_MATERIAL) :
  (∀ e, e ∈ mats → mtag e ≠ t) →
  FindMaterial_loop mats t material = (false, material).
Proof.
  induction mats as [|e mats IH]; intros Hmiss; [reflexivity|].
  cbn [FindMaterial_loop].
  assert (Hne : mtag e ≠ t) by (apply Hmiss; left).
  apply String.eqb_neq in Hne. rewrite Hne.
  apply IH. intros e' He'. apply Hmiss. right. exact He'.
Qed.

Lemma FindMaterial_empty (t : string) (material : OBJECT_MATERIAL) (w : World) :
  m_objectMaterials w = [] → FindMaterial t material w = Ok (false, material) w.
Proof.
  intros He. unfold FindMaterial. rewrite bind_run. cbn [gets]. rewrite He.
  reflexivity.
Qed.

(** On a registry that is not empty, a tag that matches nothing still
    yields [true], with the output material as the caller passed it in. *)
Lemma FindMaterial_no_match (t : string) (material : OBJECT_MATERIAL) (w : World) :
  m_objectMaterials w ≠ [] →
  (∀ e, e ∈ m_objectMaterials w → mtag e ≠ t) →
  FindMaterial t material w = Ok (true, material) w.
Proof.
  intros Hne Hmiss. unfold FindMaterial. rewrite bind_run. cbn [gets].
  destruct (m_objectMaterials w) as [|e mats] eqn:E; [congruence|].
  cbn [length Nat.eqb]. rewrite FindMaterial_loop_miss by assumption.
  reflexivity.
Qed.

(** C1 (the code departs from it).  With the six scene materials defined,
    ["wood"] matches none of them: the scan ends with [bFound = false], yet
    [FindMaterial] returns [true] and hands back the output material
    exactly as it came in.  Only the empty registry yields [false]. *)
Theorem FindMaterial_no_match_returns_true (material : OBJECT_MATERIAL) :
  FindMaterial_loop (m_objectMaterials Examples.scene_materials) "wood" material
    = (false, material)
  ∧ FindMaterial "wood" material Examples.scene_materials
    = Ok (true, material) Examples.scene_materials
  ∧ FindMaterial "wood" material Examples.fresh_scene
    = Ok (false, material) Examples.fresh_scene.
Proof. repeat split. Qed.

End MaterialRegistry.


(** ** The scene with and without a shader manager *)

Section NullShader.

Import Glm Scene.
Local Open Scope Z_scope.

(** The four guarded setters do nothing on a null shader manager. *)
Lemma SetTransformations_null (s : vec3) (rx ry rz : R) (t : vec3) (w : World) :
  m_pShaderManager w = None → SetTransformations s rx ry rz t w = Ok tt w.
Proof. intros H. unfold SetTransformations. cbv zeta. apply when_shader_null, H. Qed.

Lemma SetShaderColor_null (r g b a : R) (w : World) :
  m_pShaderManager w = None → SetShaderColor r g b a w = Ok tt w.
Proof. intros H. unfold SetShaderColor. cbv zeta. apply when_shader_null, H. Qed.

Lemma SetShaderTexture_null (t : string) (w : World) :
  m_pShaderManager w = None → SetShaderTexture t w = Ok tt w.
Proof. intros H. unfold SetShaderTexture. apply when_shader_null, H. Qed.

Lemma SetTextureUVScale_null (u v : R) (w : World) :
  m_pShaderManager w = None → SetTextureUVScale u v w = Ok tt w.
Proof. intros H. unfold SetTextureUVScale. apply when_shader_null, H. Qed.

Lemma mesh_call_run (c : MeshCall) (w : World) :
  mesh_call c w = Ok tt (set_meshes (m_basicMeshes w ++ [c]) w).
Proof. reflexivity. Qed.

(** [SetShaderMaterial] is silent while no material is defined ... *)
Lemma SetShaderMaterial_empty (t : string) (w : World) :
  m_objectMaterials w = [] → SetShaderMaterial t w = Ok tt w.
Proof.
  intros He. unfold SetShaderMaterial. rewrite bind_run. cbn [gets]. rewrite He.
  reflexivity.
Qed.

(** ... and calls through the null pointer as soon as one is. *)
Lemma SetShaderMaterial_null (t : string) (w : World) :
  m_pShaderManager w = None → m_objectMaterials w ≠ [] →
  SetShaderMaterial t w = Fault NullPointer w.
Proof.
  intros Hs Hne. unfold SetShaderMaterial. rewrite bind_run. cbn [gets].
  destruct (m_objectMaterials w) as [|e mats] eqn:E; [congruence|].
  cbn [length Nat.ltb Nat.leb]. rewrite bind_run. cbn [gets]. rewrite bind_run.
  unfold FindMaterial at 1. rewrite bind_run. cbn [gets]. rewrite E.
  cbn [length Nat.eqb].
  destruct (FindMaterial_loop (e :: mats) t (indeterminate w)) as [bFound material'].
  cbn [mret M_ret]. rewrite bind_run, (shader_call_null _ _ Hs). reflexivity.
Qed.

Lemma SetupSceneLights_null (w : World) :
  m_pShaderManager w = None → SetupSceneLights w = Fault NullPointer w.
Proof.
  intros Hs. unfold SetupSceneLights. cbv zeta.
  rewrite bind_run, (shader_call_null _ _ Hs). reflexivity.
Qed.

(** C2 (the code departs from it).  On a scene manager built with a null
    shader manager, [PrepareScene] defines the six materials and then
    stops at the first call of [SetupSceneLights], a call through the null
    pointer; no mesh is loaded.  With those materials defined, [RenderScene]
    gets through the first three draw directives and stops at the first
    [SetShaderMaterial], again a call through the null pointer. *)
Theorem null_shader_scene_faults :
  PrepareScene Examples.headless_scene
    = Fault NullPointer Examples.headless_materials
  ∧ RenderScene Examples.headless_materials
    = Fault NullPointer
        (set_meshes [DrawPlaneMesh; DrawCylinderMesh; DrawCylinderMesh]
           Examples.headless_materials).
Proof.
  split.
  - unfold PrepareScene.
    rewrite (bind_Ok _ _ _ Examples.headless_materials tt) by reflexivity.
    rewrite bind_run, SetupSceneLights_null by reflexivity. reflexivity.
  - unfold RenderScene. cbv zeta.
    repeat first
      [ rewrite bind_run, SetTransformations_null by reflexivity
      | rewrite bind_run, SetShaderTexture_null by reflexivity
      | rewrite bind_run, SetTextureUVScale_null by reflexivity
      | rewrite bind_run, SetShaderColor_null by reflexivity
      | rewrite bind_run, mesh_call_run;
        cbn [set_meshes m_pShaderManager m_basicMeshes m_textureIDs m_loadedTextures
             m_objectMaterials gl files indeterminate] ].
    rewrite bind_run, SetShaderMaterial_null; [reflexivity|reflexivity|discriminate].
Qed.

(** Rendering before any material is defined is the one headless run that
    completes: sixteen draws, no push. *)
Lemma RenderScene_headless_without_materials :
  ∃ w', RenderScene Examples.headless_scene = Ok tt w'
    ∧ m_pShaderManager w' = None ∧ length (m_basicMeshes w') = 16%nat.
Proof.
  eexists. split; [|split].
  - unfold RenderScene. cbv zeta.
    repeat first
      [ rewrite bind_run, SetTransformations_null by reflexivity
      | rewrite bind_run, SetShaderTexture_null by reflexivity
      | rewrite bind_run, SetTextureUVScale_null by reflexivity
      | rewrite bind_run, SetShaderColor_null by reflexivity
      | rewrite bind_run, SetShaderMaterial_empty by reflexivity
      | rewrite bind_run, mesh_call_run;
        cbn [set_meshes m_pShaderManager m_basicMeshes m_textureIDs m_loadedTextures
             m_objectMaterials gl files indeterminate] ].
    rewrite mesh_call_run. reflexivity.
  - reflexivity.
  - reflexivity.
Qed.

End NullShader.


(** ** Mesh loading in [PrepareScene] *)

Section MeshLoads.

Import Glm Scene.
Local Open Scope Z_scope.

Lemma keeps_meshes_bind {A B} (m : M A) (f : A → M B) :
  keeps_meshes m → (∀ a, keeps_meshes (f a)) → keeps_meshes (m ≫= f).
Proof.
  intros Hm Hf w. rewrite bind_run. specialize (Hm w).
  destruct (m w) as [a w1 | e w1]; cbn [final] in *.
  - rewrite Hf. exact Hm.
  - exact Hm.
Qed.

Lemma keeps_meshes_ret {A} (a : A) : keeps_meshes (mret a : M A).
Proof. intros w. reflexivity. Qed.

Lemma keeps_meshes_gets {A} (f : World → A) : keeps_meshes (gets f).
Proof. intros w. reflexivity. Qed.

Lemma keeps_meshes_raise {A} (e : fault) : keeps_meshes (raise e : M A).
Proof. intros w. reflexivity. Qed.

Lemma keeps_meshes_gl_call (c : GL.Call) : keeps_meshes (gl_call c).
Proof. intros w. reflexivity. Qed.

Lemma keeps_meshes_read_texture (i : Z) : keeps_meshes (read_texture i).
Proof.
  intros w. rewrite read_texture_run.
  destruct (bool_decide (0 ≤ i)); [|reflexivity].
  destruct (m_textureIDs w !! Z.to_nat i); reflexivity.
Qed.

Lemma keeps_meshes_write_texture (i : Z) (f : TEXTURE_INFO → TEXTURE_INFO) :
  keeps_meshes (write_texture i f).
Proof.
  unfold write_texture. apply keeps_meshes_bind.
  - apply keeps_meshes_read_texture.
  - intros e w. reflexivity.
Qed.

Lemma keeps_meshes_CreateGLTexture (filename tag_ : string) :
  keeps_meshes (CreateGLTexture filename tag_).
Proof.
  unfold CreateGLTexture, stbi_load, gl_gen_texture.
  repeat first
    [ apply keeps_meshes_gets | apply keeps_meshes_gl_call
    | apply keeps_meshes_write_texture | apply keeps_meshes_ret
    | apply keeps_meshes_bind; [|intros ?]
    | match goal with
      | |- keeps_meshes (match ?x with _ => _ end) => destruct x
      end
    | (intros w; reflexivity) ].
Qed.

Lemma keeps_meshes_BindGLTextures : keeps_meshes BindGLTextures.
Proof.
  unfold BindGLTextures. apply keeps_meshes_bind; [apply keeps_meshes_gets|].
  intros n. generalize 0. induction (Z.to_nat n) as [|k IH]; intros i.
  - apply keeps_meshes_ret.
  - cbn [BindGLTextures_loop].
    apply keeps_meshes_bind; [apply keeps_meshes_gl_call|intros _].
    apply keeps_meshes_bind; [apply keeps_meshes_read_texture|intros e].
    apply keeps_meshes_bind; [apply keeps_meshes_gl_call|intros _].
    apply IH.
Qed.

Lemma keeps_meshes_LoadSceneTextures : keeps_meshes LoadSceneTextures.
Proof.
  unfold LoadSceneTextures.
  repeat (apply keeps_meshes_bind; [apply keeps_meshes_CreateGLTexture|intros _]).
  apply keeps_meshes_BindGLTextures.
Qed.

(** With a shader manager present the sixteen light pushes go through. *)
Lemma SetupSceneLights_Some (w : World) (sm : ShaderManager) :
  m_pShaderManager w = Some sm →
  ∃ pushes, SetupSceneLights w = Ok tt (set_shader (Some (sm ++ pushes)) w)
            ∧ length pushes = 16%nat.
Proof.
  intros Hs. unfold SetupSceneLights. cbv zeta. eexists. split.
  - rewrite (bind_Ok _ _ _ _ _ (shader_call_Some _ _ _ Hs)).
    repeat (erewrite bind_Ok by (apply shader_call_Some; reflexivity);
            cbn [set_shader m_pShaderManager m_basicMeshes m_textureIDs
                 m_loadedTextures m_objectMaterials gl files indeterminate]).
    erewrite shader_call_Some by reflexivity.
    cbn [set_shader m_pShaderManager m_basicMeshes m_textureIDs
         m_loadedTextures m_objectMaterials gl files indeterminate].
    rewrite <- !app_assoc. cbn [app]. reflexivity.
  - reflexivity.
Qed.

(** C3 (the code departs from it).  Whatever the shader manager and the
    files, one call of [PrepareScene] on a new scene manager issues these
    eight mesh-load requests, in this order: the plane is requested twice
    (first and seventh), every other primitive once. *)
Theorem PrepareScene_loads_plane_twice
    (sm : ShaderManager) (fs : string → option Image) :
  let w' := final (PrepareScene (SceneManager (Some sm) fs)) in
  m_basicMeshes w' =
    [LoadPlaneMesh; LoadCylinderMesh; LoadSphereMesh; LoadConeMesh; LoadBoxMesh;
     LoadTaperedCylinderMesh; LoadPlaneMesh; LoadTorusMesh]
  ∧ count_occ MeshCall_eq_dec (m_basicMeshes w') LoadPlaneMesh = 2%nat.
Proof.
  assert (H : m_basicMeshes (final (PrepareScene (SceneManager (Some sm) fs))) =
    [LoadPlaneMesh; LoadCylinderMesh; LoadSphereMesh; LoadConeMesh; LoadBoxMesh;
     LoadTaperedCylinderMesh; LoadPlaneMesh; LoadTorusMesh]).
  { unfold PrepareScene.
    rewrite (bind_Ok _ _ _ _ tt (eq_refl : DefineObjectMaterials _ = Ok tt _)).
    match goal with |- context [(_ ≫= _) ?w1] =>
      destruct (SetupSceneLights_Some w1 sm eq_refl) as (pushes & Hl & _)
    end.
    rewrite (bind_Ok _ _ _ _ _ Hl).
    rewrite (bind_Ok _ _ _ _ tt (eq_refl : load_meshes _ = Ok tt _)).
    rewrite keeps_meshes_LoadSceneTextures. reflexivity. }
  cbv zeta. rewrite H. split; reflexivity.
Qed.

End MeshLoads.


(** ** The camera callbacks *)

Section Camera.

Import Glm View.
Local Open Scope R_scope.

Lemma scrolls_cons (e : R * R) (es : list (R * R)) (g : Globals) :
  scrolls (e :: es) g = scrolls es (Mouse_Scroll_Callback e.1 e.2 g).
Proof. reflexivity. Qed.

(** One scroll event, by the sign of its vertical offset. *)
Lemma scroll_up (x y : R) (g : Globals) :
  0 < y → speed (Mouse_Scroll_Callback x y g) = speed g + 2.
Proof.
  intros Hy. unfold Mouse_Scroll_Callback, speed.
  destruct (Rlt_dec 0 y); [|contradiction]. cbn. lra.
Qed.

Lemma scroll_down (x y : R) (g : Globals) :
  y < 0 →
  speed (Mouse_Scroll_Callback x y g) = (if Rlt_dec (speed g - 2) 1 then 1 else speed g - 2).
Proof.
  intros Hy. unfold Mouse_Scroll_Callback, speed.
  destruct (Rlt_dec 0 y); [lra|]. destruct (Rlt_dec y 0); [|contradiction].
  cbn [set_MovementSpeed MovementSpeed].
  replace (MovementSpeed (g_pCamera g) - 2.0) with (MovementSpeed (g_pCamera g) - 2) by lra.
  replace 1.0 with 1 by lra.
  destruct (Rlt_dec (MovementSpeed (g_pCamera g) - 2) 1); cbn; lra.
Qed.

Lemma scroll_none (x y : R) (g : Globals) :
  y = 0 → Mouse_Scroll_Callback x y g = g.
Proof.
  intros ->. unfold Mouse_Scroll_Callback.
  destruct (Rlt_dec 0 0); [lra|]. reflexivity.
Qed.

Lemma scroll_keeps_floor (x y : R) (g : Globals) :
  1 <= speed g → 1 <= speed (Mouse_Scroll_Callback x y g).
Proof.
  intros Hs. destruct (Rtotal_order y 0) as [Hy | [Hy | Hy]].
  - rewrite scroll_down by assumption. destruct (Rlt_dec (speed g - 2) 1); lra.
  - rewrite scroll_none by assumption. assumption.
  - rewrite scroll_up by lra. lra.
Qed.

Lemma scrolls_keep_floor (events : list (R * R)) (g : Globals) :
  1 <= speed g → 1 <= speed (scrolls events g).
Proof.
  revert g. induction events as [|e es IH]; intros g Hs; [exact Hs|].
  rewrite scrolls_cons. apply IH, scroll_keeps_floor, Hs.
Qed.

(** A run of downward scrolls long enough to reach the floor ends on it. *)
Lemma scrolls_down_reach_floor (events : list (R * R)) (g : Globals) :
  1 <= speed g →
  Forall (λ e, e.2 < 0) events →
  speed g - 1 <= 2 * INR (length events) →
  speed (scrolls events g) = 1.
Proof.
  revert g. induction events as [|e es IH]; intros g Hs Hneg Hlen.
  - cbn in Hlen. cbn [scrolls foldl]. lra.
  - rewrite scrolls_cons. inversion Hneg as [|? ? He Hes]; subst.
    pose proof (scroll_down e.1 e.2 g He) as Hd.
    cbn [length] in Hlen. rewrite S_INR in Hlen.
    apply IH; [apply scroll_keeps_floor, Hs|exact Hes|].
    rewrite Hd. destruct (Rlt_dec (speed g - 2) 1); [|lra].
    pose proof (pos_INR (length es)). lra.
Qed.

(** C8. Starting from a movement speed of at least 1.0, the speed is at
    least 1.0 after any sequence of scroll events.  A run of negative
    scrolls never takes it below 1.0 and, once long enough to reach the
    floor (two units per event), leaves it at exactly 1.0: so do 100
    negative scrolls from the initial speed 5.  (Floats are read as real
    numbers.) *)
Theorem scroll_speed_never_below_floor (events : list (R * R)) (g : Globals) :
  1 <= MovementSpeed (g_pCamera g) →
  1 <= MovementSpeed (g_pCamera (scrolls events g))
  ∧ (Forall (λ e, e.2 < 0) events →
     MovementSpeed (g_pCamera g) - 1 <= 2 * INR (length events) →
     MovementSpeed (g_pCamera (scrolls events g)) = 1)
  ∧ MovementSpeed (g_pCamera (scrolls (replicate 100 (0, -1)) ViewManager)) = 1.
Proof.
  intros Hs. split; [|split].
  - apply (scrolls_keep_floor events g Hs).
  - intros Hneg Hlen. apply (scrolls_down_reach_floor events g Hs Hneg Hlen).
  - apply scrolls_down_reach_floor.
    + unfold speed. cbn. lra.
    + apply Forall_replicate. cbn. lra.
    + rewrite length_replicate. unfold speed. cbn [ViewManager g_pCamera MovementSpeed].
      rewrite INR_IZR_INZ. change (Z.of_nat 100) with 100%Z. lra.
Qed.

Lemma scroll_speed_never_below_floor_witness :
  1 <= MovementSpeed (g_pCamera ViewManager)
  ∧ Forall (λ e, e.2 < 0) [(0, -1); (0, -1)]
  ∧ MovementSpeed (g_pCamera ViewManager) - 1 <= 2 * INR (length [(0, -1); (0, -1)])
  ∧ 1 <= MovementSpeed (g_pCamera (scrolls [(0, -1); (0, -1)] ViewManager))
  ∧ MovementSpeed (g_pCamera (scrolls [(0, -1); (0, -1)] ViewManager)) = 1
  ∧ MovementSpeed (g_pCamera (scrolls (replicate 100 (0, -1)) ViewManager)) = 1.
Proof.
  assert (H : 1 <= MovementSpeed (g_pCamera ViewManager)) by (cbn; lra).
  assert (HF : Forall (λ e : R * R, e.2 < 0) [(0, -1); (0, -1)])
    by (repeat constructor; cbn; lra).
  assert (HL : MovementSpeed (g_pCamera ViewManager) - 1
                 <= 2 * INR (length [(0, -1); (0, -1)]))
    by (cbn; lra).
  destruct (scroll_speed_never_below_floor [(0, -1); (0, -1)] ViewManager H)
    as (Hfloor & Hexact & Hhundred).
  split; [exact H|]. split; [exact HF|]. split; [exact HL|].
  split; [exact Hfloor|]. split; [exact (Hexact HF HL)|exact Hhundred].
Defined.

(** *** Mouse movement *)


(** The event that finds [gFirstMouse] set stores the position and feeds
    the look-direction update the offset (0, 0). *)
Lemma Mouse_Position_Callback_first (PMM : R → R → Camera → Camera) (x y : R)
    (g : Globals) :
  gFirstMouse g = true →
  Mouse_Position_Callback PMM x y g =
  {| g_pCamera := PMM 0 0 (g_pCamera g); gLastX := x; gLastY := y;
     gFirstMouse := false |}.
Proof.
  intros Hf. unfold Mouse_Position_Callback. rewrite Hf.
  cbn [g_pCamera gLastX gLastY gFirstMouse]. rewrite !Rminus_diag. reflexivity.
Qed.

(** Every later event feeds it the displacement from the stored position. *)
Lemma Mouse_Position_Callback_next (PMM : R → R → Camera → Camera) (x y : R)
    (g : Globals) :
  gFirstMouse g = false →
  Mouse_Position_Callback PMM x y g =
  {| g_pCamera := PMM (x - gLastX g) (gLastY g - y) (g_pCamera g);
     gLastX := x; gLastY := y; gFirstMouse := false |}.
Proof.
  intros Hf. unfold Mouse_Position_Callback. rewrite Hf. cbv zeta. rewrite Hf.
  reflexivity.
Qed.







End Camera.


(** * Further properties *)

(** ** Texture lookups *)

Section Lookups.

Import Scene.
Local Open Scope Z_scope.

Lemma registered_lookup_take (w : World) (i : nat) (e : TEXTURE_INFO) :
  registered w i e ↔
  take (Z.to_nat (m_loadedTextures w)) (m_textureIDs w) !! i = Some e.
Proof.
  unfold registered. split.
  - intros [Hi He]. rewrite lookup_take_lt by assumption. exact He.
  - intros H. destruct (decide (i < Z.to_nat (m_loadedTextures w))%nat) as [Hi|Hi].
    + rewrite lookup_take_lt in H by assumption. split; assumption.
    + rewrite lookup_take_ge in H by lia. discriminate.
Qed.

(** A list either has no entry with the tag or a first one. *)
Lemma first_tag_or_none (l : list TEXTURE_INFO) (t : string) :
  (∀ i e, l !! i = Some e → tag e ≠ t)
  ∨ ∃ k e, l !! k = Some e ∧ tag e = t
           ∧ ∀ j e', (j < k)%nat → l !! j = Some e' → tag e' ≠ t.
Proof.
  induction l as [|a l IH].
  - left. intros i e H. destruct i; discriminate.
  - destruct (decide (tag a = t)) as [Ha|Ha].
    + right. exists 0%nat, a. split; [reflexivity|]. split; [assumption|].
      intros j e' Hj. lia.
    + destruct IH as [IH | (k & e & Hk & He & Hbefore)].
      * left. intros [|i] e H; [injection H as <-; assumption|]. apply (IH i e H).
      * right. exists (S k), e. split; [exact Hk|]. split; [assumption|].
        intros [|j] e' Hj H; [injection H as <-; assumption|].
        apply (Hbefore j e'); [lia|exact H].
Qed.

Lemma unregistered_or_first_match (t : string) (w : World) :
  unregistered t w ∨ ∃ k e, first_match t w k e.
Proof.
  destruct (first_tag_or_none
              (take (Z.to_nat (m_loadedTextures w)) (m_textureIDs w)) t)
    as [Hnone | (k & e & Hk & He & Hbefore)].
  - left. intros i e Hr. apply (Hnone i e). apply registered_lookup_take, Hr.
  - right. exists k, e. split; [apply registered_lookup_take, Hk|].
    split; [assumption|]. intros j e' Hj Hr.
    apply (Hbefore j e' Hj). apply registered_lookup_take, Hr.
Qed.

Lemma first_match_before (t : string) (w : World) (k : nat) (e : TEXTURE_INFO) :
  in_range w → first_match t w k e →
  ∀ j : nat, (j < k)%nat →
    ∃ e', m_textureIDs w !! (Z.to_nat 0 + j)%nat = Some e' ∧ tag e' ≠ t.
Proof.
  intros [Hlo Hhi] ([Hk He] & Ht & Hbefore) j Hj. cbn [Z.to_nat Nat.add].
  destruct (lookup_lt_is_Some_2 (m_textureIDs w) j) as [e' He']; [lia|].
  exists e'. split; [assumption|]. apply (Hbefore j e' Hj). split; [lia|assumption].
Qed.

Lemma FindTextureSlot_first_match (t : string) (w : World) (k : nat) (e : TEXTURE_INFO) :
  in_range w → first_match t w k e → FindTextureSlot t w = Ok (Z.of_nat k) w.
Proof.
  intros Hr Hm. pose proof (first_match_before t w k e Hr Hm) as Hbefore.
  destruct Hm as ([Hk He] & Ht & _).
  unfold FindTextureSlot. rewrite bind_run. cbn [gets].
  rewrite (FindTextureSlot_loop_hit _ k 0 t e); [reflexivity|lia|assumption|
    exact He|assumption|exact Hbefore].
Qed.

Lemma FindTextureID_first_match (t : string) (w : World) (k : nat) (e : TEXTURE_INFO) :
  in_range w → first_match t w k e →
  FindTextureID t w = Ok (int_of_GLuint (ID e)) w.
Proof.
  intros Hr Hm. pose proof (first_match_before t w k e Hr Hm) as Hbefore.
  destruct Hm as ([Hk He] & Ht & _).
  unfold FindTextureID. rewrite bind_run. cbn [gets].
  apply (FindTextureID_loop_hit _ k 0 t e); [lia|assumption|exact He|assumption|
    exact Hbefore].
Qed.

(** X1. With the counter within the array, [FindTextureSlot] always returns
    and leaves the state alone; it answers -1 exactly when no registered
    texture carries the tag, and otherwise the index of the first registered
    texture that does. *)
Theorem FindTextureSlot_first_or_sentinel (t : string) (w : World) :
  in_range w →
  ∃ v, FindTextureSlot t w = Ok v w
    ∧ ((v = -1 ∧ unregistered t w)
       ∨ (∃ k e, v = Z.of_nat k ∧ first_match t w k e)).
Proof.
  intros Hr. destruct (unregistered_or_first_match t w) as [Hun | (k & e & Hm)].
  - exists (-1). split; [apply FindTextureSlot_unregistered; assumption|].
    left. split; [reflexivity|assumption].
  - exists (Z.of_nat k). split; [apply (FindTextureSlot_first_match t w k e Hr Hm)|].
    right. exists k, e. split; [reflexivity|assumption].
Qed.

Lemma three_textures_in_range : in_range Examples.three_textures.
Proof. split; discriminate. Qed.

Lemma FindTextureSlot_first_or_sentinel_witness :
  in_range Examples.three_textures
  ∧ ∃ v, FindTextureSlot "b" Examples.three_textures = Ok v Examples.three_textures
      ∧ ((v = -1 ∧ unregistered "b" Examples.three_textures)
         ∨ (∃ k e, v = Z.of_nat k ∧ first_match "b" Examples.three_textures k e)).
Proof.
  split; [exact three_textures_in_range|].
  exact (FindTextureSlot_first_or_sentinel "b" Examples.three_textures
           three_textures_in_range).
Defined.

(** X2. The two lookups agree: when [FindTextureSlot] answers -1 so does
    [FindTextureID], and when it answers a slot, [FindTextureID] answers the
    handle stored in that slot (converted to [int]). *)
Theorem FindTextureID_is_handle_of_slot (t : string) (w : World) (v : Z) :
  in_range w →
  FindTextureSlot t w = Ok v w →
  (v = -1 → FindTextureID t w = Ok (-1) w)
  ∧ (v ≠ -1 →
     ∃ e, m_textureIDs w !! Z.to_nat v = Some e ∧ tag e = t
          ∧ FindTextureID t w = Ok (int_of_GLuint (ID e)) w).
Proof.
  intros Hr Hv. destruct (unregistered_or_first_match t w) as [Hun | (k & e & Hm)].
  - rewrite FindTextureSlot_unregistered in Hv by assumption. injection Hv as <-.
    split; [intros _; apply FindTextureID_unregistered; assumption|congruence].
  - rewrite (FindTextureSlot_first_match t w k e Hr Hm) in Hv. injection Hv as <-.
    split; [lia|]. intros _. exists e. rewrite Nat2Z.id.
    destruct Hm as ([Hk He] & Ht & Hb). split; [exact He|]. split; [exact Ht|].
    apply (FindTextureID_first_match t w k e Hr). split; [split|split]; assumption.
Qed.

Lemma FindTextureID_is_handle_of_slot_witness :
  in_range Examples.three_textures
  ∧ FindTextureSlot "b" Examples.three_textures = Ok 1 Examples.three_textures
  ∧ (1 = -1 → FindTextureID "b" Examples.three_textures = Ok (-1) Examples.three_textures)
  ∧ (1 ≠ -1 →
     ∃ e, m_textureIDs Examples.three_textures !! Z.to_nat 1 = Some e ∧ tag e = "b"
          ∧ FindTextureID "b" Examples.three_textures
            = Ok (int_of_GLuint (ID e)) Examples.three_textures).
Proof.
  split; [exact three_textures_in_range|]. split; [reflexivity|].
  exact (FindTextureID_is_handle_of_slot "b" Examples.three_textures 1
           three_textures_in_range eq_refl).
Defined.

End Lookups.


(** ** Loading, call by call *)

Section Loads.

Import Scene.
Local Open Scope Z_scope.

(** The four parameter calls every decoded image gets. *)
Lemma CreateGLTexture_unsupported_log (filename tag_ : string) (img : Image) (w : World) :
  files w filename = Some img →
  colorChannels img ≠ 3 → colorChannels img ≠ 4 →
  CreateGLTexture filename tag_ w =
  Ok false
    (set_gl (gl w ++
       [GL.glGenTextures (GL.fresh_name (gl w));
        GL.glBindTexture GL.GL_TEXTURE_2D (GL.fresh_name (gl w));
        GL.glTexParameteri GL.GL_TEXTURE_2D GL.GL_TEXTURE_WRAP_S GL.GL_REPEAT;
        GL.glTexParameteri GL.GL_TEXTURE_2D GL.GL_TEXTURE_WRAP_T GL.GL_REPEAT;
        GL.glTexParameteri GL.GL_TEXTURE_2D GL.GL_TEXTURE_MIN_FILTER GL.GL_LINEAR;
        GL.glTexParameteri GL.GL_TEXTURE_2D GL.GL_TEXTURE_MAG_FILTER GL.GL_LINEAR]) w).
Proof.
  intros Hf H3 H4.
  unfold CreateGLTexture, stbi_load. rewrite bind_run. cbn [gets]. rewrite Hf.
  apply Z.eqb_neq in H3, H4. rewrite H3, H4.
  cbv [mbind M_bind mret M_ret gets modify gl_call gl_gen_texture].
  cbn [set_gl m_pShaderManager m_basicMeshes m_loadedTextures m_textureIDs
       m_objectMaterials gl files indeterminate].
  rewrite <- !app_assoc. reflexivity.
Qed.

Lemma CreateGLTexture_success_log (filename tag_ : string) (img : Image) (w : World) :
  files w filename = Some img →
  colorChannels img = 3 ∨ colorChannels img = 4 →
  0 ≤ m_loadedTextures w < Z.of_nat (length (m_textureIDs w)) →
  let h := GL.fresh_name (gl w) in
  let ifmt := if colorChannels img =? 3 then GL.GL_RGB8 else GL.GL_RGBA8 in
  let fmt := if colorChannels img =? 3 then GL.GL_RGB else GL.GL_RGBA in
  CreateGLTexture filename tag_ w =
  Ok true
    (set_loadedTextures (m_loadedTextures w + 1)
      (set_textureIDs
         (<[Z.to_nat (m_loadedTextures w) := {| ID := h; tag := tag_ |}]> (m_textureIDs w))
         (set_gl (gl w ++
            [GL.glGenTextures h;
             GL.glBindTexture GL.GL_TEXTURE_2D h;
             GL.glTexParameteri GL.GL_TEXTURE_2D GL.GL_TEXTURE_WRAP_S GL.GL_REPEAT;
             GL.glTexParameteri GL.GL_TEXTURE_2D GL.GL_TEXTURE_WRAP_T GL.GL_REPEAT;
             GL.glTexParameteri GL.GL_TEXTURE_2D GL.GL_TEXTURE_MIN_FILTER GL.GL_LINEAR;
             GL.glTexParameteri GL.GL_TEXTURE_2D GL.GL_TEXTURE_MAG_FILTER GL.GL_LINEAR;
             GL.glTexImage2D GL.GL_TEXTURE_2D 0 ifmt (width img) (height img) 0 fmt;
             GL.glGenerateMipmap GL.GL_TEXTURE_2D;
             GL.glBindTexture GL.GL_TEXTURE_2D 0]) w))).
Proof.
  intros Hf Hc [Hlo Hhi] h ifmt fmt.
  destruct (lookup_lt_is_Some_2 (m_textureIDs w) (Z.to_nat (m_loadedTextures w)))
    as [e0 He0]; [lia|].
  unfold CreateGLTexture, stbi_load. rewrite bind_run. cbn [gets]. rewrite Hf.
  subst ifmt fmt.
  destruct Hc as [E | E]; rewrite E; cbn [Z.eqb Pos.eqb];
    cbv [mbind M_bind mret M_ret gets modify gl_call gl_gen_texture];
    cbn [set_gl m_loadedTextures m_textureIDs gl];
    rewrite (write_texture_Ok _ _ e0) by (cbn; assumption);
    cbn [set_textureIDs set_gl m_loadedTextures m_textureIDs gl];
    (rewrite (write_texture_Ok _ _ {| ID := GL.fresh_name (gl w); tag := tag e0 |});
     [|cbn; assumption|cbn [set_textureIDs m_textureIDs]; apply list_lookup_insert_eq; lia]);
    cbn [set_textureIDs set_gl m_loadedTextures m_textureIDs gl
         m_pShaderManager m_basicMeshes m_objectMaterials files indeterminate
         ID tag set_loadedTextures];
    rewrite list_insert_insert_eq; rewrite <- !app_assoc; reflexivity.
Qed.

Lemma CreateGLTexture_full_log (filename tag_ : string) (img : Image) (w : World) :
  files w filename = Some img →
  colorChannels img = 3 ∨ colorChannels img = 4 →
  Z.of_nat (length (m_textureIDs w)) ≤ m_loadedTextures w →
  let h := GL.fresh_name (gl w) in
  let ifmt := if colorChannels img =? 3 then GL.GL_RGB8 else GL.GL_RGBA8 in
  let fmt := if colorChannels img =? 3 then GL.GL_RGB else GL.GL_RGBA in
  CreateGLTexture filename tag_ w =
  Fault OutOfBounds
    (set_gl (gl w ++
       [GL.glGenTextures h;
        GL.glBindTexture GL.GL_TEXTURE_2D h;
        GL.glTexParameteri GL.GL_TEXTURE_2D GL.GL_TEXTURE_WRAP_S GL.GL_REPEAT;
        GL.glTexParameteri GL.GL_TEXTURE_2D GL.GL_TEXTURE_WRAP_T GL.GL_REPEAT;
        GL.glTexParameteri GL.GL_TEXTURE_2D GL.GL_TEXTURE_MIN_FILTER GL.GL_LINEAR;
        GL.glTexParameteri GL.GL_TEXTURE_2D GL.GL_TEXTURE_MAG_FILTER GL.GL_LINEAR;
        GL.glTexImage2D GL.GL_TEXTURE_2D 0 ifmt (width img) (height img) 0 fmt;
        GL.glGenerateMipmap GL.GL_TEXTURE_2D;
        GL.glBindTexture GL.GL_TEXTURE_2D 0]) w).
Proof.
  intros Hf Hc Hfull h ifmt fmt.
  unfold CreateGLTexture, stbi_load. rewrite bind_run. cbn [gets]. rewrite Hf.
  subst ifmt fmt.
  destruct Hc as [E | E]; rewrite E; cbn [Z.eqb Pos.eqb];
    cbv [mbind M_bind mret M_ret gets modify gl_call gl_gen_texture];
    cbn [set_gl m_loadedTextures m_textureIDs gl];
    rewrite write_texture_out_of_bounds by (cbn; lia);
    cbn [set_gl m_loadedTextures m_textureIDs gl
         m_pShaderManager m_basicMeshes m_objectMaterials files indeterminate];
    rewrite <- !app_assoc; reflexivity.
Qed.

(** X4. On the unsupported-channel exit the texture name that was just
    generated is abandoned: it is in no registry entry, it is never
    unbound, and it stays bound to [GL_TEXTURE_2D] on the active unit. *)
Theorem CreateGLTexture_unsupported_leaves_texture_bound
    (filename tag_ : string) (img : Image) (w : World) :
  files w filename = Some img →
  colorChannels img ≠ 3 → colorChannels img ≠ 4 →
  registry_ok w →
  ∃ w', CreateGLTexture filename tag_ w = Ok false w'
    ∧ let h := GL.fresh_name (gl w) in
      let before := GL.run GL.initial (gl w) in
      let after := GL.run GL.initial (gl w') in
      GL.generated (gl w') = GL.generated (gl w) ++ [h]
      ∧ (∀ i e, registered w' i e → ID e ≠ h)
      ∧ GL.active_unit after = GL.active_unit before
      ∧ GL.bound_2D after !! GL.active_unit after = Some h.
Proof.
  intros Hf H3 H4 [_ Hids _].
  eexists. split; [apply (CreateGLTexture_unsupported_log _ _ _ _ Hf H3 H4)|].
  cbv zeta. cbn [set_gl gl]. split; [|split; [|split]].
  - rewrite generated_app. reflexivity.
  - intros i e Hr Heq. apply (Hids i e) in Hr. apply fresh_name_above in Hr. lia.
  - rewrite run_app. reflexivity.
  - rewrite run_app. cbn [GL.run foldl GL.step GL.active_unit GL.bound_2D].
    rewrite Z.eqb_refl. cbn [GL.active_unit GL.bound_2D]. apply lookup_insert_eq.
Qed.

Lemma grey_scene_registry_ok : registry_ok Examples.grey_scene.
Proof. apply SceneManager_registry_ok. Qed.

Lemma CreateGLTexture_unsupported_leaves_texture_bound_witness :
  files Examples.grey_scene "textures/a.jpg" = Some Examples.grey_image
  ∧ colorChannels Examples.grey_image ≠ 3
  ∧ colorChannels Examples.grey_image ≠ 4
  ∧ registry_ok Examples.grey_scene
  ∧ ∃ w', CreateGLTexture "textures/a.jpg" "a" Examples.grey_scene = Ok false w'
      ∧ let h := GL.fresh_name (gl Examples.grey_scene) in
        let before := GL.run GL.initial (gl Examples.grey_scene) in
        let after := GL.run GL.initial (gl w') in
        GL.generated (gl w') = GL.generated (gl Examples.grey_scene) ++ [h]
        ∧ (∀ i e, registered w' i e → ID e ≠ h)
        ∧ GL.active_unit after = GL.active_unit before
        ∧ GL.bound_2D after !! GL.active_unit after = Some h.
Proof.
  split; [reflexivity|]. split; [discriminate|]. split; [discriminate|].
  split; [exact grey_scene_registry_ok|].
  apply (CreateGLTexture_unsupported_leaves_texture_bound "textures/a.jpg" "a"
           Examples.grey_image Examples.grey_scene);
    [reflexivity|discriminate|discriminate|exact grey_scene_registry_ok].
Defined.

(** X5. A successful load uploads the decoded size in the format its
    channel count selects (RGB8/RGB for three, RGBA8/RGBA for four) and
    ends with the active unit's [GL_TEXTURE_2D] binding reset to 0: whatever
    was bound there before is gone, while every other unit keeps its
    texture. *)
Theorem CreateGLTexture_success_resets_active_unit
    (filename tag_ : string) (img : Image) (w : World) :
  files w filename = Some img →
  colorChannels img = 3 ∨ colorChannels img = 4 →
  0 ≤ m_loadedTextures w < Z.of_nat (length (m_textureIDs w)) →
  ∃ w', CreateGLTexture filename tag_ w = Ok true w'
    ∧ let before := GL.run GL.initial (gl w) in
      let after := GL.run GL.initial (gl w') in
      GL.glTexImage2D GL.GL_TEXTURE_2D 0
          (if colorChannels img =? 3 then GL.GL_RGB8 else GL.GL_RGBA8)
          (width img) (height img) 0
          (if colorChannels img =? 3 then GL.GL_RGB else GL.GL_RGBA)
        ∈ drop (length (gl w)) (gl w')
      ∧ GL.active_unit after = GL.active_unit before
      ∧ GL.bound_2D after !! GL.active_unit after = Some 0
      ∧ ∀ u, u ≠ GL.active_unit before →
          GL.bound_2D after !! u = GL.bound_2D before !! u.
Proof.
  intros Hf Hc Hroom.
  eexists. split; [apply (CreateGLTexture_success_log _ _ _ _ Hf Hc Hroom)|].
  cbv zeta. cbn [set_loadedTextures set_textureIDs set_gl gl].
  split; [|split; [|split]].
  - rewrite drop_app_length. repeat constructor.
  - rewrite run_app. reflexivity.
  - rewrite run_app. cbn [GL.run foldl GL.step GL.active_unit GL.bound_2D].
    rewrite !Z.eqb_refl. cbn [GL.active_unit GL.bound_2D]. apply lookup_insert_eq.
  - intros u Hu. rewrite run_app.
    cbn [GL.run foldl GL.step GL.active_unit GL.bound_2D].
    rewrite !Z.eqb_refl. cbn [GL.active_unit GL.bound_2D].
    rewrite !lookup_insert_ne by congruence. reflexivity.
Qed.

Lemma CreateGLTexture_success_resets_active_unit_witness :
  files Examples.fresh_scene "textures/a.jpg" = Some Examples.rgb_image
  ∧ (colorChannels Examples.rgb_image = 3 ∨ colorChannels Examples.rgb_image = 4)
  ∧ 0 ≤ m_loadedTextures Examples.fresh_scene
      < Z.of_nat (length (m_textureIDs Examples.fresh_scene))
  ∧ ∃ w', CreateGLTexture "textures/a.jpg" "a" Examples.fresh_scene = Ok true w'
      ∧ let before := GL.run GL.initial (gl Examples.fresh_scene) in
        let after := GL.run GL.initial (gl w') in
        GL.glTexImage2D GL.GL_TEXTURE_2D 0
            (if colorChannels Examples.rgb_image =? 3 then GL.GL_RGB8 else GL.GL_RGBA8)
            (width Examples.rgb_image) (height Examples.rgb_image) 0
            (if colorChannels Examples.rgb_image =? 3 then GL.GL_RGB else GL.GL_RGBA)
          ∈ drop (length (gl Examples.fresh_scene)) (gl w')
        ∧ GL.active_unit after = GL.active_unit before
        ∧ GL.bound_2D after !! GL.active_unit after = Some 0
        ∧ ∀ u, u ≠ GL.active_unit before →
            GL.bound_2D after !! u = GL.bound_2D before !! u.
Proof.
  assert (Hroom : 0 ≤ m_loadedTextures Examples.fresh_scene
                    < Z.of_nat (length (m_textureIDs Examples.fresh_scene)))
    by (split; [discriminate|reflexivity]).
  split; [reflexivity|]. split; [left; reflexivity|]. split; [exact Hroom|].
  exact (CreateGLTexture_success_resets_active_unit "textures/a.jpg" "a"
           Examples.rgb_image Examples.fresh_scene eq_refl (or_introl eq_refl) Hroom).
Defined.

(** X6. A load of a supported image into a full array has no guard: the
    texture is generated, uploaded and unbound, and then the registration
    writes past the end of [m_textureIDs]. *)
Theorem CreateGLTexture_full_array_overruns
    (filename tag_ : string) (img : Image) (w : World) :
  files w filename = Some img →
  colorChannels img = 3 ∨ colorChannels img = 4 →
  Z.of_nat (length (m_textureIDs w)) ≤ m_loadedTextures w →
  ∃ w', CreateGLTexture filename tag_ w = Fault OutOfBounds w'
    ∧ m_textureIDs w' = m_textureIDs w
    ∧ m_loadedTextures w' = m_loadedTextures w
    ∧ GL.generated (gl w') = GL.generated (gl w) ++ [GL.fresh_name (gl w)]
    ∧ GL.glGenerateMipmap GL.GL_TEXTURE_2D ∈ drop (length (gl w)) (gl w').
Proof.
  intros Hf Hc Hfull.
  eexists. split; [apply (CreateGLTexture_full_log _ _ _ _ Hf Hc Hfull)|].
  cbn [set_gl gl m_textureIDs m_loadedTextures].
  split; [reflexivity|]. split; [reflexivity|]. split.
  - rewrite generated_app. reflexivity.
  - rewrite drop_app_length. repeat constructor.
Qed.

Lemma sixteen_textures_full :
  Z.of_nat (length (m_textureIDs Examples.sixteen_textures))
    ≤ m_loadedTextures Examples.sixteen_textures.
Proof. vm_compute. discriminate. Qed.

Lemma CreateGLTexture_full_array_overruns_witness :
  files Examples.sixteen_textures "textures/a.jpg" = Some Examples.rgb_image
  ∧ (colorChannels Examples.rgb_image = 3 ∨ colorChannels Examples.rgb_image = 4)
  ∧ Z.of_nat (length (m_textureIDs Examples.sixteen_textures))
      ≤ m_loadedTextures Examples.sixteen_textures
  ∧ ∃ w', CreateGLTexture "textures/a.jpg" "a" Examples.sixteen_textures
            = Fault OutOfBounds w'
      ∧ m_textureIDs w' = m_textureIDs Examples.sixteen_textures
      ∧ m_loadedTextures w' = m_loadedTextures Examples.sixteen_textures
      ∧ GL.generated (gl w') = GL.generated (gl Examples.sixteen_textures)
                                 ++ [GL.fresh_name (gl Examples.sixteen_textures)]
      ∧ GL.glGenerateMipmap GL.GL_TEXTURE_2D
          ∈ drop (length (gl Examples.sixteen_textures)) (gl w').
Proof.
  split; [reflexivity|]. split; [left; reflexivity|].
  split; [exact sixteen_textures_full|].
  exact (CreateGLTexture_full_array_overruns "textures/a.jpg" "a"
           Examples.rgb_image Examples.sixteen_textures eq_refl
           (or_introl eq_refl) sixteen_textures_full).
Defined.

End Loads.


(** ** What a load's result says *)

Section LoadOutcome.

Import Scene.
Local Open Scope Z_scope.

Lemma CreateGLTexture_negative (filename tag_ : string) (img : Image) (w : World) :
  files w filename = Some img →
  colorChannels img = 3 ∨ colorChannels img = 4 →
  m_loadedTextures w < 0 →
  ∃ w', CreateGLTexture filename tag_ w = Fault OutOfBounds w'.
Proof.
  intros Hf Hc Hneg.
  unfold CreateGLTexture, stbi_load. rewrite bind_run. cbn [gets]. rewrite Hf.
  destruct Hc as [E | E]; rewrite E; cbn [Z.eqb Pos.eqb];
    cbv [mbind M_bind mret M_ret gets modify gl_call gl_gen_texture];
    cbn [set_gl m_loadedTextures m_textureIDs gl];
    unfold write_texture; rewrite bind_run, read_texture_run;
    rewrite bool_decide_eq_false_2 by lia; eexists; reflexivity.
Qed.

(** The outcomes of a load, by what was decoded and how full the array is. *)
Lemma CreateGLTexture_cases (filename tag_ : string) (w : World) :
  CreateGLTexture filename tag_ w = Ok false w
  ∨ (∃ calls, CreateGLTexture filename tag_ w = Ok false (set_gl (gl w ++ calls) w))
  ∨ (∃ w', CreateGLTexture filename tag_ w = Fault OutOfBounds w')
  ∨ (0 ≤ m_loadedTextures w < Z.of_nat (length (m_textureIDs w))
     ∧ ∃ calls,
         CreateGLTexture filename tag_ w =
         Ok true
           (set_loadedTextures (m_loadedTextures w + 1)
              (set_textureIDs
                 (<[Z.to_nat (m_loadedTextures w) :=
                      {| ID := GL.fresh_name (gl w); tag := tag_ |}]> (m_textureIDs w))
                 (set_gl (gl w ++ calls) w)))).
Proof.
  destruct (files w filename) as [img|] eqn:Hf; cycle 1.
  { left. apply CreateGLTexture_missing_file, Hf. }
  destruct (decide (colorChannels img = 3 ∨ colorChannels img = 4)) as [Hc|Hc]; cycle 1.
  { right. left. eexists.
    apply (CreateGLTexture_unsupported_log _ _ img); [assumption|tauto|tauto]. }
  destruct (decide (m_loadedTextures w < 0)) as [Hneg|Hpos].
  { right. right. left. apply (CreateGLTexture_negative _ _ img); assumption. }
  destruct (decide (m_loadedTextures w < Z.of_nat (length (m_textureIDs w))))
    as [Hroom|Hfull]; cycle 1.
  { right. right. left. eexists.
    apply (CreateGLTexture_full_log _ _ img); [assumption|assumption|lia]. }
  right. right. right. split; [lia|]. eexists.
  apply (CreateGLTexture_success_log _ _ img); [assumption|assumption|lia].
Qed.

(** X3. The result of a load reports the registration faithfully.  If
    [CreateGLTexture] returns [true], the counter went up by one, the slot
    the counter pointed at was inside the array and now holds the requested
    tag with the name OpenGL generated, and every other element is as
    before.  If it returns [false], the array and the counter are as
    before. *)
Theorem CreateGLTexture_result_reports_registration
    (filename tag_ : string) (b : bool) (w w' : World) :
  CreateGLTexture filename tag_ w = Ok b w' →
  if b then
    0 ≤ m_loadedTextures w < Z.of_nat (length (m_textureIDs w))
    ∧ m_loadedTextures w' = m_loadedTextures w + 1
    ∧ m_textureIDs w' !! Z.to_nat (m_loadedTextures w)
        = Some {| ID := GL.fresh_name (gl w); tag := tag_ |}
    ∧ (∀ i, i ≠ Z.to_nat (m_loadedTextures w) →
         m_textureIDs w' !! i = m_textureIDs w !! i)
  else
    m_textureIDs w' = m_textureIDs w ∧ m_loadedTextures w' = m_loadedTextures w.
Proof.
  intros H.
  destruct (CreateGLTexture_cases filename tag_ w)
    as [E | [(calls & E) | [(w2 & E) | (Hroom & calls & E)]]];
    rewrite E in H; try discriminate; injection H as <- <-.
  - split; reflexivity.
  - split; reflexivity.
  - split; [exact Hroom|]. split; [reflexivity|].
    cbn [set_loadedTextures set_textureIDs m_textureIDs]. split.
    + apply list_lookup_insert_eq. lia.
    + intros i Hi. apply list_lookup_insert_ne. congruence.
Qed.

Lemma CreateGLTexture_result_reports_registration_witness :
  CreateGLTexture "textures/a.jpg" "a" Examples.fresh_scene
    = Ok true Examples.one_texture
  ∧ 0 ≤ m_loadedTextures Examples.fresh_scene
      < Z.of_nat (length (m_textureIDs Examples.fresh_scene))
  ∧ m_loadedTextures Examples.one_texture = m_loadedTextures Examples.fresh_scene + 1
  ∧ m_textureIDs Examples.one_texture !! Z.to_nat (m_loadedTextures Examples.fresh_scene)
      = Some {| ID := GL.fresh_name (gl Examples.fresh_scene); tag := "a" |}
  ∧ (∀ i, i ≠ Z.to_nat (m_loadedTextures Examples.fresh_scene) →
       m_textureIDs Examples.one_texture !! i = m_textureIDs Examples.fresh_scene !! i).
Proof.
  assert (Hrun : CreateGLTexture "textures/a.jpg" "a" Examples.fresh_scene
                 = Ok true Examples.one_texture) by (vm_compute; reflexivity).
  split; [exact Hrun|].
  exact (CreateGLTexture_result_reports_registration "textures/a.jpg" "a" true
           Examples.fresh_scene Examples.one_texture Hrun).
Defined.

(** X7. A load never disturbs what is registered: if the registry is in
    its invariant before a load that returns, it is afterwards, every
    registered entry is still registered at its index, and every tag that a
    lookup resolved before resolves to the same slot and the same handle
    after -- also when the new texture carries that very tag. *)
Theorem CreateGLTexture_keeps_registrations
    (filename tag_ : string) (b : bool) (w w' : World) :
  registry_ok w →
  CreateGLTexture filename tag_ w = Ok b w' →
  registry_ok w'
  ∧ (∀ i e, registered w i e → registered w' i e)
  ∧ (∀ t k e, first_match t w k e →
       FindTextureSlot t w' = Ok (Z.of_nat k) w'
       ∧ FindTextureID t w' = Ok (int_of_GLuint (ID e)) w').
Proof.
  intros Hok H.
  pose proof (CreateGLTexture_registry_ok _ _ _ _ _ Hok H) as Hok'.
  assert (Hkeep : ∀ i e, registered w i e → registered w' i e).
  { destruct Hok as [[Hlo Hhi] _ _].
    destruct (CreateGLTexture_cases filename tag_ w)
      as [E | [(calls & E) | [(w2 & E) | (Hroom & calls & E)]]];
      rewrite E in H; try discriminate; injection H as <- <-;
      intros i e [Hi He]; try (split; assumption).
    split; cbn [set_loadedTextures set_textureIDs set_gl m_loadedTextures m_textureIDs].
    - lia.
    - rewrite list_lookup_insert_ne by lia. exact He. }
  split; [exact Hok'|]. split; [exact Hkeep|].
  intros t k e (Hr & Ht & Hbefore).
  assert (Hm : first_match t w' k e).
  { split; [apply Hkeep, Hr|]. split; [exact Ht|].
    intros j e' Hj [Hj' He'].
    destruct Hr as [Hk _].
    destruct (CreateGLTexture_cases filename tag_ w)
      as [E | [(calls & E) | [(w2 & E) | (Hroom & calls & E)]]];
      rewrite E in H; try discriminate; injection H as <- <-;
      try (apply (Hbefore j e' Hj); split; [lia|exact He']).
    cbn [set_loadedTextures set_textureIDs set_gl m_loadedTextures m_textureIDs] in *.
    rewrite list_lookup_insert_ne in He' by lia.
    apply (Hbefore j e' Hj). split; [lia|exact He']. }
  split.
  - apply (FindTextureSlot_first_match t w' k e); [apply Hok'|exact Hm].
  - apply (FindTextureID_first_match t w' k e); [apply Hok'|exact Hm].
Qed.

Lemma one_texture_registry_ok : registry_ok Examples.one_texture.
Proof.
  apply (CreateGLTexture_registry_ok "textures/a.jpg" "a" true Examples.fresh_scene);
    [apply SceneManager_registry_ok|vm_compute; reflexivity].
Qed.

Lemma CreateGLTexture_keeps_registrations_witness :
  registry_ok Examples.one_texture
  ∧ (∃ w', CreateGLTexture "textures/b.jpg" "a" Examples.one_texture = Ok true w'
       ∧ registry_ok w'
       ∧ (∀ i e, registered Examples.one_texture i e → registered w' i e)
       ∧ (∀ t k e, first_match t Examples.one_texture k e →
            FindTextureSlot t w' = Ok (Z.of_nat k) w'
            ∧ FindTextureID t w' = Ok (int_of_GLuint (ID e)) w')).
Proof.
  split; [exact one_texture_registry_ok|].
  assert (Hrun : CreateGLTexture "textures/b.jpg" "a" Examples.one_texture
                 = Ok true (final (CreateGLTexture "textures/b.jpg" "a" Examples.one_texture)))
    by (vm_compute; reflexivity).
  eexists. split; [exact Hrun|].
  exact (CreateGLTexture_keeps_registrations "textures/b.jpg" "a" true
           Examples.one_texture _ one_texture_registry_ok Hrun).
Defined.

End LoadOutcome.


(** ** Binding and teardown *)

Section BindAndDestroy.

Import Scene.
Local Open Scope Z_scope.

Lemma BindGLTextures_run (w : World) :
  in_range w →
  BindGLTextures w =
  Ok tt (set_gl (gl w ++ bind_in_order 0
                   (take (Z.to_nat (m_loadedTextures w)) (m_textureIDs w))) w).
Proof.
  intros [Hlo Hhi]. unfold BindGLTextures. rewrite bind_run. cbn [gets].
  set (n := Z.to_nat (m_loadedTextures w)).
  assert (Hlen : length (take n (m_textureIDs w)) = n)
    by (rewrite length_take; lia).
  rewrite <- Hlen at 1.
  apply (BindGLTextures_loop_run _ [] (drop n (m_textureIDs w))).
  - cbn [app]. symmetry. apply take_drop.
  - lia.
  - reflexivity.
Qed.

(** X8. After [BindGLTextures], the slot a lookup answers for a registered
    tag is the texture unit on which the handle the other lookup answers is
    bound: the sampler slot names the unit of that tag's first
    registration. *)
Theorem bound_unit_matches_lookup (t : string) (w : World) (k : nat) (e : TEXTURE_INFO) :
  in_range w →
  first_match t w k e →
  ∃ w', BindGLTextures w = Ok tt w'
    ∧ FindTextureSlot t w' = Ok (Z.of_nat k) w'
    ∧ FindTextureID t w' = Ok (int_of_GLuint (ID e)) w'
    ∧ GL.bound_2D (GL.run GL.initial (gl w')) !! Z.of_nat k = Some (ID e).
Proof.
  intros Hr Hm. eexists. split; [apply (BindGLTextures_run w Hr)|].
  split; [|split].
  - apply (FindTextureSlot_first_match t _ k e); [exact Hr|exact Hm].
  - apply (FindTextureID_first_match t _ k e); [exact Hr|exact Hm].
  - cbn [set_gl gl]. rewrite run_app.
    apply (run_bind_in_order_lookup _ 0).
    destruct Hm as ([Hk He] & _). rewrite lookup_take_lt by assumption. exact He.
Qed.

Lemma three_textures_first_match_b :
  first_match "b" Examples.three_textures 1 {| ID := 2; tag := "b" |}.
Proof.
  split; [split; [vm_compute; lia|vm_compute; reflexivity]|].
  split; [reflexivity|].
  intros j e' Hj [_ He']. destruct j as [|j]; [|lia].
  vm_compute in He'. injection He' as <-. discriminate.
Qed.

Lemma bound_unit_matches_lookup_witness :
  in_range Examples.three_textures
  ∧ first_match "b" Examples.three_textures 1 {| ID := 2; tag := "b" |}
  ∧ ∃ w', BindGLTextures Examples.three_textures = Ok tt w'
      ∧ FindTextureSlot "b" w' = Ok (Z.of_nat 1) w'
      ∧ FindTextureID "b" w' = Ok (int_of_GLuint (ID {| ID := 2; tag := "b" |})) w'
      ∧ GL.bound_2D (GL.run GL.initial (gl w')) !! Z.of_nat 1
          = Some (ID {| ID := 2; tag := "b" |}).
Proof.
  split; [exact three_textures_in_range|].
  split; [exact three_textures_first_match_b|].
  exact (bound_unit_matches_lookup "b" Examples.three_textures 1 _
           three_textures_in_range three_textures_first_match_b).
Defined.

(** *** [DestroyGLTextures] *)

Lemma foldr_max_snoc (l : list Z) (x : Z) :
  foldr Z.max 0 (l ++ [x]) = Z.max (foldr Z.max 0 l) x.
Proof.
  induction l as [|y l IH]; cbn [app foldr]; [lia|]. rewrite IH. lia.
Qed.

(** Generating a name moves the next name up by one. *)
Lemma fresh_name_next (log : list GL.Call) :
  GL.fresh_name (log ++ [GL.glGenTextures (GL.fresh_name log)]) = GL.fresh_name log + 1.
Proof.
  unfold GL.fresh_name. rewrite generated_app, generated_glGenTextures.
  change (GL.generated []) with (@nil Z).
  rewrite foldr_max_snoc. pose proof (foldr_max_nonneg (GL.generated log)). lia.
Qed.

Lemma DestroyGLTextures_loop_run (l pre post : list TEXTURE_INFO) (i : Z) (w : World) :
  m_textureIDs w = pre ++ l ++ post → 0 ≤ i → Z.to_nat i = length pre →
  let h := GL.fresh_name (gl w) in
  DestroyGLTextures_loop (length l) i w =
  Ok tt
    (set_textureIDs
       (pre ++ imap (λ k e, {| ID := h + Z.of_nat k; tag := tag e |}) l ++ post)
       (set_gl (gl w ++ ((λ k : nat, GL.glGenTextures (h + Z.of_nat k)) <$> seq 0 (length l)))
          w)).
Proof.
  revert pre i w. induction l as [|e l IH]; intros pre i w Ha Hi Hpre h.
  - cbn. rewrite app_nil_r. cbn in Ha. rewrite <- Ha. destruct w; reflexivity.
  - cbn [length DestroyGLTextures_loop].
    cbv [mbind M_bind mret M_ret gets modify gl_call gl_gen_texture].
    fold h.
    rewrite (write_texture_Ok _ _ e); [|assumption|].
    2:{ cbn [set_gl m_textureIDs]. rewrite Ha, Hpre.
        rewrite lookup_app_r by lia. rewrite Nat.sub_diag. reflexivity. }
    cbn [set_gl m_textureIDs tag].
    match goal with |- DestroyGLTextures_loop _ _ ?w1 = _ => set (w1' := w1) end.
    assert (Ha1 : m_textureIDs w1' = (pre ++ [{| ID := h; tag := tag e |}]) ++ l ++ post).
    { subst w1'. cbn [set_textureIDs m_textureIDs]. rewrite Ha, Hpre.
      rewrite insert_app_r_alt by lia. rewrite Nat.sub_diag.
      cbn [app]. rewrite <- app_assoc. reflexivity. }
    rewrite (IH (pre ++ [{| ID := h; tag := tag e |}]) (i + 1) w1' Ha1); [|lia|].
    2:{ rewrite length_app. cbn [length]. lia. }
    subst w1'.
    cbn [set_textureIDs set_gl gl m_pShaderManager m_basicMeshes m_textureIDs
         m_loadedTextures m_objectMaterials files indeterminate].
    rewrite fresh_name_next. fold h.
    rewrite <- !app_assoc. cbn [app imap seq fmap list_fmap].
    rewrite Z.add_0_r.
    assert (E1 : imap (λ (k : nat) (e0 : TEXTURE_INFO),
                         {| ID := h + 1 + Z.of_nat k; tag := tag e0 |}) l
                 = imap ((λ (k : nat) (e0 : TEXTURE_INFO),
                            {| ID := h + Z.of_nat k; tag := tag e0 |}) ∘ S) l).
    { apply imap_ext. intros k x _. cbn. f_equal. lia. }
    assert (E2 : ((λ k : nat, GL.glGenTextures (h + 1 + Z.of_nat k)) <$> seq 0 (length l))
                 = ((λ k : nat, GL.glGenTextures (h + Z.of_nat k)) <$> seq 1 (length l))).
    { rewrite <- fmap_S_seq, <- list_fmap_compose.
      apply list_fmap_ext. intros k x _. cbn. f_equal. lia. }
    rewrite E1, E2. reflexivity.
Qed.

(** X9. [DestroyGLTextures] deletes nothing.  With [n] textures registered
    it issues [n] calls of [glGenTextures] and no other call, and stores the
    [n] new names over the registered handles: the counter and the tags are
    as before, every tag still resolves to its slot, but each registered
    handle is now a name that no load ever generated. *)
Theorem DestroyGLTextures_regenerates (w : World) :
  in_range w →
  let n := Z.to_nat (m_loadedTextures w) in
  let h := GL.fresh_name (gl w) in
  ∃ w', DestroyGLTextures w = Ok tt w'
    ∧ gl w' = gl w ++ ((λ k : nat, GL.glGenTextures (h + Z.of_nat k)) <$> seq 0 n)
    ∧ m_loadedTextures w' = m_loadedTextures w
    ∧ (∀ i e, registered w i e →
         registered w' i {| ID := h + Z.of_nat i; tag := tag e |}
         ∧ h + Z.of_nat i ∉ GL.generated (gl w))
    ∧ (∀ t, value (FindTextureSlot t w') = value (FindTextureSlot t w)).
Proof.
  intros Hr n h. pose proof Hr as [Hlo Hhi].
  assert (Hlen : length (take n (m_textureIDs w)) = n)
    by (rewrite length_take; lia).
  assert (Hrun : DestroyGLTextures w =
    Ok tt (set_textureIDs
       ([] ++ imap (λ k e, {| ID := h + Z.of_nat k; tag := tag e |})
                (take n (m_textureIDs w)) ++ drop n (m_textureIDs w))
       (set_gl (gl w ++ ((λ k : nat, GL.glGenTextures (h + Z.of_nat k))
                           <$> seq 0 (length (take n (m_textureIDs w))))) w))).
  { unfold DestroyGLTextures. rewrite bind_run. cbn [gets]. fold n.
    rewrite <- Hlen at 1.
    apply (DestroyGLTextures_loop_run _ [] (drop n (m_textureIDs w)));
      [cbn [app]; symmetry; apply take_drop|lia|reflexivity]. }
  rewrite Hlen in Hrun. cbn [app] in Hrun.
  eexists. split; [exact Hrun|].
  cbn [set_textureIDs set_gl gl m_loadedTextures m_textureIDs].
  split; [reflexivity|]. split; [reflexivity|].
  assert (Hentry : ∀ i e, registered w i e →
    (imap (λ k e, {| ID := h + Z.of_nat k; tag := tag e |}) (take n (m_textureIDs w))
       ++ drop n (m_textureIDs w)) !! i = Some {| ID := h + Z.of_nat i; tag := tag e |}).
  { intros i e [Hi He]. fold n in Hi.
    rewrite lookup_app_l by (rewrite length_imap, Hlen; exact Hi).
    rewrite list_lookup_imap, lookup_take_lt, He by exact Hi. reflexivity. }
  split.
  - intros i e Hreg. split.
    + split; [apply Hreg|]. cbn [set_textureIDs m_textureIDs]. apply Hentry, Hreg.
    + intros Hin. apply fresh_name_above in Hin. fold h in Hin. lia.
  - intros t.
    destruct (unregistered_or_first_match t w) as [Hun | (k & e & Hm)].
    + rewrite (FindTextureSlot_unregistered t w Hr Hun).
      rewrite FindTextureSlot_unregistered; [reflexivity| |].
      * unfold in_range. cbn [set_textureIDs set_gl m_loadedTextures m_textureIDs].
        rewrite length_app, length_imap, length_drop, Hlen. lia.
      * intros i e' [Hi He'].
        cbn [set_textureIDs set_gl m_loadedTextures m_textureIDs] in Hi, He'.
        destruct (lookup_lt_is_Some_2 (m_textureIDs w) i) as [e0 He0]; [lia|].
        rewrite (Hentry i e0 (conj Hi He0)) in He'. injection He' as <-.
        cbn [tag]. apply (Hun i e0). split; assumption.
    + rewrite (FindTextureSlot_first_match t w k e Hr Hm).
      rewrite (FindTextureSlot_first_match t _ k {| ID := h + Z.of_nat k; tag := tag e |});
        [reflexivity| |].
      * unfold in_range. cbn [set_textureIDs set_gl m_loadedTextures m_textureIDs].
        rewrite length_app, length_imap, length_drop, Hlen. lia.
      * destruct Hm as (Hreg & Ht & Hbefore). split; [|split].
        -- split; [apply Hreg|]. cbn [set_textureIDs m_textureIDs]. apply Hentry, Hreg.
        -- exact Ht.
        -- intros j e' Hj [Hj' He'].
           cbn [set_textureIDs set_gl m_loadedTextures m_textureIDs] in Hj', He'.
           destruct (lookup_lt_is_Some_2 (m_textureIDs w) j) as [e0 He0]; [lia|].
           rewrite (Hentry j e0 (conj Hj' He0)) in He'. injection He' as <-.
           cbn [tag]. apply (Hbefore j e0 Hj). split; assumption.
Qed.

Lemma DestroyGLTextures_regenerates_witness :
  in_range Examples.three_textures
  ∧ ∃ w', DestroyGLTextures Examples.three_textures = Ok tt w'
      ∧ gl w' = gl Examples.three_textures
                  ++ ((λ k : nat, GL.glGenTextures
                                    (GL.fresh_name (gl Examples.three_textures) + Z.of_nat k))
                        <$> seq 0 (Z.to_nat (m_loadedTextures Examples.three_textures)))
      ∧ m_loadedTextures w' = m_loadedTextures Examples.three_textures
      ∧ (∀ i e, registered Examples.three_textures i e →
           registered w' i {| ID := GL.fresh_name (gl Examples.three_textures) + Z.of_nat i;
                              tag := tag e |}
           ∧ GL.fresh_name (gl Examples.three_textures) + Z.of_nat i
               ∉ GL.generated (gl Examples.three_textures))
      ∧ (∀ t, value (FindTextureSlot t w') = value (FindTextureSlot t Examples.three_textures)).
Proof.
  split; [exact three_textures_in_range|].
  exact (DestroyGLTextures_regenerates Examples.three_textures three_textures_in_range).
Defined.

End BindAndDestroy.


(** ** Materials *)

Section Materials.

Import Glm Scene.
Local Open Scope Z_scope.

(** The three reflectance members of [e] in an output whose tag stays the
    caller's. *)
Lemma FindMaterial_loop_hit (pre post : list OBJECT_MATERIAL) (e : OBJECT_MATERIAL)
    (t : string) (material : OBJECT_MATERIAL) :
  mtag e = t → (∀ e', e' ∈ pre → mtag e' ≠ t) →
  FindMaterial_loop (pre ++ e :: post) t material =
  (true, {| diffuseColor := diffuseColor e; specularColor := specularColor e;
            shininess := shininess e; mtag := mtag material |}).
Proof.
  intros Ht Hpre. induction pre as [|a pre IH]; cbn [app FindMaterial_loop].
  - apply String.eqb_eq in Ht. rewrite Ht. reflexivity.
  - assert (Ha : mtag a ≠ t) by (apply Hpre; left).
    apply String.eqb_neq in Ha. rewrite Ha. apply IH.
    intros e' He'. apply Hpre. right. exact He'.
Qed.

Lemma FindMaterial_first (t : string) (material e : OBJECT_MATERIAL) (w : World) :
  first_material t (m_objectMaterials w) e →
  FindMaterial t material w =
  Ok (true, {| diffuseColor := diffuseColor e; specularColor := specularColor e;
               shininess := shininess e; mtag := mtag material |}) w.
Proof.
  intros (pre & post & Hm & Ht & Hpre).
  unfold FindMaterial. rewrite bind_run. cbn [gets]. rewrite Hm.
  rewrite (FindMaterial_loop_hit pre post e t material Ht Hpre).
  destruct pre; reflexivity.
Qed.

(** X10. When some material carries the tag, [FindMaterial] returns [true]
    and the output holds the diffuse colour, specular colour and shininess
    of the first such material; the output's own tag is not written. *)
Theorem FindMaterial_copies_first_match
    (t : string) (material e : OBJECT_MATERIAL) (w : World) :
  first_material t (m_objectMaterials w) e →
  ∃ out, FindMaterial t material w = Ok (true, out) w
    ∧ diffuseColor out = diffuseColor e
    ∧ specularColor out = specularColor e
    ∧ shininess out = shininess e
    ∧ mtag out = mtag material.
Proof.
  intros Hm. eexists. split; [apply (FindMaterial_first t material e w Hm)|].
  repeat split.
Qed.

Lemma scene_materials_first_glass :
  first_material "glass" (m_objectMaterials Examples.scene_materials) glassMaterial.
Proof.
  exists [canMaterial; paperMaterial], [CounterMaterial; backdropMaterial; FruitMaterial].
  split; [reflexivity|]. split; [reflexivity|].
  intros e' He'. apply elem_of_cons in He' as [-> | He']; [discriminate|].
  apply list_elem_of_singleton in He' as ->. discriminate.
Qed.

Lemma FindMaterial_copies_first_match_witness :
  first_material "glass" (m_objectMaterials Examples.scene_materials) glassMaterial
  ∧ ∃ out, FindMaterial "glass" blank_material Examples.scene_materials
             = Ok (true, out) Examples.scene_materials
      ∧ diffuseColor out = diffuseColor glassMaterial
      ∧ specularColor out = specularColor glassMaterial
      ∧ shininess out = shininess glassMaterial
      ∧ mtag out = mtag blank_material.
Proof.
  split; [exact scene_materials_first_glass|].
  exact (FindMaterial_copies_first_match "glass" blank_material glassMaterial
           Examples.scene_materials scene_materials_first_glass).
Defined.

(** X11. Defining a material and looking its tag up: the lookup hands back
    the new material's values when no earlier material carries the tag, and
    the values of the first earlier one when one does -- a duplicate
    definition is never seen by lookups. *)
Theorem push_back_then_FindMaterial (m out0 : OBJECT_MATERIAL) (w : World) :
  ∃ w' out, push_back m w = Ok tt w'
    ∧ FindMaterial (mtag m) out0 w' = Ok (true, out) w'
    ∧ ((∀ e, e ∈ m_objectMaterials w → mtag e ≠ mtag m) →
       diffuseColor out = diffuseColor m ∧ specularColor out = specularColor m
       ∧ shininess out = shininess m)
    ∧ (∀ e, first_material (mtag m) (m_objectMaterials w) e →
       diffuseColor out = diffuseColor e ∧ specularColor out = specularColor e
       ∧ shininess out = shininess e).
Proof.
  assert (Hcases : (∀ e, e ∈ m_objectMaterials w → mtag e ≠ mtag m)
                   ∨ ∃ e, first_material (mtag m) (m_objectMaterials w) e).
  { induction (m_objectMaterials w) as [|a l IH].
    - left. intros e He. inversion He.
    - destruct (decide (mtag a = mtag m)) as [Ha|Ha].
      + right. exists a, [], l. split; [reflexivity|]. split; [exact Ha|].
        intros e' He'. inversion He'.
      + destruct IH as [IH | (e & pre & post & -> & Ht & Hpre)].
        * left. intros e He. apply elem_of_cons in He as [-> | He]; [exact Ha|].
          apply IH, He.
        * right. exists e, (a :: pre), post. split; [reflexivity|].
          split; [exact Ht|]. intros e' He'.
          apply elem_of_cons in He' as [-> | He']; [exact Ha|]. apply Hpre, He'. }
  eexists.
  destruct Hcases as [Hnone | (e & Hfirst)].
  - eexists. split; [reflexivity|]. split.
    + apply (FindMaterial_first (mtag m) out0 m).
      exists (m_objectMaterials w), []. split; [reflexivity|]. split; [reflexivity|].
      exact Hnone.
    + split.
      * intros _. repeat split.
      * intros e (pre & post & Hm & Ht & _). exfalso.
        apply (Hnone e); [|exact Ht]. rewrite Hm. apply elem_of_app. right. left.
  - eexists. split; [reflexivity|]. split.
    + apply (FindMaterial_first (mtag m) out0 e).
      destruct Hfirst as (pre & post & Hm & Ht & Hpre).
      exists pre, (post ++ [m]). split; [|split; [exact Ht|exact Hpre]].
      cbn [set_materials m_objectMaterials]. rewrite Hm, <- app_assoc. reflexivity.
    + split.
      * intros Hnone. exfalso.
        destruct Hfirst as (pre & post & Hm & Ht & _).
        apply (Hnone e); [|exact Ht]. rewrite Hm. apply elem_of_app. right. left.
      * intros e2 (pre2 & post2 & Hm2 & Ht2 & Hpre2).
        destruct Hfirst as (pre & post & Hm & Ht & Hpre).
        assert (e2 = e) as ->; [|repeat split].
        rewrite Hm in Hm2. clear Hm.
        revert pre2 Hm2 Hpre2. induction pre as [|a pre IH]; intros pre2 Hm2 Hpre2.
        -- destruct pre2 as [|b pre2]; cbn [app] in Hm2; [congruence|].
           injection Hm2 as <- _. exfalso. apply (Hpre2 e); [left|exact Ht].
        -- destruct pre2 as [|b pre2]; cbn [app] in Hm2.
           ++ injection Hm2 as <- _. exfalso. apply (Hpre a); [left|exact Ht2].
           ++ injection Hm2 as <- Hm2. apply (IH (λ e' He', Hpre e' (list_elem_of_further _ _ _ He')) pre2 Hm2).
              intros e' He'. apply Hpre2. right. exact He'.
Qed.

End Materials.


(** ** Shader state *)

Section ShaderState.

Import Glm Scene.
Local Open Scope Z_scope.

Lemma SetShaderMaterial_run (t : string) (w : World) (sm : ShaderManager)
    (out : OBJECT_MATERIAL) :
  m_pShaderManager w = Some sm →
  m_objectMaterials w ≠ [] →
  FindMaterial t (indeterminate w) w = Ok (true, out) w →
  SetShaderMaterial t w =
  Ok tt (set_shader (Some (sm ++
           [setVec3Value "material.diffuseColor" (diffuseColor out);
            setVec3Value "material.specularColor" (specularColor out);
            setFloatValue "material.shininess" (shininess out)])) w).
Proof.
  intros Hs Hne Hfind. unfold SetShaderMaterial. rewrite bind_run. cbn [gets].
  destruct (m_objectMaterials w) as [|e0 mats] eqn:E; [congruence|].
  cbn [length Nat.ltb Nat.leb]. rewrite bind_run. cbn [gets].
  rewrite (bind_Ok _ _ _ _ _ Hfind).
  rewrite (bind_Ok _ _ _ _ _ (shader_call_Some _ _ _ Hs)).
  erewrite bind_Ok by (apply shader_call_Some; reflexivity).
  erewrite shader_call_Some by reflexivity.
  cbn [set_shader m_pShaderManager m_basicMeshes m_textureIDs m_loadedTextures
       m_objectMaterials gl files indeterminate].
  rewrite <- !app_assoc. reflexivity.
Qed.

(** X12. With a shader manager present and a material carrying the tag,
    [SetShaderMaterial] pushes exactly three uniforms: the diffuse colour,
    the specular colour and the shininess of the first material with that
    tag. *)
Theorem SetShaderMaterial_pushes_first_match
    (t : string) (e : OBJECT_MATERIAL) (w : World) (sm : ShaderManager) :
  m_pShaderManager w = Some sm →
  first_material t (m_objectMaterials w) e →
  SetShaderMaterial t w =
  Ok tt (set_shader (Some (sm ++
           [setVec3Value "material.diffuseColor" (diffuseColor e);
            setVec3Value "material.specularColor" (specularColor e);
            setFloatValue "material.shininess" (shininess e)])) w).
Proof.
  intros Hs Hm.
  rewrite (SetShaderMaterial_run t w sm
             {| diffuseColor := diffuseColor e; specularColor := specularColor e;
                shininess := shininess e; mtag := mtag (indeterminate w) |} Hs);
    [reflexivity| |].
  - destruct Hm as (pre & post & -> & _). destruct pre; discriminate.
  - apply (FindMaterial_first t (indeterminate w) e w Hm).
Qed.

Lemma SetShaderMaterial_pushes_first_match_witness :
  m_pShaderManager Examples.scene_materials = Some []
  ∧ first_material "glass" (m_objectMaterials Examples.scene_materials) glassMaterial
  ∧ SetShaderMaterial "glass" Examples.scene_materials =
    Ok tt (set_shader (Some ([] ++
             [setVec3Value "material.diffuseColor" (diffuseColor glassMaterial);
              setVec3Value "material.specularColor" (specularColor glassMaterial);
              setFloatValue "material.shininess" (shininess glassMaterial)]))
             Examples.scene_materials).
Proof.
  split; [reflexivity|]. split; [exact scene_materials_first_glass|].
  exact (SetShaderMaterial_pushes_first_match "glass" glassMaterial
           Examples.scene_materials [] eq_refl scene_materials_first_glass).
Defined.

(** X13. With a shader manager present, a registry that is not empty and a
    tag that no material carries, [SetShaderMaterial] still pushes the
    three material uniforms: the values of its local [material], which
    nothing has initialised. *)
Theorem SetShaderMaterial_unknown_tag_pushes_uninitialised
    (t : string) (w : World) (sm : ShaderManager) :
  m_pShaderManager w = Some sm →
  m_objectMaterials w ≠ [] →
  (∀ e, e ∈ m_objectMaterials w → mtag e ≠ t) →
  SetShaderMaterial t w =
  Ok tt (set_shader (Some (sm ++
           [setVec3Value "material.diffuseColor" (diffuseColor (indeterminate w));
            setVec3Value "material.specularColor" (specularColor (indeterminate w));
            setFloatValue "material.shininess" (shininess (indeterminate w))])) w).
Proof.
  intros Hs Hne Hmiss.
  apply (SetShaderMaterial_run t w sm _ Hs Hne).
  apply FindMaterial_no_match; assumption.
Qed.

Lemma scene_materials_no_wood :
  ∀ e, e ∈ m_objectMaterials Examples.scene_materials → mtag e ≠ "wood".
Proof.
  intros e He. change (m_objectMaterials Examples.scene_materials)
    with [canMaterial; paperMaterial; glassMaterial; CounterMaterial;
          backdropMaterial; FruitMaterial] in He.
  repeat (apply elem_of_cons in He as [-> | He]; [discriminate|]).
  inversion He.
Qed.

Lemma SetShaderMaterial_unknown_tag_pushes_uninitialised_witness :
  m_pShaderManager Examples.scene_materials = Some []
  ∧ m_objectMaterials Examples.scene_materials ≠ []
  ∧ (∀ e, e ∈ m_objectMaterials Examples.scene_materials → mtag e ≠ "wood")
  ∧ SetShaderMaterial "wood" Examples.scene_materials =
    Ok tt (set_shader (Some ([] ++
      [setVec3Value "material.diffuseColor"
         (diffuseColor (indeterminate Examples.scene_materials));
       setVec3Value "material.specularColor"
         (specularColor (indeterminate Examples.scene_materials));
       setFloatValue "material.shininess"
         (shininess (indeterminate Examples.scene_materials))]))
      Examples.scene_materials).
Proof.
  assert (Hne : m_objectMaterials Examples.scene_materials ≠ []) by discriminate.
  split; [reflexivity|]. split; [exact Hne|]. split; [exact scene_materials_no_wood|].
  exact (SetShaderMaterial_unknown_tag_pushes_uninitialised "wood"
           Examples.scene_materials [] eq_refl Hne scene_materials_no_wood).
Defined.

(** *** Colour and texture *)

Lemma SetShaderColor_run (r g b a : R) (w : World) (sm : ShaderManager) :
  m_pShaderManager w = Some sm →
  SetShaderColor r g b a w =
  Ok tt (set_shader (Some (sm ++ [setIntValue g_UseTextureName 0;
                                  setVec4Value g_ColorValueName (Vec4 r g b a)])) w).
Proof.
  intros Hs. unfold SetShaderColor. cbv zeta.
  rewrite (when_shader_Some _ _ _ Hs).
  rewrite (bind_Ok _ _ _ _ _ (shader_call_Some _ _ _ Hs)).
  erewrite shader_call_Some by reflexivity.
  cbn [set_shader m_pShaderManager m_basicMeshes m_textureIDs m_loadedTextures
       m_objectMaterials gl files indeterminate].
  rewrite <- !app_assoc. reflexivity.
Qed.

Lemma SetShaderTexture_run (t : string) (w : World) (sm : ShaderManager) (v : Z) :
  m_pShaderManager w = Some sm →
  (∀ w', m_textureIDs w' = m_textureIDs w → m_loadedTextures w' = m_loadedTextures w →
         FindTextureSlot t w' = Ok v w') →
  SetShaderTexture t w =
  Ok tt (set_shader (Some (sm ++ [setIntValue g_UseTextureName 1;
                                  setSampler2DValue g_TextureValueName v])) w).
Proof.
  intros Hs Hfind. unfold SetShaderTexture.
  rewrite (when_shader_Some _ _ _ Hs).
  rewrite (bind_Ok _ _ _ _ _ (shader_call_Some _ _ _ Hs)).
  rewrite bind_run, Hfind by reflexivity.
  erewrite shader_call_Some by reflexivity.
  cbn [set_shader m_pShaderManager m_basicMeshes m_textureIDs m_loadedTextures
       m_objectMaterials gl files indeterminate].
  rewrite <- !app_assoc. reflexivity.
Qed.

Lemma first_match_same_registry (t : string) (w w' : World) (k : nat) (e : TEXTURE_INFO) :
  m_textureIDs w' = m_textureIDs w → m_loadedTextures w' = m_loadedTextures w →
  first_match t w k e → first_match t w' k e.
Proof.
  intros Ha Hn. unfold first_match, registered. rewrite Ha, Hn. tauto.
Qed.

Lemma in_range_same_registry (w w' : World) :
  m_textureIDs w' = m_textureIDs w → m_loadedTextures w' = m_loadedTextures w →
  in_range w → in_range w'.
Proof. intros Ha Hn. unfold in_range. rewrite Ha, Hn. tauto. Qed.

(** X14. With a shader manager present and a tag some registered texture
    carries, [SetShaderTexture] pushes "bUseTexture" = 1 and then, as the
    sampler, the slot of the first texture registered under that tag. *)
Theorem SetShaderTexture_pushes_first_slot
    (t : string) (w : World) (sm : ShaderManager) (k : nat) (e : TEXTURE_INFO) :
  m_pShaderManager w = Some sm →
  in_range w →
  first_match t w k e →
  SetShaderTexture t w =
  Ok tt (set_shader (Some (sm ++ [setIntValue "bUseTexture" 1;
                                  setSampler2DValue "objectTexture" (Z.of_nat k)])) w).
Proof.
  intros Hs Hr Hm. apply (SetShaderTexture_run t w sm _ Hs).
  intros w' Ha Hn. apply (FindTextureSlot_first_match t w' k e).
  - apply (in_range_same_registry w w' Ha Hn Hr).
  - apply (first_match_same_registry t w w' k e Ha Hn Hm).
Qed.

Lemma SetShaderTexture_pushes_first_slot_witness :
  m_pShaderManager Examples.three_textures = Some []
  ∧ in_range Examples.three_textures
  ∧ first_match "b" Examples.three_textures 1 {| ID := 2; tag := "b" |}
  ∧ SetShaderTexture "b" Examples.three_textures =
    Ok tt (set_shader (Some ([] ++ [setIntValue "bUseTexture" 1;
                                    setSampler2DValue "objectTexture" (Z.of_nat 1)]))
             Examples.three_textures).
Proof.
  assert (Hs : m_pShaderManager Examples.three_textures = Some [])
    by (vm_compute; reflexivity).
  split; [exact Hs|]. split; [exact three_textures_in_range|].
  split; [exact three_textures_first_match_b|].
  exact (SetShaderTexture_pushes_first_slot "b" Examples.three_textures [] 1 _
           Hs three_textures_in_range three_textures_first_match_b).
Defined.

Lemma FindTextureSlot_total (t : string) (w : World) :
  in_range w → ∃ v, ∀ w', m_textureIDs w' = m_textureIDs w →
    m_loadedTextures w' = m_loadedTextures w → FindTextureSlot t w' = Ok v w'.
Proof.
  intros Hr. destruct (unregistered_or_first_match t w) as [Hun | (k & e & Hm)].
  - exists (-1). intros w' Ha Hn. apply FindTextureSlot_unregistered.
    + apply (in_range_same_registry w w' Ha Hn Hr).
    + unfold unregistered, registered in *. rewrite Ha, Hn. exact Hun.
  - exists (Z.of_nat k). intros w' Ha Hn. apply (FindTextureSlot_first_match t w' k e).
    + apply (in_range_same_registry w w' Ha Hn Hr).
    + apply (first_match_same_registry t w w' k e Ha Hn Hm).
Qed.

Lemma use_texture_snoc2 (sm : ShaderManager) (v : Z) (u : Uniform) :
  (∀ n x, u ≠ setIntValue n x) →
  use_texture (sm ++ [setIntValue g_UseTextureName v; u]) = Some v.
Proof.
  intros Hu. unfold use_texture. rewrite omap_app.
  match goal with |- last (_ ++ ?l) = _ => assert (E : l = [v]) end.
  { destruct u; try reflexivity. exfalso. eapply Hu. reflexivity. }
  rewrite E. apply last_snoc.
Qed.

(** X15. Flat colour and texture share the "bUseTexture" flag, and the
    call made last decides it: colour then texture leaves the flag at 1,
    texture then colour leaves it at 0, whatever the colour and the tag. *)
Theorem color_and_texture_last_call_wins
    (r g b a : R) (t : string) (w : World) (sm : ShaderManager) :
  m_pShaderManager w = Some sm →
  in_range w →
  (∃ w' sm', (SetShaderColor r g b a;; SetShaderTexture t) w = Ok tt w'
     ∧ m_pShaderManager w' = Some sm' ∧ use_texture sm' = Some 1)
  ∧ (∃ w' sm', (SetShaderTexture t;; SetShaderColor r g b a) w = Ok tt w'
     ∧ m_pShaderManager w' = Some sm' ∧ use_texture sm' = Some 0).
Proof.
  intros Hs Hr. destruct (FindTextureSlot_total t w Hr) as [v Hv]. split.
  - eexists. eexists. split; [|split].
    + rewrite (bind_Ok _ _ _ _ _ (SetShaderColor_run r g b a w sm Hs)).
      eapply (SetShaderTexture_run t _ _ v); [reflexivity|].
      intros w' Ha Hn. apply Hv; assumption.
    + reflexivity.
    + apply use_texture_snoc2. discriminate.
  - eexists. eexists. split; [|split].
    + rewrite (bind_Ok _ _ _ _ _ (SetShaderTexture_run t w sm v Hs Hv)).
      eapply SetShaderColor_run. reflexivity.
    + reflexivity.
    + apply use_texture_snoc2. discriminate.
Qed.

Lemma color_and_texture_last_call_wins_witness :
  m_pShaderManager Examples.fresh_scene = Some []
  ∧ in_range Examples.fresh_scene
  ∧ (∃ w' sm', (SetShaderColor 1 1 1 1;; SetShaderTexture "apple_texture")
                 Examples.fresh_scene = Ok tt w'
       ∧ m_pShaderManager w' = Some sm' ∧ use_texture sm' = Some 1)
  ∧ (∃ w' sm', (SetShaderTexture "apple_texture";; SetShaderColor 1 1 1 1)
                 Examples.fresh_scene = Ok tt w'
       ∧ m_pShaderManager w' = Some sm' ∧ use_texture sm' = Some 0).
Proof.
  assert (Hr : in_range Examples.fresh_scene) by (split; discriminate).
  split; [reflexivity|]. split; [exact Hr|].
  exact (color_and_texture_last_call_wins 1 1 1 1 "apple_texture"
           Examples.fresh_scene [] eq_refl Hr).
Defined.

End ShaderState.


(** ** Rendering a frame *)

Section Rendering.

Import Glm Scene.
Local Open Scope Z_scope.

Lemma same_scene_refl (w : World) : same_scene w w.
Proof. repeat split. Qed.

Lemma same_scene_trans (w1 w2 w3 : World) :
  same_scene w1 w2 → same_scene w2 w3 → same_scene w1 w3.
Proof.
  intros (A1 & A2 & A3 & A4 & A5 & A6) (B1 & B2 & B3 & B4 & B5 & B6).
  repeat split; congruence.
Qed.

Lemma same_scene_in_range (w w' : World) : same_scene w w' → in_range w → in_range w'.
Proof. intros (Ha & Hn & _). apply in_range_same_registry; assumption. Qed.

Lemma pushes_bind (m k : M unit) (n1 k1 n2 k2 : nat) (d1 d2 : list MeshCall) :
  pushes_and_draws m n1 k1 d1 → pushes_and_draws k n2 k2 d2 →
  pushes_and_draws (m;; k) (n1 + n2) (k1 + k2) (d1 ++ d2).
Proof.
  intros Hm Hk w sm Hs Hr.
  destruct (Hm w sm Hs Hr) as (w1 & p1 & E1 & Hs1 & Hp1 & Hsame1 & Hd1).
  destruct (Hk w1 _ Hs1 (same_scene_in_range _ _ Hsame1 Hr))
    as (w2 & p2 & E2 & Hs2 & Hp2 & Hsame2 & Hd2).
  exists w2, (p1 ++ p2). split; [rewrite (bind_Ok _ _ _ _ _ E1); exact E2|].
  split; [rewrite Hs2, app_assoc; reflexivity|].
  split; [|split; [apply (same_scene_trans _ _ _ Hsame1 Hsame2)|]].
  - destruct Hsame1 as (_ & _ & Hmats & _). rewrite Hmats in Hp2.
    rewrite length_app, Hp1, Hp2. destruct (m_objectMaterials w); lia.
  - rewrite Hd2, Hd1, app_assoc. reflexivity.
Qed.

Lemma pushes_eq (m : M unit) (n k n' k' : nat) (d d' : list MeshCall) :
  pushes_and_draws m n k d → n = n' → k = k' → d = d' → pushes_and_draws m n' k' d'.
Proof. intros H <- <- <-. exact H. Qed.

(** A computation that, with a shader manager present, returns after
    appending [n] pushes to it and touching nothing else. *)
Lemma pushes_only (m : M unit) (n : nat) :
  (∀ w sm, m_pShaderManager w = Some sm → in_range w →
           ∃ pushes, m w = Ok tt (set_shader (Some (sm ++ pushes)) w)
                     ∧ length pushes = n) →
  pushes_and_draws m n 0 [].
Proof.
  intros H w sm Hs Hr. destruct (H w sm Hs Hr) as (pushes & E & Hlen).
  eexists. exists pushes. split; [exact E|]. split; [reflexivity|].
  split; [rewrite Hlen; destruct (m_objectMaterials w); lia|].
  split; [repeat split|]. cbn [set_shader m_basicMeshes]. rewrite app_nil_r. reflexivity.
Qed.

Lemma pushes_SetTransformations (s : vec3) (rx ry rz : R) (t : vec3) :
  pushes_and_draws (SetTransformations s rx ry rz t) 1 0 [].
Proof.
  apply pushes_only. intros w sm Hs _. eexists. split.
  - unfold SetTransformations. cbv zeta.
    rewrite (when_shader_Some _ _ _ Hs). apply (shader_call_Some _ _ _ Hs).
  - reflexivity.
Qed.

Lemma pushes_SetShaderColor (r g b a : R) :
  pushes_and_draws (SetShaderColor r g b a) 2 0 [].
Proof.
  apply pushes_only. intros w sm Hs _. eexists.
  split; [apply (SetShaderColor_run _ _ _ _ _ _ Hs)|reflexivity].
Qed.

Lemma pushes_SetTextureUVScale (u v : R) :
  pushes_and_draws (SetTextureUVScale u v) 1 0 [].
Proof.
  apply pushes_only. intros w sm Hs _. eexists. split.
  - unfold SetTextureUVScale.
    rewrite (when_shader_Some _ _ _ Hs). apply (shader_call_Some _ _ _ Hs).
  - reflexivity.
Qed.

Lemma pushes_SetShaderTexture (t : string) :
  pushes_and_draws (SetShaderTexture t) 2 0 [].
Proof.
  apply pushes_only. intros w sm Hs Hr.
  destruct (FindTextureSlot_total t w Hr) as [v Hv]. eexists.
  split; [apply (SetShaderTexture_run t w sm v Hs Hv)|reflexivity].
Qed.

Lemma FindMaterial_total (t : string) (material : OBJECT_MATERIAL) (w : World) :
  m_objectMaterials w ≠ [] →
  ∃ out, FindMaterial t material w = Ok (true, out) w.
Proof.
  intros Hne. unfold FindMaterial. rewrite bind_run. cbn [gets].
  destruct (m_objectMaterials w) as [|e mats] eqn:E; [congruence|].
  cbn [length Nat.eqb].
  destruct (FindMaterial_loop (e :: mats) t material) as [bFound out].
  exists out. reflexivity.
Qed.

Lemma pushes_SetShaderMaterial (t : string) :
  pushes_and_draws (SetShaderMaterial t) 0 1 [].
Proof.
  intros w sm Hs Hr.
  destruct (m_objectMaterials w) as [|e mats] eqn:E.
  - exists w, []. rewrite (SetShaderMaterial_empty t w E).
    split; [reflexivity|]. split; [rewrite app_nil_r; exact Hs|].
    split; [reflexivity|]. split; [apply same_scene_refl|].
    rewrite app_nil_r. reflexivity.
  - assert (Hne : m_objectMaterials w ≠ []) by (rewrite E; discriminate).
    destruct (FindMaterial_total t (indeterminate w) w Hne) as [out Hout].
    eexists. eexists. split; [apply (SetShaderMaterial_run t w sm out Hs Hne Hout)|].
    split; [reflexivity|]. split; [reflexivity|]. split; [repeat split|].
    cbn [set_shader m_basicMeshes]. rewrite app_nil_r. reflexivity.
Qed.

Lemma pushes_mesh_call (c : MeshCall) : pushes_and_draws (mesh_call c) 0 0 [c].
Proof.
  intros w sm Hs Hr. exists (set_meshes (m_basicMeshes w ++ [c]) w), [].
  split; [reflexivity|]. split; [rewrite app_nil_r; exact Hs|].
  split; [destruct (m_objectMaterials w); reflexivity|].
  split; [repeat split|]. reflexivity.
Qed.

Lemma RenderScene_pushes_and_draws :
  pushes_and_draws RenderScene 64 13
    [DrawPlaneMesh; DrawCylinderMesh; DrawCylinderMesh; DrawCylinderMesh;
     DrawCylinderMesh; DrawTaperedCylinderMesh; DrawCylinderMesh; DrawSphereMesh;
     DrawConeMesh; DrawConeMesh; DrawBoxMesh; DrawBoxMesh; DrawBoxMesh; DrawBoxMesh;
     DrawPlaneMesh; DrawSphereMesh].
Proof.
  unfold RenderScene. cbv zeta.
  eapply pushes_eq.
  - repeat first
      [ apply pushes_mesh_call
      | eapply pushes_bind;
        [ first [ apply pushes_SetTransformations | apply pushes_SetShaderTexture
                | apply pushes_SetTextureUVScale | apply pushes_SetShaderColor
                | apply pushes_SetShaderMaterial | apply pushes_mesh_call ] | ] ].
  - reflexivity.
  - reflexivity.
  - reflexivity.
Qed.

(** X16. With a shader manager present and the counter within the array,
    [RenderScene] always returns.  It sends the sixteen draws to the mesh
    object in source order.  The shader manager keeps every push it had and
    receives new ones after them: sixty-four from the transformations,
    colours, textures and UV scales, and three from each of the thirteen
    material lookups once a material is defined.  The registries and the
    OpenGL state are as before -- whatever textures and materials are
    registered, also none. *)
Theorem RenderScene_with_shader_draws_sixteen (w : World) (sm : ShaderManager) :
  m_pShaderManager w = Some sm →
  in_range w →
  ∃ w' pushes, RenderScene w = Ok tt w'
    ∧ m_pShaderManager w' = Some (sm ++ pushes)
    ∧ length pushes =
        (64 + match m_objectMaterials w with [] => 0 | _ :: _ => 3 * 13 end)%nat
    ∧ same_scene w w'
    ∧ m_basicMeshes w' = m_basicMeshes w ++
        [DrawPlaneMesh; DrawCylinderMesh; DrawCylinderMesh; DrawCylinderMesh;
         DrawCylinderMesh; DrawTaperedCylinderMesh; DrawCylinderMesh; DrawSphereMesh;
         DrawConeMesh; DrawConeMesh; DrawBoxMesh; DrawBoxMesh; DrawBoxMesh; DrawBoxMesh;
         DrawPlaneMesh; DrawSphereMesh].
Proof.
  intros Hs Hr. apply (RenderScene_pushes_and_draws w sm Hs Hr).
Qed.

Lemma RenderScene_with_shader_draws_sixteen_witness :
  m_pShaderManager Examples.scene_materials = Some []
  ∧ in_range Examples.scene_materials
  ∧ ∃ w' pushes, RenderScene Examples.scene_materials = Ok tt w'
      ∧ m_pShaderManager w' = Some ([] ++ pushes)
      ∧ length pushes = (64 + 3 * 13)%nat
      ∧ same_scene Examples.scene_materials w'
      ∧ m_basicMeshes w' = m_basicMeshes Examples.scene_materials ++
          [DrawPlaneMesh; DrawCylinderMesh; DrawCylinderMesh; DrawCylinderMesh;
           DrawCylinderMesh; DrawTaperedCylinderMesh; DrawCylinderMesh; DrawSphereMesh;
           DrawConeMesh; DrawConeMesh; DrawBoxMesh; DrawBoxMesh; DrawBoxMesh; DrawBoxMesh;
           DrawPlaneMesh; DrawSphereMesh].
Proof.
  assert (Hs : m_pShaderManager Examples.scene_materials = Some []) by reflexivity.
  assert (Hr : in_range Examples.scene_materials) by (split; discriminate).
  split; [exact Hs|]. split; [exact Hr|].
  exact (RenderScene_with_shader_draws_sixteen Examples.scene_materials [] Hs Hr).
Defined.

(** X17. On a null shader manager [RenderScene] depends on the material
    registry alone.  While it is empty every setter is silent and the frame
    completes with its sixteen draws and nothing else changed; once a
    material is defined the frame stops after three draws, at the first
    [SetShaderMaterial], on a call through the null pointer. *)
Theorem RenderScene_null_shader (w : World) :
  m_pShaderManager w = None →
  (m_objectMaterials w = [] →
   RenderScene w =
   Ok tt (set_meshes (m_basicMeshes w ++
            [DrawPlaneMesh; DrawCylinderMesh; DrawCylinderMesh; DrawCylinderMesh;
             DrawCylinderMesh; DrawTaperedCylinderMesh; DrawCylinderMesh; DrawSphereMesh;
             DrawConeMesh; DrawConeMesh; DrawBoxMesh; DrawBoxMesh; DrawBoxMesh;
             DrawBoxMesh; DrawPlaneMesh; DrawSphereMesh]) w))
  ∧ (m_objectMaterials w ≠ [] →
     RenderScene w =
     Fault NullPointer
       (set_meshes (m_basicMeshes w ++
          [DrawPlaneMesh; DrawCylinderMesh; DrawCylinderMesh]) w)).
Proof.
  intros Hs. split; intros Hm; unfold RenderScene; cbv zeta.
  - repeat first
      [ rewrite bind_run, SetTransformations_null by exact Hs
      | rewrite bind_run, SetShaderTexture_null by exact Hs
      | rewrite bind_run, SetTextureUVScale_null by exact Hs
      | rewrite bind_run, SetShaderColor_null by exact Hs
      | rewrite bind_run, SetShaderMaterial_empty by exact Hm
      | rewrite bind_run, mesh_call_run;
        cbn [set_meshes m_pShaderManager m_basicMeshes m_textureIDs m_loadedTextures
             m_objectMaterials gl files indeterminate];
        rewrite <- ?app_assoc; cbn [app] ].
    rewrite mesh_call_run.
    cbn [set_meshes m_pShaderManager m_basicMeshes m_textureIDs m_loadedTextures
         m_objectMaterials gl files indeterminate].
    rewrite <- ?app_assoc. reflexivity.
  - repeat first
      [ rewrite bind_run, SetTransformations_null by exact Hs
      | rewrite bind_run, SetShaderTexture_null by exact Hs
      | rewrite bind_run, SetTextureUVScale_null by exact Hs
      | rewrite bind_run, SetShaderColor_null by exact Hs
      | rewrite bind_run, mesh_call_run;
        cbn [set_meshes m_pShaderManager m_basicMeshes m_textureIDs m_loadedTextures
             m_objectMaterials gl files indeterminate];
        rewrite <- ?app_assoc; cbn [app] ].
    rewrite bind_run, SetShaderMaterial_null; [reflexivity|exact Hs|exact Hm].
Qed.

Lemma RenderScene_null_shader_witness :
  m_pShaderManager Examples.headless_scene = None
  ∧ m_objectMaterials Examples.headless_scene = []
  ∧ RenderScene Examples.headless_scene =
    Ok tt (set_meshes (m_basicMeshes Examples.headless_scene ++
             [DrawPlaneMesh; DrawCylinderMesh; DrawCylinderMesh; DrawCylinderMesh;
              DrawCylinderMesh; DrawTaperedCylinderMesh; DrawCylinderMesh; DrawSphereMesh;
              DrawConeMesh; DrawConeMesh; DrawBoxMesh; DrawBoxMesh; DrawBoxMesh;
              DrawBoxMesh; DrawPlaneMesh; DrawSphereMesh]) Examples.headless_scene)
  ∧ m_pShaderManager Examples.headless_materials = None
  ∧ m_objectMaterials Examples.headless_materials ≠ []
  ∧ RenderScene Examples.headless_materials =
    Fault NullPointer
      (set_meshes (m_basicMeshes Examples.headless_materials ++
         [DrawPlaneMesh; DrawCylinderMesh; DrawCylinderMesh]) Examples.headless_materials).
Proof.
  assert (Hne : m_objectMaterials Examples.headless_materials ≠ []) by discriminate.
  split; [reflexivity|]. split; [reflexivity|].
  split; [exact (proj1 (RenderScene_null_shader Examples.headless_scene eq_refl) eq_refl)|].
  split; [reflexivity|]. split; [exact Hne|].
  exact (proj2 (RenderScene_null_shader Examples.headless_materials eq_refl) Hne).
Defined.

End Rendering.


(** ** Preparing the scene *)

Section Preparing.

Import Glm Scene.
Local Open Scope Z_scope.

(** One load with room left: it returns, keeps the invariant, moves the
    counter by at most one and touches nothing outside the registry and
    the OpenGL log. *)
Lemma CreateGLTexture_step (filename tag_ : string) (w : World) :
  registry_ok w →
  m_loadedTextures w < Z.of_nat (length (m_textureIDs w)) →
  ∃ b w', CreateGLTexture filename tag_ w = Ok b w'
    ∧ registry_ok w'
    ∧ m_loadedTextures w ≤ m_loadedTextures w' ≤ m_loadedTextures w + 1
    ∧ length (m_textureIDs w') = length (m_textureIDs w)
    ∧ m_pShaderManager w' = m_pShaderManager w
    ∧ m_objectMaterials w' = m_objectMaterials w
    ∧ m_basicMeshes w' = m_basicMeshes w.
Proof.
  intros Hok Hroom. pose proof Hok as [[Hlo Hhi] _ _].
  assert (Hrun : ∃ b w', CreateGLTexture filename tag_ w = Ok b w'
    ∧ m_loadedTextures w ≤ m_loadedTextures w' ≤ m_loadedTextures w + 1
    ∧ length (m_textureIDs w') = length (m_textureIDs w)
    ∧ m_pShaderManager w' = m_pShaderManager w
    ∧ m_objectMaterials w' = m_objectMaterials w
    ∧ m_basicMeshes w' = m_basicMeshes w).
  { destruct (files w filename) as [img|] eqn:Hf; cycle 1.
    { exists false, w. split; [apply CreateGLTexture_missing_file, Hf|].
      repeat split; lia. }
    destruct (decide (colorChannels img = 3 ∨ colorChannels img = 4)) as [Hc|Hc].
    - eexists. eexists.
      split; [apply (CreateGLTexture_success_log _ _ img); [assumption|assumption|lia]|].
      cbn [set_loadedTextures set_textureIDs set_gl m_loadedTextures m_textureIDs
           m_pShaderManager m_objectMaterials m_basicMeshes].
      rewrite length_insert. repeat split; lia.
    - eexists. eexists.
      split; [apply (CreateGLTexture_unsupported_log _ _ img); [assumption|tauto|tauto]|].
      cbn [set_gl m_loadedTextures m_textureIDs
           m_pShaderManager m_objectMaterials m_basicMeshes].
      repeat split; lia. }
  destruct Hrun as (b & w' & E & Hrest). exists b, w'.
  split; [exact E|]. split; [apply (CreateGLTexture_registry_ok _ _ _ _ _ Hok E)|exact Hrest].
Qed.

Lemma generated_bind_in_order (u : Z) (l : list TEXTURE_INFO) :
  GL.generated (bind_in_order u l) = [].
Proof. revert u. induction l as [|e l IH]; intros u; [reflexivity|]. cbn. apply IH. Qed.

(** [BindGLTextures] generates no name, so it keeps the invariant. *)
Lemma BindGLTextures_registry_ok (w : World) :
  registry_ok w →
  ∃ w', BindGLTextures w = Ok tt w' ∧ registry_ok w'
    ∧ same_scene w (set_gl (gl w) w')
    ∧ m_pShaderManager w' = m_pShaderManager w
    ∧ m_basicMeshes w' = m_basicMeshes w
    ∧ ∀ i e, registered w' i e →
        GL.bound_2D (GL.run GL.initial (gl w')) !! Z.of_nat i = Some (ID e).
Proof.
  intros [Hr Hids Hpos]. eexists. split; [apply (BindGLTextures_run w Hr)|].
  split; [|split; [repeat split|split; [reflexivity|split; [reflexivity|]]]].
  - split.
    + exact Hr.
    + intros i e Hreg. cbn [set_gl gl]. rewrite generated_app, generated_bind_in_order.
      rewrite app_nil_r. apply (Hids i e Hreg).
    + intros x Hx. cbn [set_gl gl] in Hx.
      rewrite generated_app, generated_bind_in_order, app_nil_r in Hx. apply Hpos, Hx.
  - intros i e [Hi He]. cbn [set_gl gl m_loadedTextures m_textureIDs] in *.
    rewrite run_app. apply (run_bind_in_order_lookup _ 0).
    rewrite lookup_take_lt by assumption. exact He.
Qed.

(** Ten loads and the binding pass, from a state with room for ten more
    textures. *)
Lemma LoadSceneTextures_with_room (w : World) :
  registry_ok w →
  m_loadedTextures w + 10 ≤ Z.of_nat (length (m_textureIDs w)) →
  ∃ w', LoadSceneTextures w = Ok tt w'
    ∧ registry_ok w'
    ∧ m_loadedTextures w ≤ m_loadedTextures w' ≤ m_loadedTextures w + 10
    ∧ m_pShaderManager w' = m_pShaderManager w
    ∧ m_objectMaterials w' = m_objectMaterials w
    ∧ m_basicMeshes w' = m_basicMeshes w
    ∧ ∀ i e, registered w' i e →
        GL.bound_2D (GL.run GL.initial (gl w')) !! Z.of_nat i = Some (ID e).
Proof.
  intros Hok0 Hroom. unfold LoadSceneTextures.
  destruct (CreateGLTexture_step "textures/bookcover.jpg" "bookcover_texture" w Hok0
              ltac:(lia)) as (b1 & w1 & E1 & Hok1 & Hn1 & Hl1 & Hs1 & Hm1 & Hd1).
  rewrite (bind_Ok _ _ _ _ _ E1).
  destruct (CreateGLTexture_step "textures/bookside.jpg" "bookside_texture" w1 Hok1
              ltac:(lia)) as (b2 & w2 & E2 & Hok2 & Hn2 & Hl2 & Hs2 & Hm2 & Hd2).
  rewrite (bind_Ok _ _ _ _ _ E2).
  destruct (CreateGLTexture_step "textures/counter.jpg" "counter_texture" w2 Hok2
              ltac:(lia)) as (b3 & w3 & E3 & Hok3 & Hn3 & Hl3 & Hs3 & Hm3 & Hd3).
  rewrite (bind_Ok _ _ _ _ _ E3).
  destruct (CreateGLTexture_step "textures/pages.jpg" "pages_texture" w3 Hok3
              ltac:(lia)) as (b4 & w4 & E4 & Hok4 & Hn4 & Hl4 & Hs4 & Hm4 & Hd4).
  rewrite (bind_Ok _ _ _ _ _ E4).
  destruct (CreateGLTexture_step "textures/wall.jpg" "wall_texture" w4 Hok4
              ltac:(lia)) as (b5 & w5 & E5 & Hok5 & Hn5 & Hl5 & Hs5 & Hm5 & Hd5).
  rewrite (bind_Ok _ _ _ _ _ E5).
  destruct (CreateGLTexture_step "textures/can.jpg" "can_texture" w5 Hok5
              ltac:(lia)) as (b6 & w6 & E6 & Hok6 & Hn6 & Hl6 & Hs6 & Hm6 & Hd6).
  rewrite (bind_Ok _ _ _ _ _ E6).
  destruct (CreateGLTexture_step "textures/canlid.jpg" "canlid_texture" w6 Hok6
              ltac:(lia)) as (b7 & w7 & E7 & Hok7 & Hn7 & Hl7 & Hs7 & Hm7 & Hd7).
  rewrite (bind_Ok _ _ _ _ _ E7).
  destruct (CreateGLTexture_step "textures/apple.jpg" "apple_texture" w7 Hok7
              ltac:(lia)) as (b8 & w8 & E8 & Hok8 & Hn8 & Hl8 & Hs8 & Hm8 & Hd8).
  rewrite (bind_Ok _ _ _ _ _ E8).
  destruct (CreateGLTexture_step "textures/carbonated.jpg" "carbonated_texture" w8 Hok8
              ltac:(lia)) as (b9 & w9 & E9 & Hok9 & Hn9 & Hl9 & Hs9 & Hm9 & Hd9).
  rewrite (bind_Ok _ _ _ _ _ E9).
  destruct (CreateGLTexture_step "textures/foam.jpg" "foam_texture" w9 Hok9
              ltac:(lia)) as (b10 & w10 & E10 & Hok10 & Hn10 & Hl10 & Hs10 & Hm10 & Hd10).
  rewrite (bind_Ok _ _ _ _ _ E10).
  destruct (BindGLTextures_registry_ok w10 Hok10)
    as (w' & E & Hok' & (_ & Hn' & Hm' & _) & Hs' & Hd' & Hbound).
  cbn [set_gl m_loadedTextures m_objectMaterials] in Hn', Hm'.
  exists w'. split; [exact E|]. split; [exact Hok'|].
  split; [lia|]. split; [congruence|]. split; [congruence|]. split; [congruence|].
  exact Hbound.
Qed.

Lemma DefineObjectMaterials_run (w : World) :
  DefineObjectMaterials w =
  Ok tt (set_materials (m_objectMaterials w ++
           [canMaterial; paperMaterial; glassMaterial; CounterMaterial;
            backdropMaterial; FruitMaterial]) w).
Proof.
  unfold DefineObjectMaterials, push_back.
  cbv [mbind M_bind mret M_ret modify].
  cbn [set_materials m_pShaderManager m_basicMeshes m_textureIDs m_loadedTextures
       m_objectMaterials gl files indeterminate].
  rewrite <- !app_assoc. reflexivity.
Qed.

Lemma load_meshes_run (w : World) :
  load_meshes w =
  Ok tt (set_meshes (m_basicMeshes w ++
           [LoadPlaneMesh; LoadCylinderMesh; LoadSphereMesh; LoadConeMesh; LoadBoxMesh;
            LoadTaperedCylinderMesh; LoadPlaneMesh; LoadTorusMesh]) w).
Proof.
  unfold load_meshes, mesh_call.
  cbv [mbind M_bind mret M_ret modify].
  cbn [set_meshes m_pShaderManager m_basicMeshes m_textureIDs m_loadedTextures
       m_objectMaterials gl files indeterminate].
  rewrite <- !app_assoc. reflexivity.
Qed.

(** X18. From any state with a shader manager, the registry in its
    invariant and room for ten more textures, [PrepareScene] returns,
    whatever the files on disk are.  The six materials are appended to the
    material list and sixteen light pushes to the shader manager, at most
    ten textures are added, the registry is still in its invariant, and
    every registered texture is bound to the unit of its index.  The
    counter is a hypothesis: the constructor does not assign it. *)
Theorem PrepareScene_with_shader_completes (w : World) (sm : ShaderManager) :
  m_pShaderManager w = Some sm →
  registry_ok w →
  m_loadedTextures w + 10 ≤ Z.of_nat (length (m_textureIDs w)) →
  ∃ w' pushes, PrepareScene w = Ok tt w'
    ∧ registry_ok w'
    ∧ m_loadedTextures w ≤ m_loadedTextures w' ≤ m_loadedTextures w + 10
    ∧ m_objectMaterials w' = m_objectMaterials w ++
        [canMaterial; paperMaterial; glassMaterial; CounterMaterial;
         backdropMaterial; FruitMaterial]
    ∧ m_pShaderManager w' = Some (sm ++ pushes) ∧ length pushes = 16%nat
    ∧ ∀ i e, registered w' i e →
        GL.bound_2D (GL.run GL.initial (gl w')) !! Z.of_nat i = Some (ID e).
Proof.
  intros Hs Hok Hroom. unfold PrepareScene.
  rewrite (bind_Ok _ _ _ _ _ (DefineObjectMaterials_run w)).
  match goal with |- context [(_ ≫= _) ?w1] =>
    destruct (SetupSceneLights_Some w1 sm Hs) as (pushes & Hl & Hlen)
  end.
  rewrite (bind_Ok _ _ _ _ _ Hl).
  rewrite (bind_Ok _ _ _ _ _ (load_meshes_run _)).
  match goal with |- context [LoadSceneTextures ?w3] =>
    destruct (LoadSceneTextures_with_room w3)
      as (w' & E & Hok' & Hn' & Hs' & Hm' & _ & Hbound)
  end.
  - destruct Hok as [Hr Hids Hpos]. split; [exact Hr|exact Hids|exact Hpos].
  - exact Hroom.
  - exists w', pushes. split; [exact E|]. split; [exact Hok'|].
    split; [exact Hn'|]. split; [rewrite Hm'; reflexivity|].
    split; [rewrite Hs'; reflexivity|]. split; [exact Hlen|exact Hbound].
Qed.

Lemma PrepareScene_with_shader_completes_witness :
  m_pShaderManager Examples.one_texture = Some []
  ∧ registry_ok Examples.one_texture
  ∧ m_loadedTextures Examples.one_texture + 10
      ≤ Z.of_nat (length (m_textureIDs Examples.one_texture))
  ∧ ∃ w' pushes, PrepareScene Examples.one_texture = Ok tt w'
      ∧ registry_ok w'
      ∧ m_loadedTextures Examples.one_texture ≤ m_loadedTextures w'
          ≤ m_loadedTextures Examples.one_texture + 10
      ∧ m_objectMaterials w' = m_objectMaterials Examples.one_texture ++
          [canMaterial; paperMaterial; glassMaterial; CounterMaterial;
           backdropMaterial; FruitMaterial]
      ∧ m_pShaderManager w' = Some ([] ++ pushes) ∧ length pushes = 16%nat
      ∧ ∀ i e, registered w' i e →
          GL.bound_2D (GL.run GL.initial (gl w')) !! Z.of_nat i = Some (ID e).
Proof.
  assert (Hs : m_pShaderManager Examples.one_texture = Some [])
    by (vm_compute; reflexivity).
  assert (Hroom : m_loadedTextures Examples.one_texture + 10
                    ≤ Z.of_nat (length (m_textureIDs Examples.one_texture)))
    by (vm_compute; discriminate).
  split; [exact Hs|]. split; [exact one_texture_registry_ok|]. split; [exact Hroom|].
  exact (PrepareScene_with_shader_completes Examples.one_texture []
           Hs one_texture_registry_ok Hroom).
Defined.

End Preparing.


(** ** Loading the scene textures twice *)

Section LoadingTwice.

Import Glm Scene.
Local Open Scope Z_scope.

(** A load of a supported file with room left registers. *)
Lemma CreateGLTexture_supported_step (filename tag_ : string) (w : World) (n : Z) :
  all_files_supported (files w) →
  m_loadedTextures w = n → 0 ≤ n < Z.of_nat (length (m_textureIDs w)) →
  ∃ w', CreateGLTexture filename tag_ w = Ok true w'
    ∧ all_files_supported (files w')
    ∧ m_loadedTextures w' = n + 1
    ∧ length (m_textureIDs w') = length (m_textureIDs w).
Proof.
  intros Hfs Hn Hroom. destruct (Hfs filename) as (img & Hf & Hc).
  eexists. split; [apply (CreateGLTexture_success_log _ _ img _ Hf Hc); lia|].
  cbn [set_loadedTextures set_textureIDs set_gl files m_loadedTextures m_textureIDs].
  rewrite length_insert. repeat split; [exact Hfs|lia].
Qed.

Lemma CreateGLTexture_supported_full (filename tag_ : string) (w : World) :
  all_files_supported (files w) →
  Z.of_nat (length (m_textureIDs w)) ≤ m_loadedTextures w →
  ∃ w', CreateGLTexture filename tag_ w = Fault OutOfBounds w'
    ∧ m_loadedTextures w' = m_loadedTextures w.
Proof.
  intros Hfs Hfull. destruct (Hfs filename) as (img & Hf & Hc).
  eexists. split; [apply (CreateGLTexture_full_log _ _ img _ Hf Hc Hfull)|]. reflexivity.
Qed.

Lemma BindGLTextures_supported_step (w : World) (n : Z) :
  all_files_supported (files w) →
  m_loadedTextures w = n → 0 ≤ n ≤ Z.of_nat (length (m_textureIDs w)) →
  ∃ w', BindGLTextures w = Ok tt w'
    ∧ all_files_supported (files w')
    ∧ m_loadedTextures w' = n
    ∧ length (m_textureIDs w') = length (m_textureIDs w).
Proof.
  intros Hfs Hn Hr. eexists.
  split; [apply BindGLTextures_run; unfold in_range; lia|].
  cbn [set_gl files m_loadedTextures m_textureIDs]. repeat split; assumption.
Qed.

(** Run the next load of a sequence where there is room for it. *)
Ltac load_with_room w' Hfs' Hn' Hl' :=
  match goal with
  | Hfs : all_files_supported (files ?w), Hn : m_loadedTextures ?w = _,
    Hl : length (m_textureIDs ?w) = _
    |- context [(CreateGLTexture ?f ?t ≫= _) ?w] =>
      let E := fresh "E" in
      destruct (CreateGLTexture_supported_step f t w _ Hfs Hn ltac:(rewrite Hl; lia))
        as (w' & E & Hfs' & Hn' & Hl');
      rewrite (bind_Ok _ _ _ _ _ E); rewrite Hl in Hl';
      clear E Hfs Hn Hl
  end.

(** Run the next load of a sequence that overruns: either this is the load
    that finds the array full, or there is room and the sequence goes on. *)
Ltac load_or_overrun w' Hfs' Hn' Hl' Hlt :=
  match goal with
  | Hfs : all_files_supported (files ?w), Hn : m_loadedTextures ?w = ?n,
    Hl : length (m_textureIDs ?w) = ?L
    |- context [(CreateGLTexture ?f ?t ≫= _) ?w] =>
      destruct (Z_lt_le_dec n (Z.of_nat L)) as [Hlt|Hlt];
      [ load_with_room w' Hfs' Hn' Hl'
      | let E := fresh "E" in let Hn2 := fresh "Hn" in
        destruct (CreateGLTexture_supported_full f t w Hfs ltac:(rewrite Hl, Hn; exact Hlt))
          as (w' & E & Hn2);
        exists w'; split; [apply (bind_Fault _ _ _ _ _ E)|lia] ]
  end.

(** The ten loads of [LoadSceneTextures] when every file is supported:
    with room for ten they all register; with less, the load that finds the
    array full writes past its end. *)
Lemma LoadSceneTextures_supported (w : World) :
  all_files_supported (files w) → in_range w →
  (m_loadedTextures w + 10 ≤ Z.of_nat (length (m_textureIDs w)) →
   ∃ w1, LoadSceneTextures w = Ok tt w1
     ∧ all_files_supported (files w1)
     ∧ m_loadedTextures w1 = m_loadedTextures w + 10
     ∧ length (m_textureIDs w1) = length (m_textureIDs w))
  ∧ (Z.of_nat (length (m_textureIDs w)) < m_loadedTextures w + 10 →
     ∃ w2, LoadSceneTextures w = Fault OutOfBounds w2
       ∧ m_loadedTextures w2 = Z.of_nat (length (m_textureIDs w))).
Proof.
  intros Hfs0 [Hlo Hhi].
  remember (m_loadedTextures w) as n eqn:Hn0. symmetry in Hn0.
  remember (length (m_textureIDs w)) as L eqn:Hl0. symmetry in Hl0.
  split; intros Hroom; unfold LoadSceneTextures.
  - load_with_room w1 Hfs1 Hn1 Hl1. load_with_room w2 Hfs2 Hn2 Hl2.
    load_with_room w3 Hfs3 Hn3 Hl3. load_with_room w4 Hfs4 Hn4 Hl4.
    load_with_room w5 Hfs5 Hn5 Hl5. load_with_room w6 Hfs6 Hn6 Hl6.
    load_with_room w7 Hfs7 Hn7 Hl7. load_with_room w8 Hfs8 Hn8 Hl8.
    load_with_room w9 Hfs9 Hn9 Hl9. load_with_room w10 Hfs10 Hn10 Hl10.
    destruct (BindGLTextures_supported_step w10 _ Hfs10 Hn10 ltac:(rewrite Hl10; lia))
      as (w' & E & Hfs' & Hn' & Hl').
    exists w'. split; [exact E|]. split; [exact Hfs'|]. split; [lia|].
    rewrite Hl'. exact Hl10.
  - load_or_overrun w1 Hfs1 Hn1 Hl1 Hlt1. load_or_overrun w2 Hfs2 Hn2 Hl2 Hlt2.
    load_or_overrun w3 Hfs3 Hn3 Hl3 Hlt3. load_or_overrun w4 Hfs4 Hn4 Hl4 Hlt4.
    load_or_overrun w5 Hfs5 Hn5 Hl5 Hlt5. load_or_overrun w6 Hfs6 Hn6 Hl6 Hlt6.
    load_or_overrun w7 Hfs7 Hn7 Hl7 Hlt7. load_or_overrun w8 Hfs8 Hn8 Hl8 Hlt8.
    load_or_overrun w9 Hfs9 Hn9 Hl9 Hlt9. load_or_overrun w10 Hfs10 Hn10 Hl10 Hlt10.
    lia.
Qed.

(** X19. The ten scene textures need ten free slots.  When every file
    decodes to a supported image, [LoadSceneTextures] registers all ten
    from a state with room for them; from a state with less room it
    registers what fits and then writes past the end of the array, the
    counter standing at the array's length.  So from an empty
    sixteen-element registry one run fits, and a second run registers six
    more and overruns at its seventh load. *)
Theorem LoadSceneTextures_twice_overruns (w : World) :
  all_files_supported (files w) →
  in_range w →
  (m_loadedTextures w + 10 ≤ Z.of_nat (length (m_textureIDs w)) →
   ∃ w1, LoadSceneTextures w = Ok tt w1
     ∧ m_loadedTextures w1 = m_loadedTextures w + 10)
  ∧ (Z.of_nat (length (m_textureIDs w)) < m_loadedTextures w + 10 →
     ∃ w2, LoadSceneTextures w = Fault OutOfBounds w2
       ∧ m_loadedTextures w2 = Z.of_nat (length (m_textureIDs w)))
  ∧ (m_loadedTextures w = 0 → length (m_textureIDs w) = MAX_TEXTURES →
     ∃ w2, (LoadSceneTextures;; LoadSceneTextures) w = Fault OutOfBounds w2
       ∧ m_loadedTextures w2 = 16).
Proof.
  intros Hfs Hr. destruct (LoadSceneTextures_supported w Hfs Hr) as [Hfit Hover].
  split; [|split; [exact Hover|]].
  - intros Hroom. destruct (Hfit Hroom) as (w1 & E1 & _ & Hn1 & _).
    exists w1. split; assumption.
  - intros Hn Hl. unfold MAX_TEXTURES in Hl.
    destruct Hfit as (w1 & E1 & Hfs1 & Hn1 & Hl1); [rewrite Hn, Hl; cbn; lia|].
    rewrite (bind_Ok _ _ _ _ _ E1).
    destruct (LoadSceneTextures_supported w1 Hfs1) as [_ Hover1].
    + unfold in_range. rewrite Hn1, Hl1, Hn, Hl. cbn. lia.
    + destruct Hover1 as (w2 & E2 & Hn2); [rewrite Hn1, Hl1, Hn, Hl; cbn; lia|].
      exists w2. split; [exact E2|]. rewrite Hn2, Hl1, Hl. reflexivity.
Qed.

Lemma rgb_files_supported : all_files_supported Examples.rgb_files.
Proof. intros f. exists Examples.rgb_image. split; [reflexivity|left; reflexivity]. Qed.

Lemma sixteen_textures_files : all_files_supported (files Examples.sixteen_textures).
Proof.
  intros f. exists Examples.rgb_image.
  split; [vm_compute; reflexivity|left; reflexivity].
Qed.

Lemma LoadSceneTextures_twice_overruns_witness :
  all_files_supported (files Examples.fresh_scene)
  ∧ in_range Examples.fresh_scene
  ∧ m_loadedTextures Examples.fresh_scene + 10
      ≤ Z.of_nat (length (m_textureIDs Examples.fresh_scene))
  ∧ (∃ w1, LoadSceneTextures Examples.fresh_scene = Ok tt w1
       ∧ m_loadedTextures w1 = m_loadedTextures Examples.fresh_scene + 10)
  ∧ m_loadedTextures Examples.fresh_scene = 0
  ∧ length (m_textureIDs Examples.fresh_scene) = MAX_TEXTURES
  ∧ (∃ w2, (LoadSceneTextures;; LoadSceneTextures) Examples.fresh_scene
             = Fault OutOfBounds w2
       ∧ m_loadedTextures w2 = 16)
  ∧ all_files_supported (files Examples.sixteen_textures)
  ∧ in_range Examples.sixteen_textures
  ∧ Z.of_nat (length (m_textureIDs Examples.sixteen_textures))
      < m_loadedTextures Examples.sixteen_textures + 10
  ∧ (∃ w2, LoadSceneTextures Examples.sixteen_textures = Fault OutOfBounds w2
       ∧ m_loadedTextures w2 = Z.of_nat (length (m_textureIDs Examples.sixteen_textures))).
Proof.
  assert (Hr0 : in_range Examples.fresh_scene) by (split; discriminate).
  assert (Hroom : m_loadedTextures Examples.fresh_scene + 10
                    ≤ Z.of_nat (length (m_textureIDs Examples.fresh_scene)))
    by (vm_compute; discriminate).
  assert (Hr16 : in_range Examples.sixteen_textures)
    by (split; vm_compute; discriminate).
  assert (Hfull : Z.of_nat (length (m_textureIDs Examples.sixteen_textures))
                    < m_loadedTextures Examples.sixteen_textures + 10)
    by (vm_compute; reflexivity).
  destruct (LoadSceneTextures_twice_overruns Examples.fresh_scene rgb_files_supported Hr0)
    as (Hfit & _ & Htwice).
  destruct (LoadSceneTextures_twice_overruns Examples.sixteen_textures
              sixteen_textures_files Hr16) as (_ & Hover & _).
  split; [exact rgb_files_supported|]. split; [exact Hr0|]. split; [exact Hroom|].
  split; [exact (Hfit Hroom)|]. split; [reflexivity|]. split; [reflexivity|].
  split; [exact (Htwice eq_refl eq_refl)|].
  split; [exact sixteen_textures_files|]. split; [exact Hr16|]. split; [exact Hfull|].
  exact (Hover Hfull).
Defined.

End LoadingTwice.


(** ** Scrolling, and the input stream *)

Section Inputs.

Import Glm View ViewLoop.
Local Open Scope R_scope.

(** X20. Scrolling up and then down gives the speed back, from any speed of
    at least 1.  Scrolling down and then up gives it back only from 3 on:
    below that the floor intervenes and the speed ends at 3. *)
Theorem scroll_up_down_round_trip (x1 y1 x2 y2 : R) (g : Globals) :
  0 < y1 → y2 < 0 → 1 <= speed g →
  speed (Mouse_Scroll_Callback x2 y2 (Mouse_Scroll_Callback x1 y1 g)) = speed g
  ∧ (3 <= speed g →
     speed (Mouse_Scroll_Callback x1 y1 (Mouse_Scroll_Callback x2 y2 g)) = speed g)
  ∧ (speed g < 3 →
     speed (Mouse_Scroll_Callback x1 y1 (Mouse_Scroll_Callback x2 y2 g)) = 3).
Proof.
  intros Hup Hdown Hs. split; [|split].
  - rewrite scroll_down, scroll_up by assumption.
    destruct (Rlt_dec (speed g + 2 - 2) 1); lra.
  - intros H3. rewrite scroll_up, scroll_down by assumption.
    destruct (Rlt_dec (speed g - 2) 1); lra.
  - intros H3. rewrite scroll_up, scroll_down by assumption.
    destruct (Rlt_dec (speed g - 2) 1); lra.
Qed.

Lemma scroll_up_down_round_trip_witness :
  0 < 1 ∧ -1 < 0 ∧ 1 <= speed View.ViewManager
  ∧ speed (Mouse_Scroll_Callback 0 (-1) (Mouse_Scroll_Callback 0 1 View.ViewManager))
      = speed View.ViewManager
  ∧ speed (Mouse_Scroll_Callback 0 1 (Mouse_Scroll_Callback 0 (-1) View.ViewManager))
      = speed View.ViewManager.
Proof.
  assert (H1 : 0 < 1) by lra. assert (H2 : -1 < 0) by lra.
  assert (H3 : 1 <= speed View.ViewManager) by (unfold speed; cbn; lra).
  assert (H4 : 3 <= speed View.ViewManager) by (unfold speed; cbn; lra).
  destruct (scroll_up_down_round_trip 0 1 0 (-1) View.ViewManager H1 H2 H3) as (A & B & _).
  split; [exact H1|]. split; [exact H2|]. split; [exact H3|].
  split; [exact A|exact (B H4)].
Defined.

Lemma scrolls_up (events : list (R * R)) (g : Globals) :
  Forall (λ e, 0 < e.2) events →
  speed (scrolls events g) = speed g + 2 * INR (length events).
Proof.
  revert g. induction events as [|e es IH]; intros g Hup.
  - cbn. lra.
  - inversion Hup as [|? ? He Hes]; subst.
    rewrite scrolls_cons, (IH _ Hes), scroll_up by exact He.
    cbn [length]. rewrite S_INR. lra.
Qed.

(** X21. Upward scrolls are not clamped the way downward ones are.  From a
    whole-number speed [k] of at least 1, scroll events with a positive
    vertical offset add exactly 2 each, whatever their horizontal offsets
    and magnitudes: after the first [n] of them the speed is [k + 2 n].
    This is stated while [k + 2 n] stays within 2^24, the range in which a
    [float] holds every whole number: there each [+= 2.0f] is exact and
    the real-number reading is that of the code; every speed on the way is
    such a number. *)
Theorem scroll_up_adds_two_per_event (events : list (R * R)) (g : Globals) (k : Z) :
  speed g = IZR k →
  (1 ≤ k)%Z →
  (k + 2 * Z.of_nat (length events) ≤ 2 ^ 24)%Z →
  Forall (λ e, 0 < e.2) events →
  ∀ n : nat, (n ≤ length events)%nat →
    speed (scrolls (take n events) g) = IZR (k + 2 * Z.of_nat n)
    ∧ (1 ≤ k + 2 * Z.of_nat n ≤ 2 ^ 24)%Z.
Proof.
  intros Hk Hlo Hhi Hup n Hn. split; [|lia].
  rewrite (scrolls_up (take n events) g), Hk.
  - rewrite length_take, Nat.min_l by exact Hn.
    rewrite plus_IZR, mult_IZR, <- INR_IZR_INZ. reflexivity.
  - apply Forall_take, Hup.
Qed.

Lemma scroll_up_adds_two_per_event_witness :
  speed View.ViewManager = IZR 5
  ∧ (1 ≤ 5)%Z
  ∧ (5 + 2 * Z.of_nat (length [(0, 1); (3, 0.5)]%R) ≤ 2 ^ 24)%Z
  ∧ Forall (λ e : R * R, 0 < e.2) [(0, 1); (3, 0.5)]
  ∧ (2 ≤ length [(0, 1); (3, 0.5)]%R)%nat
  ∧ speed (scrolls (take 2 [(0, 1); (3, 0.5)]) View.ViewManager) = IZR (5 + 2 * Z.of_nat 2)
  ∧ (1 ≤ 5 + 2 * Z.of_nat 2 ≤ 2 ^ 24)%Z.
Proof.
  assert (H : Forall (λ e : R * R, 0 < e.2) [(0, 1); (3, 0.5)])
    by (repeat constructor; cbn; lra).
  assert (H1 : (1 ≤ 5)%Z) by lia.
  assert (H2 : (5 + 2 * Z.of_nat (length [(0, 1); (3, 0.5)]%R) ≤ 2 ^ 24)%Z) by (cbn; lia).
  assert (H3 : (2 ≤ length [(0, 1); (3, 0.5)]%R)%nat) by (cbn; lia).
  split; [reflexivity|]. split; [exact H1|]. split; [exact H2|]. split; [exact H|].
  split; [exact H3|].
  exact (scroll_up_adds_two_per_event [(0, 1); (3, 0.5)] View.ViewManager 5
           eq_refl H1 H2 H 2%nat H3).
Defined.

Lemma scroll_keeps_mouse_state (x y : R) (g : Globals) :
  gFirstMouse (Mouse_Scroll_Callback x y g) = gFirstMouse g
  ∧ gLastX (Mouse_Scroll_Callback x y g) = gLastX g
  ∧ gLastY (Mouse_Scroll_Callback x y g) = gLastY g.
Proof.
  unfold Mouse_Scroll_Callback.
  destruct (Rlt_dec 0 y); [repeat split|].
  destruct (Rlt_dec y 0); [|repeat split].
  cbv zeta. destruct (Rlt_dec _ _); repeat split.
Qed.

Lemma cursor_clears_first (PMM : R → R → Camera → Camera) (x y : R) (g : Globals) :
  gFirstMouse (Mouse_Position_Callback PMM x y g) = false
  ∧ gLastX (Mouse_Position_Callback PMM x y g) = x
  ∧ gLastY (Mouse_Position_Callback PMM x y g) = y.
Proof.
  destruct (gFirstMouse g) eqn:E.
  - rewrite (Mouse_Position_Callback_first _ _ _ _ E). repeat split.
  - rewrite (Mouse_Position_Callback_next _ _ _ _ E). repeat split.
Qed.

Lemma deliver_all_snoc (PMM : R → R → Camera → Camera) (es : list Input) (e : Input)
    (g : Globals) :
  deliver_all PMM (es ++ [e]) g = deliver PMM e (deliver_all PMM es g).
Proof. unfold deliver_all. rewrite foldl_app. reflexivity. Qed.

(** X22. Nothing re-arms the first-mouse flag.  After any stream of cursor
    and scroll events the flag is set only if it was set before and no
    cursor event arrived; and once a cursor event has arrived, the stored
    position is that of the last cursor event, scroll events in between
    notwithstanding. *)
Theorem first_mouse_flag_is_never_set_again
    (ProcessMouseMovement : R → R → Camera → Camera) (es : list Input) (g : Globals) :
  (gFirstMouse (deliver_all ProcessMouseMovement es g) = true ↔
   gFirstMouse g = true ∧ ∀ e, e ∈ es → ∃ x y, e = Scroll x y)
  ∧ ∀ x y scrolls_after,
      (∀ e, e ∈ scrolls_after → ∃ x' y', e = Scroll x' y') →
      let g' := deliver_all ProcessMouseMovement (es ++ CursorPos x y :: scrolls_after) g in
      gLastX g' = x ∧ gLastY g' = y ∧ gFirstMouse g' = false.
Proof.
  split.
  - induction es as [|e es IH] using rev_ind.
    + cbn. split; [intros H; split; [exact H|intros e He; inversion He]|tauto].
    + rewrite deliver_all_snoc. destruct e as [x y | x y]; cbn [deliver].
      * destruct (cursor_clears_first ProcessMouseMovement x y
                    (deliver_all ProcessMouseMovement es g)) as (-> & _).
        split; [discriminate|]. intros [_ H].
        destruct (H (CursorPos x y)) as (x' & y' & E); [|discriminate].
        apply elem_of_app. right. left.
      * destruct (scroll_keeps_mouse_state x y (deliver_all ProcessMouseMovement es g))
          as (-> & _).
        rewrite IH. split.
        -- intros [H1 H2]. split; [exact H1|]. intros e He.
           apply elem_of_app in He as [He | He]; [apply H2, He|].
           apply list_elem_of_singleton in He as ->. eauto.
        -- intros [H1 H2]. split; [exact H1|]. intros e He. apply H2.
           apply elem_of_app. left. exact He.
  - intros x y scrolls_after. induction scrolls_after as [|e ss IH] using rev_ind;
      intros Hs g'; subst g'.
    + rewrite deliver_all_snoc. cbn [deliver].
      destruct (cursor_clears_first ProcessMouseMovement x y
                  (deliver_all ProcessMouseMovement es g)) as (A & B & C).
      repeat split; assumption.
    + replace (es ++ CursorPos x y :: ss ++ [e]) with ((es ++ CursorPos x y :: ss) ++ [e])
        by (rewrite <- app_assoc; reflexivity).
      rewrite deliver_all_snoc.
      destruct (Hs e) as (x' & y' & ->); [apply elem_of_app; right; left|].
      cbn [deliver].
      destruct (scroll_keeps_mouse_state x' y'
                  (deliver_all ProcessMouseMovement (es ++ CursorPos x y :: ss) g))
        as (-> & -> & ->).
      apply IH. intros e He. apply Hs. apply elem_of_app. left. exact He.
Qed.

End Inputs.


(** ** The frame: time, keys, projection *)

Section Frames.

Import Glm View ViewLoop.
Local Open Scope R_scope.

Variable ProcessKeyboard : Camera_Movement → R → Camera → Camera.
Variable GetViewMatrix : Camera → mat4.

Local Abbreviation keys := (ProcessKeyboardEvents ProcessKeyboard).
Local Abbreviation frame := (PrepareSceneView ProcessKeyboard GetViewMatrix).

(** What the key pass leaves alone, and what it does to the flags. *)
Lemma ProcessKeyboardEvents_frame (pressed : Key → bool) (s : State) :
  gDeltaTime (keys pressed s) = gDeltaTime s
  ∧ gLastFrame (keys pressed s) = gLastFrame s
  ∧ m_pShaderManager (keys pressed s) = m_pShaderManager s
  ∧ bOrthographicProjection (keys pressed s) =
      (if pressed GLFW_KEY_O then true
       else if pressed GLFW_KEY_P then false
       else bOrthographicProjection s)
  ∧ shouldClose (keys pressed s) = (pressed GLFW_KEY_ESCAPE || shouldClose s)%bool.
Proof.
  unfold ProcessKeyboardEvents. cbv zeta.
  destruct (pressed GLFW_KEY_ESCAPE), (pressed GLFW_KEY_W), (pressed GLFW_KEY_S),
    (pressed GLFW_KEY_A), (pressed GLFW_KEY_D), (pressed GLFW_KEY_Q),
    (pressed GLFW_KEY_E), (pressed GLFW_KEY_P), (pressed GLFW_KEY_O);
    repeat split.
Qed.

Lemma PrepareSceneView_time (t : R) (pressed : Key → bool) (s : State) :
  gDeltaTime (frame t pressed s) = t - gLastFrame s
  ∧ gLastFrame (frame t pressed s) = t.
Proof.
  unfold PrepareSceneView. cbv zeta.
  destruct (ProcessKeyboardEvents_frame pressed (set_time (t - gLastFrame s) t s))
    as (Hd & Hl & _).
  destruct (m_pShaderManager _); cbn [set_shader gDeltaTime gLastFrame];
    rewrite ?Hd, ?Hl; split; reflexivity.
Qed.

Lemma frames_snoc (fs : list (R * (Key → bool))) (f : R * (Key → bool)) (s : State) :
  frames ProcessKeyboard GetViewMatrix (fs ++ [f]) s
  = frame f.1 f.2 (frames ProcessKeyboard GetViewMatrix fs s).
Proof. unfold frames. rewrite foldl_app. reflexivity. Qed.

(** X23. Frame timing.  After a run of frames the stored clock reading is
    that of the last frame (or the initial one if there was none), and the
    delta time of each frame is its clock reading minus that of the frame
    before it -- for the first frame, minus the initial reading. *)
Theorem frame_delta_is_time_since_previous_frame
    (fs : list (R * (Key → bool))) (f : R * (Key → bool)) (s : State) :
  let before := frames ProcessKeyboard GetViewMatrix fs s in
  let after := frames ProcessKeyboard GetViewMatrix (fs ++ [f]) s in
  gLastFrame before = default (gLastFrame s) (last (fs.*1))
  ∧ gLastFrame after = f.1
  ∧ gDeltaTime after = f.1 - default (gLastFrame s) (last (fs.*1)).
Proof.
  cbv zeta.
  assert (Hlast : ∀ fs', gLastFrame (frames ProcessKeyboard GetViewMatrix fs' s)
                         = default (gLastFrame s) (last (fs'.*1))).
  { induction fs' as [|f' fs' IH] using rev_ind; [reflexivity|].
    rewrite frames_snoc, fmap_app. cbn [fmap list_fmap]. rewrite last_snoc.
    apply (PrepareSceneView_time f'.1 f'.2). }
  split; [apply Hlast|]. rewrite frames_snoc.
  destruct (PrepareSceneView_time f.1 f.2 (frames ProcessKeyboard GetViewMatrix fs s))
    as (Hd & Hl).
  split; [exact Hl|]. rewrite Hd, Hlast. reflexivity.
Qed.

(** X24. A movement key pressed in a frame moves the camera in that frame
    with velocity (time since the previous frame) * [MovementSpeed]: the
    delta time is refreshed before the keys are read. *)
Theorem movement_key_uses_this_frames_delta
    (key : Key) (direction : Camera_Movement) (t : R) (s : State) :
  (key, direction) ∈ [(GLFW_KEY_W, FORWARD); (GLFW_KEY_S, BACKWARD);
                      (GLFW_KEY_A, LEFT); (GLFW_KEY_D, RIGHT);
                      (GLFW_KEY_Q, UP); (GLFW_KEY_E, DOWN)] →
  camera (frame t (only key) s) =
  ProcessKeyboard direction ((t - gLastFrame s) * MovementSpeed (camera s)) (camera s).
Proof.
  intros Hin.
  assert (Hcam : ∀ s',
    camera (match m_pShaderManager s' with
            | Some sm => set_shader (Some (sm ++
                [Scene.setMat4Value g_ViewName (GetViewMatrix (camera s'));
                 Scene.setMat4Value g_ProjectionName (projection_of s');
                 Scene.setVec3Value "viewPosition" (Position (camera s'))])) s'
            | None => s' end) = camera s').
  { intros s'. destruct (m_pShaderManager s'); reflexivity. }
  unfold PrepareSceneView. cbv zeta. rewrite Hcam.
  repeat (apply elem_of_cons in Hin as [Hin | Hin];
          [injection Hin as -> ->; reflexivity|]).
  inversion Hin.
Qed.

Lemma keys_set_shader (pressed : Key → bool) (p : option Scene.ShaderManager) (s : State) :
  keys pressed (set_shader p s) = set_shader p (keys pressed s).
Proof.
  unfold ProcessKeyboardEvents. cbv zeta.
  destruct (pressed GLFW_KEY_ESCAPE), (pressed GLFW_KEY_W), (pressed GLFW_KEY_S),
    (pressed GLFW_KEY_A), (pressed GLFW_KEY_D), (pressed GLFW_KEY_Q),
    (pressed GLFW_KEY_E), (pressed GLFW_KEY_P), (pressed GLFW_KEY_O);
    reflexivity.
Qed.

(** X25. [PrepareSceneView] tolerates a null shader manager: the frame
    pushes nothing and the pointer stays null, while time, camera,
    projection mode and close flag are updated exactly as they are when a
    shader manager is present. *)
Theorem PrepareSceneView_null_shader_only_skips_pushes
    (t : R) (pressed : Key → bool) (sm : Scene.ShaderManager) (s : State) :
  m_pShaderManager s = None →
  m_pShaderManager (frame t pressed s) = None
  ∧ frame t pressed s = set_shader None (frame t pressed (set_shader (Some sm) s)).
Proof.
  intros Hs.
  assert (E : m_pShaderManager
                (keys pressed (set_time (t - gLastFrame s) t s)) = None).
  { destruct (ProcessKeyboardEvents_frame pressed (set_time (t - gLastFrame s) t s))
      as (_ & _ & -> & _). exact Hs. }
  split.
  - unfold PrepareSceneView. cbv zeta. rewrite E. exact E.
  - unfold PrepareSceneView. cbv zeta. rewrite E.
    change (set_time (t - gLastFrame (set_shader (Some sm) s)) t (set_shader (Some sm) s))
      with (set_shader (Some sm) (set_time (t - gLastFrame s) t s)).
    rewrite keys_set_shader.
    cbn [m_pShaderManager set_shader].
    destruct (keys pressed (set_time (t - gLastFrame s) t s)) eqn:K.
    cbn in E. subst. reflexivity.
Qed.

(** X26. The projection a frame pushes follows the keys of that same
    frame: with O down it is the orthographic matrix, with P down and O up
    the perspective matrix, with neither the mode of the frame before; O
    wins when both are down.  The frame pushes exactly "view", "projection"
    and "viewPosition", in this order, all computed after the keys. *)
Theorem frame_projection_follows_this_frames_keys
    (t : R) (pressed : Key → bool) (sm : Scene.ShaderManager) (s : State) :
  m_pShaderManager s = Some sm →
  let s1 := keys pressed (set_time (t - gLastFrame s) t s) in
  let orthographic :=
    if pressed GLFW_KEY_O then true
    else if pressed GLFW_KEY_P then false
    else bOrthographicProjection s in
  m_pShaderManager (frame t pressed s) =
    Some (sm ++
      [Scene.setMat4Value "view" (GetViewMatrix (camera s1));
       Scene.setMat4Value "projection"
         (if orthographic
          then ortho (- 10) 10 (- 10) 10 0.1 100
          else perspective (radians (Zoom (camera s1))) (1000 / 800) 0.1 100);
       Scene.setVec3Value "viewPosition" (Position (camera s1))])
  ∧ bOrthographicProjection (frame t pressed s) = orthographic.
Proof.
  intros Hs s1 orthographic.
  destruct (ProcessKeyboardEvents_frame pressed (set_time (t - gLastFrame s) t s))
    as (_ & _ & Hsh & Hortho & _).
  fold s1 in Hsh, Hortho. cbn [set_time m_pShaderManager bOrthographicProjection] in Hsh, Hortho.
  fold orthographic in Hortho.
  unfold PrepareSceneView. cbv zeta. fold s1. rewrite Hsh, Hs.
  cbn [set_shader m_pShaderManager bOrthographicProjection]. split; [|exact Hortho].
  do 3 f_equal. unfold projection_of. rewrite Hortho.
  destruct orthographic; cbv zeta; unfold WINDOW_WIDTH, WINDOW_HEIGHT.
  - replace 10.0 with 10 by lra. replace 100.0 with 100 by lra. reflexivity.
  - replace 100.0 with 100 by lra. reflexivity.
Qed.

End Frames.

Lemma movement_key_uses_this_frames_delta_witness :
  (ViewLoop.GLFW_KEY_W, ViewLoop.FORWARD)
    ∈ [(ViewLoop.GLFW_KEY_W, ViewLoop.FORWARD); (ViewLoop.GLFW_KEY_S, ViewLoop.BACKWARD);
       (ViewLoop.GLFW_KEY_A, ViewLoop.LEFT); (ViewLoop.GLFW_KEY_D, ViewLoop.RIGHT);
       (ViewLoop.GLFW_KEY_Q, ViewLoop.UP); (ViewLoop.GLFW_KEY_E, ViewLoop.DOWN)]
  ∧ ViewLoop.camera
      (ViewLoop.PrepareSceneView ViewLoop.still_camera ViewLoop.identity_view 2%R
         (ViewLoop.only ViewLoop.GLFW_KEY_W) (ViewLoop.ViewManager None)) =
    ViewLoop.still_camera ViewLoop.FORWARD
      ((2 - ViewLoop.gLastFrame (ViewLoop.ViewManager None))
         * View.MovementSpeed (ViewLoop.camera (ViewLoop.ViewManager None)))%R
      (ViewLoop.camera (ViewLoop.ViewManager None)).
Proof.
  assert (H : (ViewLoop.GLFW_KEY_W, ViewLoop.FORWARD)
    ∈ [(ViewLoop.GLFW_KEY_W, ViewLoop.FORWARD); (ViewLoop.GLFW_KEY_S, ViewLoop.BACKWARD);
       (ViewLoop.GLFW_KEY_A, ViewLoop.LEFT); (ViewLoop.GLFW_KEY_D, ViewLoop.RIGHT);
       (ViewLoop.GLFW_KEY_Q, ViewLoop.UP); (ViewLoop.GLFW_KEY_E, ViewLoop.DOWN)]) by left.
  split; [exact H|].
  exact (movement_key_uses_this_frames_delta ViewLoop.still_camera ViewLoop.identity_view
           ViewLoop.GLFW_KEY_W ViewLoop.FORWARD 2%R (ViewLoop.ViewManager None) H).
Defined.

Lemma PrepareSceneView_null_shader_only_skips_pushes_witness :
  ViewLoop.m_pShaderManager (ViewLoop.ViewManager None) = None
  ∧ ViewLoop.m_pShaderManager
      (ViewLoop.PrepareSceneView ViewLoop.still_camera ViewLoop.identity_view 2%R
         (ViewLoop.only ViewLoop.GLFW_KEY_O) (ViewLoop.ViewManager None)) = None
  ∧ ViewLoop.PrepareSceneView ViewLoop.still_camera ViewLoop.identity_view 2%R
      (ViewLoop.only ViewLoop.GLFW_KEY_O) (ViewLoop.ViewManager None)
    = ViewLoop.set_shader None
        (ViewLoop.PrepareSceneView ViewLoop.still_camera ViewLoop.identity_view 2%R
           (ViewLoop.only ViewLoop.GLFW_KEY_O)
           (ViewLoop.set_shader (Some []) (ViewLoop.ViewManager None))).
Proof.
  split; [reflexivity|].
  exact (PrepareSceneView_null_shader_only_skips_pushes
           ViewLoop.still_camera ViewLoop.identity_view 2%R
           (ViewLoop.only ViewLoop.GLFW_KEY_O) [] (ViewLoop.ViewManager None) eq_refl).
Defined.

Lemma frame_projection_follows_this_frames_keys_witness :
  ViewLoop.m_pShaderManager (ViewLoop.ViewManager (Some [])) = Some []
  ∧ (let t := 2%R in
     let pressed := ViewLoop.only ViewLoop.GLFW_KEY_O in
     let s := ViewLoop.ViewManager (Some []) in
     let s1 := ViewLoop.ProcessKeyboardEvents ViewLoop.still_camera pressed
                 (ViewLoop.set_time (t - ViewLoop.gLastFrame s) t s) in
     let orthographic :=
       if pressed ViewLoop.GLFW_KEY_O then true
       else if pressed ViewLoop.GLFW_KEY_P then false
       else ViewLoop.bOrthographicProjection s in
     ViewLoop.m_pShaderManager
       (ViewLoop.PrepareSceneView ViewLoop.still_camera ViewLoop.identity_view t pressed s) =
       Some ([] ++
         [Scene.setMat4Value "view" (ViewLoop.identity_view (ViewLoop.camera s1));
          Scene.setMat4Value "projection"
            (if orthographic
             then Glm.ortho (- 10) 10 (- 10) 10 0.1 100
             else Glm.perspective (Glm.radians (View.Zoom (ViewLoop.camera s1)))
                    (1000 / 800) 0.1 100);
          Scene.setVec3Value "viewPosition" (View.Position (ViewLoop.camera s1))])
     ∧ ViewLoop.bOrthographicProjection
         (ViewLoop.PrepareSceneView ViewLoop.still_camera ViewLoop.identity_view t pressed s)
       = orthographic).
Proof.
  split; [reflexivity|].
  exact (frame_projection_follows_this_frames_keys
           ViewLoop.still_camera ViewLoop.identity_view 2%R
           (ViewLoop.only ViewLoop.GLFW_KEY_O) [] (ViewLoop.ViewManager (Some []))
           eq_refl).
Defined.

(** ** The projection matrices *)

Section Projections.

Import Glm View ViewLoop.
Local Open Scope R_scope.

(** X27. In orthographic mode the projection has no perspective divide:
    the clip coordinate w of a view-space point is 1, x and y are the
    view-space x and y divided by 10, and depth is affine in z, taking the
    near plane (z = -0.1) to -1 and the far plane (z = -100) to 1, so the
    box of half-width 10 between the planes lands in the clip cube. *)
Theorem orthographic_projection_maps_box_to_cube (s : State) (x y z : R) :
  bOrthographicProjection s = true →
  let clip := mul_vec (projection_of s) (Vec4 x y z 1) in
  v4w clip = 1
  ∧ v4x clip = x / 10
  ∧ v4y clip = y / 10
  ∧ (z = - 0.1 → v4z clip = - 1)
  ∧ (z = - 100 → v4z clip = 1)
  ∧ (- 100 <= z <= - 0.1 → - 1 <= v4z clip <= 1).
Proof.
  intros Ho. unfold projection_of. rewrite Ho. cbv zeta. unfold ortho.
  cbn [mul_vec vadd vscale col0 col1 col2 col3 v4x v4y v4z v4w].
  replace 10.0 with 10 by lra. replace 100.0 with 100 by lra.
  replace 0.1 with (1 / 10) by lra.
  replace (- 2 / (100 - 1 / 10)) with (- (20 / 999)) by (field; lra).
  replace (- (100 + 1 / 10) / (100 - 1 / 10)) with (- (1001 / 999)) by (field; lra).
  split; [lra|]. split; [field; lra|]. split; [field; lra|].
  split; [intros ->; lra|]. split; [intros ->; lra|]. intros [Hlo Hhi]. lra.
Qed.

Lemma orthographic_projection_maps_box_to_cube_witness :
  bOrthographicProjection (set_projection true (ViewLoop.ViewManager None)) = true
  ∧ (let clip := mul_vec (projection_of (set_projection true (ViewLoop.ViewManager None)))
                   (Vec4 10 (- 10) (- 0.1) 1) in
     v4w clip = 1
     ∧ v4x clip = 10 / 10
     ∧ v4y clip = - 10 / 10
     ∧ (- 0.1 = - 0.1 → v4z clip = - 1)
     ∧ (- 0.1 = - 100 → v4z clip = 1)
     ∧ (- 100 <= - 0.1 <= - 0.1 → - 1 <= v4z clip <= 1)).
Proof.
  split; [reflexivity|].
  exact (orthographic_projection_maps_box_to_cube
           (set_projection true (ViewLoop.ViewManager None)) 10 (- 10) (- 0.1) eq_refl).
Defined.

(** X28. In perspective mode the clip coordinate w of a view-space point is
    the negated view-space z (the perspective divide), whatever the zoom;
    depth takes the near plane (z = -0.1) to -w and the far plane
    (z = -100) to +w, and points between the planes stay within [-w, w]. *)
Theorem perspective_projection_depth (s : State) (x y z : R) :
  bOrthographicProjection s = false →
  let clip := mul_vec (projection_of s) (Vec4 x y z 1) in
  v4w clip = - z
  ∧ (z = - 0.1 → v4z clip = - v4w clip)
  ∧ (z = - 100 → v4z clip = v4w clip)
  ∧ (- 100 <= z <= - 0.1 → - v4w clip <= v4z clip <= v4w clip).
Proof.
  intros Ho. unfold projection_of. rewrite Ho. cbv zeta. unfold perspective.
  cbv zeta.
  cbn [mul_vec vadd vscale col0 col1 col2 col3 v4x v4y v4z v4w].
  replace 100.0 with 100 by lra. replace 0.1 with (1 / 10) by lra.
  replace (- (100 + 1 / 10) / (100 - 1 / 10)) with (- (1001 / 999)) by (field; lra).
  replace (- (2 * 100 * (1 / 10)) / (100 - 1 / 10)) with (- (200 / 999)) by (field; lra).
  split; [lra|]. split; [intros ->; lra|]. split; [intros ->; lra|].
  intros [Hlo Hhi]. lra.
Qed.

Lemma perspective_projection_depth_witness :
  bOrthographicProjection (ViewLoop.ViewManager None) = false
  ∧ (let clip := mul_vec (projection_of (ViewLoop.ViewManager None)) (Vec4 1 2 (- 100) 1) in
     v4w clip = - - 100
     ∧ (- 100 = - 0.1 → v4z clip = - v4w clip)
     ∧ (- 100 = - 100 → v4z clip = v4w clip)
     ∧ (- 100 <= - 100 <= - 0.1 → - v4w clip <= v4z clip <= v4w clip)).
Proof.
  split; [reflexivity|].
  exact (perspective_projection_depth (ViewLoop.ViewManager None) 1 2 (- 100) eq_refl).
Defined.

End Projections.
